(** * Daily electricity totals (TaskD/task_d.py)

    A shallow embedding of the week-42 electricity report: the rows of the
    CSV file are folded into per-day sums of six channels (watt-hours),
    converted to kilowatt-hours and printed as a table with Finnish weekday
    names, [dd.mm.yyyy] dates and decimal commas.

    Conventions of the embedding.
    - A Python [str] is a [string]; its characters stand for the code points
      U+0000..U+00FF.
    - A Python [float] is a primitive binary64 float ([PrimFloat.float]); the
      arithmetic is the machine's, specified by [SpecFloat].
    - A raised exception is the [Raise] branch of [result]; only the class of
      the exception is kept.
    - The dictionaries keyed by [date] are [gmap date _]; the list of six sums
      held for a day is a [list] read and written by index.
    - [print] appends a line to the list of lines the report returns.
    - [main] starts from the rows that [read_data] returned; reading the
      file and the [csv] module are outside the embedding. *)

From Stdlib Require Import ZArith Floats String Ascii QArith Qcanon Qabs Lqa.
From stdpp Require Import gmap strings list sorting.

Set Warnings "-inexact-float,-clear-no-such-hyp".
Local Open Scope string_scope.
Local Open Scope Z_scope.

(** ** Exceptions *)

Inductive exn : Type :=
  | ValueError
  | IndexError
  | KeyError.

Inductive result (A : Type) : Type :=
  | Ok (a : A)
  | Raise (e : exn).
Arguments Ok {A} a.
Arguments Raise {A} e.

(** Sequencing: the first exception raised ends the computation. *)
Global Instance result_ret : MRet result := fun A a => Ok a.
Global Instance result_bind : MBind result := fun A B k r =>
  match r with
  | Ok a => k a
  | Raise e => Raise e
  end.

Definition is_ok {A : Type} (r : result A) : bool :=
  match r with Ok _ => true | Raise _ => false end.

(** [l[i]] on a Python list: [IndexError] out of range. *)
Definition getitem {A : Type} (l : list A) (i : nat) : result A :=
  match l !! i with
  | Some a => Ok a
  | None => Raise IndexError
  end.

(** ** The Python library, as far as the program uses it *)

Module Py.

(** *** str *)

(** [c.isspace()] for the code points below U+0100. *)
Definition isspace (c : ascii) : bool :=
  let n := Z.of_nat (nat_of_ascii c) in
  ((9 <=? n) && (n <=? 13)) || ((28 <=? n) && (n <=? 32))
  || (n =? 133) || (n =? 160).

Definition isdigit (c : ascii) : bool :=
  let n := Z.of_nat (nat_of_ascii c) in (48 <=? n) && (n <=? 57).

Definition digit_val (c : ascii) : Z := Z.of_nat (nat_of_ascii c) - 48.

Definition digit_char (n : Z) : ascii := ascii_of_nat (Z.to_nat (48 + n)).

Fixpoint lstrip (s : string) : string :=
  match s with
  | String c s' => if isspace c then lstrip s' else s
  | EmptyString => EmptyString
  end.

Fixpoint rstrip (s : string) : string :=
  match s with
  | String c s' =>
      match rstrip s' with
      | EmptyString => if isspace c then EmptyString else String c EmptyString
      | r => String c r
      end
  | EmptyString => EmptyString
  end.

(** [s.strip()] *)
Definition strip (s : string) : string := rstrip (lstrip s).

(** [s.replace(old, new)] for one-character [old] and [new]. *)
Fixpoint replace (old new : ascii) (s : string) : string :=
  match s with
  | String c s' => String (if Ascii.eqb c old then new else c) (replace old new s')
  | EmptyString => EmptyString
  end.

Fixpoint lower (s : string) : string :=
  match s with
  | String c s' =>
      let n := nat_of_ascii c in
      String (if (65 <=? n)%nat && (n <=? 90)%nat then ascii_of_nat (n + 32) else c)
             (lower s')
  | EmptyString => EmptyString
  end.

Fixpoint spaces (n : nat) : string :=
  match n with
  | O => EmptyString
  | S n' => String " " (spaces n')
  end.

(** [f"{s:<w}"] and [f"{s:>w}"]: pad with spaces up to the width, never cut. *)
Definition ljust (w : nat) (s : string) : string :=
  s +:+ spaces (w - String.length s).

Definition rjust (w : nat) (s : string) : string :=
  spaces (w - String.length s) +:+ s.

(** Decimal digits of a non-negative integer, as [str(n)] gives them. *)
Fixpoint dec_go (fuel : nat) (n : Z) (acc : string) : string :=
  match fuel with
  | O => acc
  | S fuel' =>
      let acc' := String (digit_char (n mod 10)) acc in
      if n <? 10 then acc' else dec_go fuel' (n / 10) acc'
  end.

Definition str_of_int (n : Z) : string :=
  dec_go (S (Z.to_nat (Z.log2 n))) n EmptyString.

(** Zero-padded to at least [w] digits ([%02d], [%04d]). *)
Definition zfill (w : nat) (n : Z) : string :=
  let s := str_of_int n in
  String.concat "" (List.repeat "0" (w - String.length s)) +:+ s.

(** *** datetime.date and datetime.datetime *)

Record date : Type := Date { year : Z; month : Z; day : Z }.

Global Instance date_eq_dec : EqDecision date.
Proof. solve_decision. Defined.

(** Dates are hashable: they serve as dictionary keys. *)
Global Instance date_countable : Countable date.
Proof.
  refine (inj_countable' (fun d => (year d, month d, day d))
                         (fun '(y, m, d) => Date y m d) _).
  by intros [].
Defined.

Record datetime : Type := DateTime {
  dt_date : date;
  hour : Z;
  minute : Z;
  second : Z;
  microsecond : Z;
  (** the UTC offset in microseconds, when the string carried one *)
  utcoffset : option Z
}.

Definition is_leap (y : Z) : bool :=
  (y mod 4 =? 0) && (negb (y mod 100 =? 0) || (y mod 400 =? 0)).

Definition days_in_month (y m : Z) : Z :=
  match m with
  | 1 | 3 | 5 | 7 | 8 | 10 | 12 => 31
  | 4 | 6 | 9 | 11 => 30
  | 2 => if is_leap y then 29 else 28
  | _ => 0
  end.

Definition days_before_year (y : Z) : Z :=
  let y' := y - 1 in y' * 365 + y' / 4 - y' / 100 + y' / 400.

Definition days_before_month (y m : Z) : Z :=
  match m with
  | 1 => 0 | 2 => 31 | 3 => 59 | 4 => 90 | 5 => 120 | 6 => 151 | 7 => 181
  | 8 => 212 | 9 => 243 | 10 => 273 | 11 => 304 | 12 => 334
  | _ => 0
  end + (if (2 <? m) && is_leap y then 1 else 0).

(** The checks of the [date] constructor: MINYEAR = 1, MAXYEAR = 9999. *)
Definition valid_date (d : date) : bool :=
  (1 <=? year d) && (year d <=? 9999) &&
  (1 <=? month d) && (month d <=? 12) &&
  (1 <=? day d) && (day d <=? days_in_month (year d) (month d)).

Definition valid_time (h mi s us : Z) : bool :=
  (0 <=? h) && (h <=? 23) && (0 <=? mi) && (mi <=? 59) &&
  (0 <=? s) && (s <=? 59) && (0 <=? us) && (us <=? 999999).

(** [datetime(y, m, d, h, mi, s, us, tz)]: [ValueError] when a field is out
    of range. *)
Definition mk_datetime (y m d h mi s us : Z) (tz : option Z) : result datetime :=
  if valid_date (Date y m d) && valid_time h mi s us
  then Ok (DateTime (Date y m d) h mi s us tz)
  else Raise ValueError.

(** [d.toordinal()]: 1 for 0001-01-01. *)
Definition toordinal (d : date) : Z :=
  days_before_year (year d) + days_before_month (year d) (month d) + day d.

(** [d.weekday()]: Monday is 0, Sunday is 6. *)
Definition weekday (d : date) : Z := (toordinal d + 6) mod 7.

(** [d.strftime("%d.%m.%Y")].  The C library writes [%Y]: on Linux (glibc)
    it is the year without padding, 999 and not 0999; from the year 1000 on
    it has four digits on every platform. *)
Definition strftime_dmY (d : date) : string :=
  zfill 2 (day d) +:+ "." +:+ zfill 2 (month d) +:+ "." +:+ str_of_int (year d).

(** Dates compare as the triples (year, month, day). *)
Definition date_le (a b : date) : Prop :=
  year a < year b \/
  (year a = year b /\ (month a < month b \/ (month a = month b /\ day a <= day b))).

Definition date_lt (a b : date) : Prop :=
  year a < year b \/
  (year a = year b /\ (month a < month b \/ (month a = month b /\ day a < day b))).

(** *** datetime.strptime

    [_strptime] turns the format into a regular expression and matches it
    against the start of the text with the backtracking engine of [re]; text
    left over after the match is an error.  A matcher below lists the ways a
    pattern matches a prefix, in the order the engine tries them, each with
    the rest of the text. *)

Definition cls : Type := ascii -> bool.

Definition in_range (lo hi : string) : cls := fun c =>
  match lo, hi with
  | String l _, String h _ =>
      (nat_of_ascii l <=? nat_of_ascii c)%nat && (nat_of_ascii c <=? nat_of_ascii h)%nat
  | _, _ => false
  end.

Definition chr (x : string) : cls := in_range x x.

(** A sequence of character classes against the start of the text. *)
Fixpoint match_seq (cs : list cls) (s : string) : option (string * string) :=
  match cs with
  | [] => Some (EmptyString, s)
  | k :: cs' =>
      match s with
      | String c s' =>
          if k c then
            '(m, rest) ← match_seq cs' s'; Some (String c m, rest)
          else None
      | EmptyString => None
      end
  end.

(** [a|b|...]: the alternatives that match, first alternative first. *)
Definition match_alt (alts : list (list cls)) (s : string) : list (string * string) :=
  omap (fun cs => match_seq cs s) alts.

(** [int(text)] for a matched text of digits, a leading blank skipped. *)
Fixpoint int_of_digits (acc : Z) (s : string) : Z :=
  match s with
  | String c s' =>
      if isdigit c then int_of_digits (10 * acc + digit_val c) s'
      else int_of_digits acc s'
  | EmptyString => acc
  end.

Inductive directive : Type :=
  | D_Y | D_m | D_d | D_H | D_M | D_S
  | D_lit (c : ascii)
  | D_ws.

(** The regular expression of each directive, as [_strptime.TimeRE] has it. *)
Definition directive_regex (d : directive) : list (list cls) :=
  let dig := isdigit in
  match d with
  | D_Y => [[dig; dig; dig; dig]]
  | D_m => [[chr "1"; in_range "0" "2"]; [chr "0"; in_range "1" "9"]; [in_range "1" "9"]]
  | D_d => [[chr "3"; in_range "0" "1"]; [in_range "1" "2"; dig];
            [chr "0"; in_range "1" "9"]; [in_range "1" "9"]; [chr " "; in_range "1" "9"]]
  | D_H => [[chr "2"; in_range "0" "3"]; [in_range "0" "1"; dig]; [dig]]
  | D_M => [[in_range "0" "5"; dig]; [dig]]
  | D_S => [[chr "6"; in_range "0" "1"]; [in_range "0" "5"; dig]; [dig]]
  | D_lit c => [[Ascii.eqb c]]
  | D_ws => []
  end.

(** [\s+] is greedy: the longest run of blanks first, then shorter ones. *)
Fixpoint ws_runs (s : string) : list string :=
  match s with
  | String c s' => if isspace c then ws_runs s' ++ [s'] else []
  | EmptyString => []
  end.

(** The format as a list of directives; a run of blanks in the format is one
    [\s+]. *)
Fixpoint compile_format (fmt : string) : list directive :=
  match fmt with
  | String "%" (String c fmt') =>
      (if Ascii.eqb c "Y" then D_Y else if Ascii.eqb c "m" then D_m
       else if Ascii.eqb c "d" then D_d else if Ascii.eqb c "H" then D_H
       else if Ascii.eqb c "M" then D_M else if Ascii.eqb c "S" then D_S
       else D_lit c) :: compile_format fmt'
  | String c fmt' =>
      if isspace c then
        match compile_format fmt' with
        | D_ws :: ds => D_ws :: ds
        | ds => D_ws :: ds
        end
      else D_lit c :: compile_format fmt'
  | EmptyString => []
  end.

(** The fields found so far; the defaults are those of [_strptime]. *)
Record fields : Type := Fields {
  f_Y : Z; f_m : Z; f_d : Z; f_H : Z; f_M : Z; f_S : Z
}.

Definition fields_default : fields := Fields 1900 1 1 0 0 0.

Definition set_field (d : directive) (v : Z) (f : fields) : fields :=
  match d with
  | D_Y => Fields v (f_m f) (f_d f) (f_H f) (f_M f) (f_S f)
  | D_m => Fields (f_Y f) v (f_d f) (f_H f) (f_M f) (f_S f)
  | D_d => Fields (f_Y f) (f_m f) v (f_H f) (f_M f) (f_S f)
  | D_H => Fields (f_Y f) (f_m f) (f_d f) v (f_M f) (f_S f)
  | D_M => Fields (f_Y f) (f_m f) (f_d f) (f_H f) v (f_S f)
  | D_S => Fields (f_Y f) (f_m f) (f_d f) (f_H f) (f_M f) v
  | _ => f
  end.

Definition match_directive (d : directive) (f : fields) (s : string)
  : list (fields * string) :=
  match d with
  | D_ws => (fun rest => (f, rest)) <$> ws_runs s
  | _ => (fun '(m, rest) => (set_field d (int_of_digits 0 m) f, rest))
           <$> match_alt (directive_regex d) s
  end.

Fixpoint match_directives (ds : list directive) (f : fields) (s : string)
  : list (fields * string) :=
  match ds with
  | [] => [(f, s)]
  | d :: ds' =>
      '(f', rest) ← match_directive d f s; match_directives ds' f' rest
  end.

(** [datetime.strptime(text, fmt)] *)
Definition strptime (text fmt : string) : result datetime :=
  match match_directives (compile_format fmt) fields_default text with
  | [] => Raise ValueError                         (* does not match format *)
  | (f, rest) :: _ =>
      match rest with
      | EmptyString =>
          mk_datetime (f_Y f) (f_m f) (f_d f) (f_H f) (f_M f) (f_S f) 0 None
      | _ => Raise ValueError                      (* unconverted data remains *)
      end
  end.

(** *** datetime.fromisoformat

    The strings accepted are those of the grammar
    [YYYY-MM-DD[*HH[:MM[:SS[.fff[fff]]]][+HH:MM[:SS[.ffffff]]]]], where [*]
    is any one character: what [datetime.isoformat] writes.  (Python 3.11
    and later accept further ISO 8601 forms; nothing below depends on their
    rejection.) *)

Fixpoint take_digits (n : nat) (s : string) : option (Z * string) :=
  match n with
  | O => Some (0, s)
  | S n' =>
      match s with
      | String c s' =>
          if isdigit c then
            '(v, rest) ← take_digits n' s';
            Some (digit_val c * 10 ^ Z.of_nat n' + v, rest)
          else None
      | EmptyString => None
      end
  end.

Definition expect (c : ascii) (s : string) : option string :=
  match s with
  | String c' s' => if Ascii.eqb c' c then Some s' else None
  | EmptyString => None
  end.

Definition parse_isoformat_date (s : string) : option (Z * Z * Z * string) :=
  '(y, s) ← take_digits 4 s;
  s ← expect "-" s;
  '(m, s) ← take_digits 2 s;
  s ← expect "-" s;
  '(d, s) ← take_digits 2 s;
  Some (y, m, d, s).

(** [.fff] or [.ffffff], in microseconds. *)
Definition parse_fraction (s : string) : option Z :=
  match String.length s with
  | 3%nat => '(v, _) ← take_digits 3 s; Some (v * 1000)
  | 6%nat => '(v, _) ← take_digits 6 s; Some v
  | _ => None
  end.

(** [HH[:MM[:SS[.fff[fff]]]]] *)
Definition parse_hh_mm_ss_ff (s : string) : option (Z * Z * Z * Z) :=
  '(h, s) ← take_digits 2 s;
  match s with
  | EmptyString => Some (h, 0, 0, 0)
  | _ =>
      s ← expect ":" s;
      '(mi, s) ← take_digits 2 s;
      match s with
      | EmptyString => Some (h, mi, 0, 0)
      | _ =>
          s ← expect ":" s;
          '(sec, s) ← take_digits 2 s;
          match s with
          | EmptyString => Some (h, mi, sec, 0)
          | _ => s ← expect "." s; us ← parse_fraction s; Some (h, mi, sec, us)
          end
      end
  end.

(** The text up to the first [+] or [-], the sign found and what follows. *)
Fixpoint split_tz (s : string) : string * option (bool * string) :=
  match s with
  | String c s' =>
      if Ascii.eqb c "+" then (EmptyString, Some (false, s'))
      else if Ascii.eqb c "-" then (EmptyString, Some (true, s'))
      else let '(t, tz) := split_tz s' in (String c t, tz)
  | EmptyString => (EmptyString, None)
  end.

Definition parse_isoformat_time (s : string) : option (Z * Z * Z * Z * option Z) :=
  let '(tstr, tz) := split_tz s in
  '(h, mi, sec, us) ← parse_hh_mm_ss_ff tstr;
  match tz with
  | None => Some (h, mi, sec, us, None)
  | Some (neg, tzstr) =>
      if bool_decide (String.length tzstr ∈ [5; 8; 15]%nat) then
        '(th, tm, ts, tus) ← parse_hh_mm_ss_ff tzstr;
        let off := ((th * 3600 + tm * 60 + ts) * 1000000 + tus) in
        (* timezone(offset): strictly between -24 and 24 hours *)
        if off <? 86400000000 then Some (h, mi, sec, us, Some (if neg then - off else off))
        else None
      else None
  end.

Definition fromisoformat (s : string) : result datetime :=
  match parse_isoformat_date s with
  | None => Raise ValueError
  | Some (y, m, d, rest) =>
      match rest with
      | EmptyString => mk_datetime y m d 0 0 0 0 None
      | String _ tstr =>
          match parse_isoformat_time tstr with
          | None => Raise ValueError
          | Some (h, mi, sec, us, tz) => mk_datetime y m d h mi sec us tz
          end
      end
  end.

(** *** float

    [float(s)] reads, between blanks, a sign and then [inf], [infinity],
    [nan] (in any case) or a decimal number with an optional exponent;
    underscores may stand between digits.  The value is the binary64 number
    nearest to the decimal one, ties to even. *)

(** The blanks that [float] skips at both ends are those of C's [isspace]
    (U+0009..U+000D and the space) and, of the code points above U+007F,
    U+0085 and U+00A0, which it turns into spaces first.  The separators
    U+001C..U+001F are blanks for [str.strip] but not for [float]:
    [float("1\x1f")] raises [ValueError]. *)
Definition float_isspace (c : ascii) : bool :=
  let n := Z.of_nat (nat_of_ascii c) in
  ((9 <=? n) && (n <=? 13)) || (n =? 32) || (n =? 133) || (n =? 160).

Fixpoint float_lstrip (s : string) : string :=
  match s with
  | String c s' => if float_isspace c then float_lstrip s' else s
  | EmptyString => EmptyString
  end.

Fixpoint float_rstrip (s : string) : string :=
  match s with
  | String c s' =>
      match float_rstrip s' with
      | EmptyString => if float_isspace c then EmptyString else String c EmptyString
      | r => String c r
      end
  | EmptyString => EmptyString
  end.

Definition float_strip (s : string) : string := float_rstrip (float_lstrip s).

(** [digit (["_"] digit)*] and what follows it.  [prev] tells whether the
    character before was a digit; the result counts the digits read. *)
Fixpoint digitpart (prev : bool) (acc : Z) (n : Z) (s : string) : Z * Z * string :=
  match s with
  | String c s' =>
      if isdigit c then digitpart true (10 * acc + digit_val c) (n + 1) s'
      else if Ascii.eqb c "_" && prev &&
              match s' with String d _ => isdigit d | EmptyString => false end
      then digitpart false acc n s'
      else (acc, n, s)
  | EmptyString => (acc, n, s)
  end.

Definition parse_sign (s : string) : bool * string :=
  match s with
  | String "-" s' => (true, s')
  | String "+" s' => (false, s')
  | _ => (false, s)
  end.

(** [("e" | "E") [sign] digitpart], absent when the text ends. *)
Definition parse_exponent (s : string) : option Z :=
  match s with
  | EmptyString => Some 0
  | String c s' =>
      if Ascii.eqb c "e" || Ascii.eqb c "E" then
        let '(neg, s'') := parse_sign s' in
        let '(e, n, rest) := digitpart false 0 0 s'' in
        match rest with
        | EmptyString => if 0 <? n then Some (if neg then - e else e) else None
        | _ => None
        end
      else None
  end.

(** A decimal number as (mantissa, power of ten): the value is
    [mantissa * 10 ^ power]. *)
Definition parse_decimal (s : string) : option (Z * Z) :=
  let '(ip, ni, s1) := digitpart false 0 0 s in
  match s1 with
  | String "." s2 =>
      let '(m, nf, s3) := digitpart false ip 0 s2 in
      if (0 <? ni) || (0 <? nf) then e ← parse_exponent s3; Some (m, e - nf)
      else None
  | _ => if 0 <? ni then e ← parse_exponent s1; Some (ip, e) else None
  end.

(** The binary64 number nearest to [(-1)^neg * m * 10^e], for [0 <= m]. *)
Definition float_of_decimal (neg : bool) (m e : Z) : float :=
  match m with
  | Zpos p =>
      SF2Prim (SFdiv prec emax
                 (S754_finite neg (p * Z.to_pos (10 ^ Z.max e 0)) 0)
                 (S754_finite false (Z.to_pos (10 ^ Z.max (- e) 0)) 0))
  | _ => if neg then (-0)%float else 0%float
  end.

(** [float(s)] *)
Definition float_of_string (s : string) : result float :=
  let '(neg, body) := parse_sign (float_strip s) in
  let word := lower body in
  if String.eqb word "inf" || String.eqb word "infinity"
  then Ok (if neg then neg_infinity else infinity)
  else if String.eqb word "nan" then Ok nan
  else
    match parse_decimal body with
    | Some (m, e) => Ok (float_of_decimal neg m e)
    | None => Raise ValueError
    end.

(** [num / den] rounded to the nearest integer, ties to even
    ([0 <= num], [0 < den]). *)
Definition round_half_even (num den : Z) : Z :=
  let q := num / den in
  match 2 * (num mod den) ?= den with
  | Lt => q
  | Gt => q + 1
  | Eq => if Z.even q then q else q + 1
  end.

(** [f"{x:.2f}"]: the decimal expansion of the exact value of [x], rounded
    to two places (ties to even). *)
Definition format_2f (x : float) : string :=
  match Prim2SF x with
  | S754_nan => "nan"
  | S754_infinity s => if s then "-inf" else "inf"
  | S754_zero s => if s then "-0.00" else "0.00"
  | S754_finite s m e =>
      let n := if 0 <=? e then Zpos m * 2 ^ e * 100
               else round_half_even (Zpos m * 100) (2 ^ (- e)) in
      (if s then "-" else "") +:+ str_of_int (n / 100) +:+ "." +:+ zfill 2 (n mod 100)
  end.

Global Instance date_le_dec (a b : date) : Decision (date_le a b).
Proof. unfold date_le. apply _. Defined.

End Py.

(** ** The program *)

Module TaskD.
Import Py.

Definition FINNISH_WEEKDAYS : gmap Z string :=
  list_to_map
    [(0, "maanantai"); (1, "tiistai"); (2, "keskiviikko"); (3, "torstai");
     (4, "perjantai"); (5, "lauantai"); (6, "sunnuntai")].

(** Format a float with two decimals and a comma as the decimal separator. *)
Definition to_finnish_number (value : float) : string :=
  replace "." "," (format_2f value).

(** The loop over the formats: a [ValueError] of [strptime] moves on to the
    next format ([strptime] raises nothing else). *)
Fixpoint try_formats (text : string) (fmts : list string) : option datetime :=
  match fmts with
  | [] => None
  | fmt :: fmts' =>
      match strptime text fmt with
      | Ok dt => Some dt
      | Raise _ => try_formats text fmts'
      end
  end.

Definition parse_timestamp (ts : string) : result datetime :=
  let text := replace "T" " " (strip ts) in
  match try_formats text ["%Y-%m-%d %H:%M:%S"; "%Y-%m-%d %H:%M"] with
  | Some dt => Ok dt
  | None => fromisoformat (strip ts)     (* last attempt *)
  end.

(** [except Exception] catches whatever [row[0]] or the parse raises. *)
Definition is_header_row (row : list string) : bool :=
  match getitem row 0 ≫= parse_timestamp with
  | Ok _ => false
  | Raise _ => true
  end.

(** The aggregator, written over the arithmetic it uses: the type [F] of the
    sums, zero, addition, the division by 1000 and the reading of a number.
    The program runs it on binary64 floats ([compute_daily_totals] below). *)
Section Aggregator.
Context {F : Type}.
Variable zero : F.
Variable add : F -> F -> F.
Variable div1000 : F -> F.
Variable number : string -> result F.

Definition kwh_tuple : Type := (F * F * F * F * F * F)%type.

(** [defaultdict(lambda: [0.0] * 6)]: reading a missing key stores the
    default under it and returns it. *)
Definition default_getitem (totals : gmap date (list F)) (k : date)
  : gmap date (list F) * list F :=
  match totals !! k with
  | Some vals => (totals, vals)
  | None => let vals := replicate 6 zero in (<[k := vals]> totals, vals)
  end.

(** [totals_wh[day][i] += c]: the list held for [day] is updated in place. *)
Definition add_to_channel (totals : gmap date (list F)) (day : date) (i : nat) (c : F)
  : result (gmap date (list F)) :=
  let '(totals, vals) := default_getitem totals day in
  v ← getitem vals i;
  Ok (<[day := <[i := add v c]> vals]> totals).

(** [float(s.replace(",", "."))] *)
Definition to_float (s : string) : result F := number (replace "," "." s).

(** One turn of the loop over the rows. *)
Definition add_row (totals : gmap date (list F)) (row : list string)
  : result (gmap date (list F)) :=
  if (length row <? 7)%nat then Ok totals        (* continue *)
  else
    dt ← getitem row 0 ≫= parse_timestamp;
    let day := dt_date dt in
    c1 ← getitem row 1 ≫= to_float;
    c2 ← getitem row 2 ≫= to_float;
    c3 ← getitem row 3 ≫= to_float;
    p1 ← getitem row 4 ≫= to_float;
    p2 ← getitem row 5 ≫= to_float;
    p3 ← getitem row 6 ≫= to_float;
    totals ← add_to_channel totals day 0 c1;
    totals ← add_to_channel totals day 1 c2;
    totals ← add_to_channel totals day 2 c3;
    totals ← add_to_channel totals day 3 p1;
    totals ← add_to_channel totals day 4 p2;
    add_to_channel totals day 5 p3.

Fixpoint add_rows (totals : gmap date (list F)) (rows : list (list string))
  : result (gmap date (list F)) :=
  match rows with
  | [] => Ok totals
  | row :: rows' => totals' ← add_row totals row; add_rows totals' rows'
  end.

(** [(vals[0] / 1000.0, ..., vals[5] / 1000.0)] *)
Definition to_kwh (vals : list F) : result kwh_tuple :=
  v0 ← getitem vals 0; v1 ← getitem vals 1; v2 ← getitem vals 2;
  v3 ← getitem vals 3; v4 ← getitem vals 4; v5 ← getitem vals 5;
  Ok (div1000 v0, div1000 v1, div1000 v2, div1000 v3, div1000 v4, div1000 v5).

(** The loop over [totals_wh.items()] that fills [totals_kwh]. *)
Fixpoint convert_items (items : list (date * list F)) (totals_kwh : gmap date kwh_tuple)
  : result (gmap date kwh_tuple) :=
  match items with
  | [] => Ok totals_kwh
  | (d, vals) :: items' =>
      t ← to_kwh vals; convert_items items' (<[d := t]> totals_kwh)
  end.

Definition compute_daily_totals_with (rows : list (list string))
  : result (gmap date kwh_tuple) :=
  totals_wh ← add_rows ∅ rows;
  convert_items (map_to_list totals_wh) ∅.

(** The other design the specification compares with: every value is
    divided by 1000 as its row is read, and the sums are returned as they
    are. *)
Definition add_row_per_row (totals : gmap date (list F)) (row : list string)
  : result (gmap date (list F)) :=
  if (length row <? 7)%nat then Ok totals
  else
    dt ← getitem row 0 ≫= parse_timestamp;
    let day := dt_date dt in
    c1 ← getitem row 1 ≫= to_float;
    c2 ← getitem row 2 ≫= to_float;
    c3 ← getitem row 3 ≫= to_float;
    p1 ← getitem row 4 ≫= to_float;
    p2 ← getitem row 5 ≫= to_float;
    p3 ← getitem row 6 ≫= to_float;
    totals ← add_to_channel totals day 0 (div1000 c1);
    totals ← add_to_channel totals day 1 (div1000 c2);
    totals ← add_to_channel totals day 2 (div1000 c3);
    totals ← add_to_channel totals day 3 (div1000 p1);
    totals ← add_to_channel totals day 4 (div1000 p2);
    add_to_channel totals day 5 (div1000 p3).

Fixpoint add_rows_per_row (totals : gmap date (list F)) (rows : list (list string))
  : result (gmap date (list F)) :=
  match rows with
  | [] => Ok totals
  | row :: rows' => totals' ← add_row_per_row totals row; add_rows_per_row totals' rows'
  end.

Definition as_tuple (vals : list F) : result kwh_tuple :=
  v0 ← getitem vals 0; v1 ← getitem vals 1; v2 ← getitem vals 2;
  v3 ← getitem vals 3; v4 ← getitem vals 4; v5 ← getitem vals 5;
  Ok (v0, v1, v2, v3, v4, v5).

Fixpoint tuple_items (items : list (date * list F)) (totals_kwh : gmap date kwh_tuple)
  : result (gmap date kwh_tuple) :=
  match items with
  | [] => Ok totals_kwh
  | (d, vals) :: items' =>
      t ← as_tuple vals; tuple_items items' (<[d := t]> totals_kwh)
  end.

Definition per_row_daily_totals_with (rows : list (list string))
  : result (gmap date kwh_tuple) :=
  totals_kwh ← add_rows_per_row ∅ rows;
  tuple_items (map_to_list totals_kwh) ∅.
End Aggregator.

(** The program's arithmetic: binary64. *)
Definition compute_daily_totals (rows : list (list string))
  : result (gmap date (kwh_tuple (F := float))) :=
  compute_daily_totals_with 0%float PrimFloat.add (fun v => (v / 1000)%float)
                            float_of_string rows.

(** [sorted(daily.keys())] *)
Definition sorted_keys {V : Type} (daily : gmap date V) : list date :=
  merge_sort date_le (map_to_list daily).*1.

Definition banner : list string :=
  [ "Week 42 electricity consumption and production (kWh, by phase)";
    "";
    "Day          Date        Consumption [kWh]               Production [kWh]";
    "            (dd.mm.yyyy)  v1      v2      v3             v1     v2     v3";
    "---------------------------------------------------------------------------" ].

(** The line printed for the day [d]. *)
Definition report_line (daily : gmap date (kwh_tuple (F := float))) (d : date)
  : result string :=
  weekday_name ← match FINNISH_WEEKDAYS !! weekday d with
                 | Some n => Ok n
                 | None => Raise KeyError
                 end;
  let date_str := strftime_dmY d in
  '(c1, c2, c3, p1, p2, p3) ← match daily !! d with
                               | Some t => Ok t
                               | None => Raise KeyError
                               end;
  let c1s := to_finnish_number c1 in
  let c2s := to_finnish_number c2 in
  let c3s := to_finnish_number c3 in
  let p1s := to_finnish_number p1 in
  let p2s := to_finnish_number p2 in
  let p3s := to_finnish_number p3 in
  Ok (ljust 12 weekday_name +:+ " " +:+ ljust 10 date_str +:+ "   " +:+
      rjust 6 c1s +:+ "  " +:+ rjust 6 c2s +:+ "  " +:+ rjust 6 c3s +:+ "         " +:+
      rjust 6 p1s +:+ " " +:+ rjust 6 p2s +:+ " " +:+ rjust 6 p3s).

(** The lines written to standard output. *)
Definition print_report (daily : gmap date (kwh_tuple (F := float)))
  : result (list string) :=
  lines ← mapM (report_line daily) (sorted_keys daily);
  Ok (banner ++ lines)%list.

(** Remove header if present. *)
Definition strip_header (rows : list (list string)) : list (list string) :=
  match rows with
  | row :: rows' => if is_header_row row then rows' else rows
  | [] => rows
  end.

(** [main], from the rows that [read_data] returned. *)
Definition main (rows : list (list string)) : result (list string) :=
  let rows := strip_header rows in
  daily_totals ← compute_daily_totals rows;
  print_report daily_totals.

(* goes into TaskD *)
(** [[cell.strip() for cell in row]] *)
Definition strip_cells (row : list string) : list string := strip <$> row.

(** The loop of [read_data] over the rows that [csv.reader] yields: a row
    that is empty or holds only blank cells is passed over, and the cells of
    the other rows are stripped. *)
Fixpoint read_data_rows (reader : list (list string)) : list (list string) :=
  match reader with
  | [] => []
  | row :: reader' =>
      if bool_decide (row = []) || forallb (fun cell => String.eqb (strip cell) "") row
      then read_data_rows reader'                      (* continue *)
      else strip_cells row :: read_data_rows reader'
  end.

End TaskD.

Import Py TaskD.

(** ** Vocabulary of the statements *)

Module Agg.
Section Vocabulary.
Context {F : Type}.
Variable zero : F.
Variable add : F -> F -> F.
Variable div1000 : F -> F.
Variable number : string -> result F.

(** The sums held for a day; the default when the day has no entry yet. *)
Definition bucket (totals : gmap date (list F)) (day : date) : list F :=
  default (replicate 6 zero) (totals !! day).

(** Every list held has its six sums. *)
Definition six_sums (totals : gmap date (list F)) : Prop :=
  map_Forall (fun _ vals => length vals = 6%nat) totals.

(** What a row of at least seven fields holds, when it can be read. *)
Definition read_row (row : list string) : result (date * list F) :=
  dt ← getitem row 0 ≫= parse_timestamp;
  c1 ← getitem row 1 ≫= to_float number;
  c2 ← getitem row 2 ≫= to_float number;
  c3 ← getitem row 3 ≫= to_float number;
  p1 ← getitem row 4 ≫= to_float number;
  p2 ← getitem row 5 ≫= to_float number;
  p3 ← getitem row 6 ≫= to_float number;
  Ok (dt_date dt, [c1; c2; c3; p1; p2; p3]).

(** The totals after the values [cs] were added to the sums of [day]. *)
Definition add_values (totals : gmap date (list F)) (day : date) (cs : list F)
  : gmap date (list F) :=
  <[day := zip_with add (bucket totals day) cs]> totals.

(** The sum of channel [i] held in a list of six. *)
Definition chan (vals : list F) (i : nat) : F := default zero (vals !! i).

(** The tuple of kilowatt-hours made from six sums. *)
Definition kwh_of (vals : list F) : kwh_tuple :=
  (div1000 (chan vals 0), div1000 (chan vals 1), div1000 (chan vals 2),
   div1000 (chan vals 3), div1000 (chan vals 4), div1000 (chan vals 5)).

(** The dates the loop meets: those of the rows of at least seven fields. *)
Definition dates_seen (rows : list (list string)) : list date :=
  omap (fun row =>
          if (length row <? 7)%nat then None
          else match getitem row 0 ≫= parse_timestamp with
               | Ok dt => Some (dt_date dt)
               | Raise _ => None
               end) rows.

(** The values of field [i] in the rows, in the order of the rows. *)
Definition channel_values (i : nat) (rows : list (list string)) : list F :=
  omap (fun row => match getitem row i ≫= to_float number with
                   | Ok v => Some v
                   | Raise _ => None
                   end) rows.

(** Their sum, added up from zero in that order. *)
Definition wh_sum (i : nat) (rows : list (list string)) : F :=
  foldl add zero (channel_values i rows).

(** The six values of each row that can be read, in the order of the rows. *)
Definition row_values (rows : list (list string)) : list (list F) :=
  omap (fun row => match read_row row with
                   | Ok (_, cs) => Some cs
                   | Raise _ => None
                   end) rows.

(** A row read as a record of the day [d]: at least seven fields, a
    timestamp on [d] and six numbers. *)
Definition reads_on (d : date) (row : list string) : Prop :=
  exists cs, read_row row = Ok (d, cs).

(** Component [i] of a tuple, counted from 0. *)
Definition tuple_get (t : kwh_tuple (F := F)) (i : nat) : F :=
  let '(c1, c2, c3, p1, p2, p3) := t in
  match i with
  | 0%nat => c1 | 1%nat => c2 | 2%nat => c3 | 3%nat => p1 | 4%nat => p2 | _ => p3
  end.
End Vocabulary.

(** The loop of the program, on binary64: the dictionary [totals_wh] after
    the rows, one turn of the loop, and the record read from a row. *)
Definition totals_wh (rows : list (list string)) : result (gmap date (list float)) :=
  add_rows 0%float PrimFloat.add float_of_string ∅ rows.

Definition fold_row (totals : gmap date (list float)) (row : list string)
  : result (gmap date (list float)) :=
  add_row 0%float PrimFloat.add float_of_string totals row.

Definition record (row : list string) : result (date * list float) :=
  read_row float_of_string row.

(** The other design, on binary64. *)
Definition per_row_daily_totals (rows : list (list string))
  : result (gmap date (kwh_tuple (F := float))) :=
  per_row_daily_totals_with 0%float PrimFloat.add (fun v => (v / 1000)%float)
                            float_of_string rows.

(** Exact arithmetic: the sums are rational numbers, a field is read as the
    rational it writes in decimal ([inf] and [nan] write none), and the
    division by 1000 is exact. *)
Definition exact_of_string (s : string) : result Qc :=
  let '(neg, body) := parse_sign (float_strip s) in
  match parse_decimal body with
  | Some (m, e) =>
      Ok (Q2Qc ((if neg then - inject_Z m else inject_Z m) * inject_Z 10 ^ e))
  | None => Raise ValueError
  end.

Definition exact_div1000 (v : Qc) : Qc := (v / Q2Qc (inject_Z 1000))%Qc.

Definition compute_daily_totals_exact (rows : list (list string))
  : result (gmap date (kwh_tuple (F := Qc))) :=
  compute_daily_totals_with (Q2Qc 0) Qcplus exact_div1000 exact_of_string rows.

Definition per_row_daily_totals_exact (rows : list (list string))
  : result (gmap date (kwh_tuple (F := Qc))) :=
  per_row_daily_totals_with (Q2Qc 0) Qcplus exact_div1000 exact_of_string rows.

(** Two outcomes that are alike: the same exception, or results related by
    [P]. *)
Definition result_rel {A B : Type} (P : A -> B -> Prop) (r1 : result A) (r2 : result B)
  : Prop :=
  match r1, r2 with
  | Ok a, Ok b => P a b
  | Raise e1, Raise e2 => e1 = e2
  | _, _ => False
  end.

(** [a <= b] and [0.0 <= v] on floats; both are false on NaN. *)
Definition fle (a b : float) : Prop := (a <=? b)%float = true.

Definition nonneg (v : float) : Prop := (0 <=? v)%float = true.

(** No value read from the rows is negative (or NaN). *)
Definition nonneg_rows (rows : list (list string)) : Prop :=
  Forall (fun row => forall d cs, record row = Ok (d, cs) -> Forall nonneg cs) rows.

Fixpoint all_digits (s : string) : bool :=
  match s with
  | String c s' => isdigit c && all_digits s'
  | EmptyString => true
  end.

(** A number written with a decimal comma and exactly two digits after it:
    an optional minus sign, at least one digit, the comma, two digits. *)
Definition two_decimals_comma (s : string) : Prop :=
  exists sign ip d1 d2,
    s = sign +:+ ip +:+ "," +:+ String d1 (String d2 EmptyString) /\
    (sign = "" \/ sign = "-") /\ ip <> "" /\ all_digits ip = true /\
    isdigit d1 = true /\ isdigit d2 = true.

(** A string of the form [YYYY-MM-DD]: four digits, a dash, two digits, a
    dash, two digits and nothing else; and the date its digits spell. *)
Definition is_bare_date (s : string) : bool :=
  match match_seq [isdigit; isdigit; isdigit; isdigit; chr "-";
                   isdigit; isdigit; chr "-"; isdigit; isdigit] s with
  | Some (_, EmptyString) => true
  | _ => false
  end.

Definition bare_date_value (s : string) : date :=
  match parse_isoformat_date s with
  | Some (y, m, d, _) => Date y m d
  | None => Date 0 0 0
  end.

Fixpoint no_space (s : string) : bool :=
  match s with
  | String c s' => negb (isspace c) && no_space s'
  | EmptyString => true
  end.

(** A float that is a number: neither NaN nor an infinity. *)
Definition finite (v : float) : bool :=
  match Prim2SF v with
  | S754_zero _ | S754_finite _ _ _ => true
  | _ => false
  end.

(** Two dictionaries of sums that hold the same dates, with sums related
    by [R] one by one. *)
Definition totals_rel {F1 F2 : Type} (R : F1 -> F2 -> Prop)
    (t1 : gmap date (list F1)) (t2 : gmap date (list F2)) : Prop :=
  forall d, option_Forall2 (Forall2 R) (t1 !! d) (t2 !! d).

(** A number divided by 1000 as it is read. *)
Definition number_div {F : Type} (div1000 : F -> F) (number : string -> result F)
    (s : string) : result F :=
  v ← number s; Ok (div1000 v).

(** The rows of the scenario of week 42, as [read_data] returns them. *)
Definition scenario_rows : list (list string) :=
  [ ["2025-10-13 00:00:00"; "100"; "200"; "300"; "50"; "60"; "70"];
    ["2025-10-13 00:15:00"; "100"; "200"; "300"; "50"; "60"; "70"];
    ["2025-10-14 00:00:00"; "500"; "0"; "0"; "0"; "0"; "0"] ].

(** Binary64 numbers as [SpecFloat] has them: the value of a mantissa at an
    exponent, in units of 2^-1074; a mantissa that has the exponent of the
    format; a result that is a positive number not below a given one, or
    plus infinity. *)
Definition val (m e : Z) : Z := m * 2 ^ (e + 1074).

Definition canonical (m : positive) (e : Z) : Prop :=
  fexp prec emax (Zpos (digits2_pos m) + e) = e.

Definition above (mx : positive) (ex : Z) (r : spec_float) : Prop :=
  match r with
  | S754_finite false mr er => val (Zpos mx) ex <= val (Zpos mr) er
  | S754_infinity false => True
  | _ => False
  end.

(** A line of the report that shows the date [d]: the Finnish name of its
    weekday, padded to twelve columns, a blank, and the date as dd.mm.yyyy,
    padded to ten columns, before the numbers. *)
Definition shows_date (d : date) (line : string) : Prop :=
  exists name rest,
    FINNISH_WEEKDAYS !! weekday d = Some name /\
    line = ljust 12 name +:+ " " +:+ ljust 10 (strftime_dmY d) +:+ rest.

(** The separators U+001C..U+001F: blanks for [str.strip], not for
    [float]. *)
Definition is_info_separator (c : ascii) : bool :=
  let n := Z.of_nat (nat_of_ascii c) in (28 <=? n) && (n <=? 31).

Fixpoint no_info_separator (s : string) : bool :=
  match s with
  | String c s' => negb (is_info_separator c) && no_info_separator s'
  | EmptyString => true
  end.

(** A row that the loop gets past: too short to be read, or read as a
    record. *)
Definition readable (row : list string) : Prop :=
  (length row < 7)%nat \/ is_ok (record row) = true.

Section DayValues.
Context {F : Type}.
Variable zero : F.
Variable number : string -> result F.

(** The six values of each row read as a record of the day [d], in the
    order of the rows. *)
Definition day_values (d : date) (rows : list (list string)) : list (list F) :=
  omap (fun row => match read_row number row with
                   | Ok (d', cs) => if decide (d' = d) then Some cs else None
                   | Raise _ => None
                   end) rows.

(** Of these, the values of channel [i] (counted from 0). *)
Definition day_channel (d : date) (i : nat) (rows : list (list string)) : list F :=
  (fun cs => chan zero cs i) <$> day_values d rows.
End DayValues.

Definition starts_with_digit (s : string) : bool :=
  match s with
  | String c _ => isdigit c
  | EmptyString => false
  end.

(** A timestamp as the data files write it: the date, a separator, hours
    and minutes, and the seconds when there are any. *)
Definition write_timestamp (sep : ascii) (d : date) (h mi : Z) (sec : option Z) : string :=
  zfill 4 (year d) +:+ "-" +:+ zfill 2 (month d) +:+ "-" +:+ zfill 2 (day d) +:+
  String sep (zfill 2 h +:+ ":" +:+ zfill 2 mi +:+
              match sec with
              | Some s => ":" +:+ zfill 2 s
              | None => ""
              end).

Fixpoint count_char (c : ascii) (s : string) : nat :=
  match s with
  | String x s' => ((if Ascii.eqb x c then 1 else 0) + count_char c s')%nat
  | EmptyString => 0%nat
  end.

(** The literal colons a format asks for. *)
Fixpoint count_colons (ds : list directive) : nat :=
  match ds with
  | D_lit c :: ds' => ((if Ascii.eqb c ":" then 1 else 0) + count_colons ds')%nat
  | _ :: ds' => count_colons ds'
  | [] => 0%nat
  end.

(** The first way a format matches a text, if any. *)
Definition first_match (ds : list directive) (f : fields) (s : string)
  : option (fields * string) :=
  head (match_directives ds f s).

(** *** Floats as rational numbers, and the numbers that the fields write *)

(** The number that a float of the format is, in units of 2^-1074 (0 for
    the infinities and NaN). *)
Definition Zval (x : spec_float) : Z :=
  match x with
  | S754_finite s m e => cond_Zopp s (val (Zpos m) e)
  | _ => 0
  end.

(** Zeros and the numbers of the format, as against infinities and NaN. *)
Definition finite_sf (x : spec_float) : bool :=
  match x with
  | S754_zero _ | S754_finite _ _ _ => true
  | _ => false
  end.

(** The rational number that a float is (0 for the infinities and NaN):
    every number of the format is a multiple of 2^-1074. *)
Definition Qval (x : float) : Q :=
  (inject_Z (Zval (Prim2SF x)) / inject_Z (2 ^ 1074))%Q.

(** The smallest positive number of the format. *)
Definition eta : Q := (1 / inject_Z (2 ^ 1074))%Q.

(** The value of a text of digits, read after the digits of value [acc]. *)
Fixpoint digits_value (acc : Z) (s : string) : Z :=
  match s with
  | String c s' => digits_value (10 * acc + digit_val c) s'
  | EmptyString => acc
  end.

(** A text cut at its first comma or point. *)
Fixpoint cut_at_separator (s : string) : string * option string :=
  match s with
  | String c s' =>
      if Ascii.eqb c "," || Ascii.eqb c "." then (EmptyString, Some s')
      else let '(a, b) := cut_at_separator s' in (String c a, b)
  | EmptyString => (EmptyString, None)
  end.

(** A leading minus sign, and what follows it. *)
Definition split_minus (s : string) : bool * string :=
  match s with
  | String c s' => if Ascii.eqb c "-" then (true, s') else (false, s)
  | EmptyString => (false, s)
  end.

(** The number that a plain decimal numeral writes: digits, then possibly a
    comma or a point and digits again, with a minus sign before them when
    the number is negative; [None] for every other text. *)
Definition decimal_value (s : string) : option Q :=
  let '(neg, body) := split_minus s in
  let '(ip, frac) := cut_at_separator body in
  let fp := default "" frac in
  if negb (String.eqb ip "") && all_digits ip &&
     match frac with Some f => negb (String.eqb f "") | None => true end &&
     all_digits fp
  then Some (inject_Z (cond_Zopp neg (digits_value (digits_value 0 ip) fp))
             / inject_Z (10 ^ Z.of_nat (String.length fp)))%Q
  else None.

(** One part in 2^52: the bound used for the relative error of one
    rounding. *)
Definition eps : Q := Eval cbv in (1 # (2 ^ 52))%Q.

(** A float within the error of one rounding of a number. *)
Definition close (x : float) (q : Q) : Prop :=
  finite x = true /\ (Qabs (Qval x - q) <= eps * Qabs q + eta)%Q.

(** The sum of a list of numbers, and the sum of their absolute values. *)
Definition Qsum (qs : list Q) : Q := foldr Qplus 0%Q qs.

Definition Qsum_abs (qs : list Q) : Q := foldr (fun q acc => (Qabs q + acc)%Q) 0%Q qs.

(** The number written in field [i] of a row (0 when there is none). *)
Definition field_value (row : list string) (i : nat) : Q :=
  default 0%Q (row !! i ≫= decimal_value).

(** The exact sum of the numbers in field [i] of the rows, and the sum of
    their absolute values. *)
Definition exact_sum (i : nat) (rows : list (list string)) : Q :=
  Qsum ((fun row => field_value row i) <$> rows).

Definition abs_sum (i : nat) (rows : list (list string)) : Q :=
  Qsum_abs ((fun row => field_value row i) <$> rows).

(** A row whose timestamp parses and falls on the day [d]. *)
Definition timestamp_on (d : date) (row : list string) : Prop :=
  exists ts dt, row !! 0%nat = Some ts /\ parse_timestamp ts = Ok dt /\ dt_date dt = d.

(** The fields of the six channels. *)
Definition channels : list nat := [1; 2; 3; 4; 5; 6]%nat.

(** A row whose six values are plain decimal numerals. *)
Definition plain_row (row : list string) : Prop :=
  Forall (fun i => is_Some (row !! i ≫= decimal_value)) channels.

(** The tolerance of a total of [n] rows whose absolute values add up to
    [M] watt-hours: [(3n + 2) * 2^-52 * M / 1000 + (n + 1) * 2^-1074]. *)
Definition tolerance (n : nat) (M : Q) : Q :=
  (inject_Z (3 * Z.of_nat n + 2) * eps * M / inject_Z 1000
   + inject_Z (Z.of_nat n + 1) * eta)%Q.

End Agg.
Import Agg.

(** * Properties *)

(** ** The exception monad *)

Lemma bind_Ok {A B : Type} (a : A) (k : A -> result B) : (Ok a ≫= k) = k a.
Proof. reflexivity. Qed.

Lemma bind_Raise {A B : Type} (e : exn) (k : A -> result B) :
  (Raise e ≫= k) = Raise e.
Proof. reflexivity. Qed.

Lemma bind_Ok_inv {A B : Type} (r : result A) (k : A -> result B) (b : B) :
  (r ≫= k) = Ok b -> exists a, r = Ok a /\ k a = Ok b.
Proof. destruct r as [a|e]; [eauto | discriminate]. Qed.

Lemma getitem_Some {A : Type} (l : list A) (i : nat) (a : A) :
  l !! i = Some a -> getitem l i = Ok a.
Proof. unfold getitem. by intros ->. Qed.

Lemma getitem_lt {A : Type} (l : list A) (i : nat) :
  (i < length l)%nat -> exists a, l !! i = Some a /\ getitem l i = Ok a.
Proof.
  intros Hi. destruct (lookup_lt_is_Some_2 l i Hi) as [a Ha].
  exists a. split; [done | by apply getitem_Some].
Qed.

(** ** The aggregator's loop *)

Section AggregatorFacts.
Context {F : Type}.
Variable zero : F.
Variable add : F -> F -> F.
Variable div1000 : F -> F.
Variable number : string -> result F.

Abbreviation totals_t := (gmap date (list F)).
Abbreviation add_row := (add_row zero add number).
Abbreviation add_rows := (add_rows zero add number).
Abbreviation add_to_channel := (add_to_channel zero add).
Abbreviation bucket := (bucket zero).
Abbreviation add_values := (add_values zero add).
Abbreviation read_row := (read_row number).
Abbreviation kwh_of := (kwh_of zero div1000).

Lemma six_sums_empty : six_sums (F := F) ∅.
Proof. apply map_Forall_empty. Qed.

Lemma bucket_length totals day : six_sums totals -> length (bucket totals day) = 6%nat.
Proof.
  intros Hw. unfold Agg.bucket. destruct (totals !! day) as [vals|] eqn:E; simpl.
  - by apply (Hw day).
  - done.
Qed.

Lemma six_sums_add_values totals day cs :
  six_sums totals -> length cs = 6%nat -> six_sums (add_values totals day cs).
Proof.
  intros Hw Hcs. apply map_Forall_insert_2; [|done].
  rewrite length_zip_with, bucket_length by done. lia.
Qed.

Lemma add_to_channel_eq totals day i c v :
  bucket totals day !! i = Some v ->
  add_to_channel totals day i c
  = Ok (<[day := <[i := add v c]> (bucket totals day)]> totals).
Proof.
  unfold TaskD.add_to_channel, default_getitem, Agg.bucket.
  destruct (totals !! day) as [vals|] eqn:E; simpl; intros Hv.
  - by rewrite (getitem_Some _ _ _ Hv).
  - rewrite (getitem_Some _ _ _ Hv). simpl. by rewrite insert_insert_eq.
Qed.

Lemma bucket_insert totals day vals : bucket (<[day := vals]> totals) day = vals.
Proof. unfold Agg.bucket. by rewrite lookup_insert_eq. Qed.

(** The six updates of a turn of the loop, together. *)
Lemma add_to_channels totals day c1 c2 c3 p1 p2 p3 :
  length (bucket totals day) = 6%nat ->
  (totals ← add_to_channel totals day 0 c1;
   totals ← add_to_channel totals day 1 c2;
   totals ← add_to_channel totals day 2 c3;
   totals ← add_to_channel totals day 3 p1;
   totals ← add_to_channel totals day 4 p2;
   add_to_channel totals day 5 p3)
  = Ok (add_values totals day [c1; c2; c3; p1; p2; p3]).
Proof.
  intros Hlen. unfold Agg.add_values.
  destruct (bucket totals day) as [|v0 [|v1 [|v2 [|v3 [|v4 [|v5 [|? ?]]]]]]] eqn:E;
    try discriminate.
  rewrite (add_to_channel_eq _ _ 0 _ v0) by (by rewrite E).
  rewrite E, bind_Ok.
  rewrite (add_to_channel_eq _ _ 1 _ v1) by (by rewrite bucket_insert).
  rewrite bind_Ok, bucket_insert, insert_insert_eq.
  rewrite (add_to_channel_eq _ _ 2 _ v2) by (by rewrite bucket_insert).
  rewrite bind_Ok, bucket_insert, insert_insert_eq.
  rewrite (add_to_channel_eq _ _ 3 _ v3) by (by rewrite bucket_insert).
  rewrite bind_Ok, bucket_insert, insert_insert_eq.
  rewrite (add_to_channel_eq _ _ 4 _ v4) by (by rewrite bucket_insert).
  rewrite bind_Ok, bucket_insert, insert_insert_eq.
  rewrite (add_to_channel_eq _ _ 5 _ v5) by (by rewrite bucket_insert).
  by rewrite bucket_insert, insert_insert_eq.
Qed.

(** A turn of the loop: a short row is passed over, any other row is read
    and then added. *)
Lemma add_row_short totals row :
  (length row < 7)%nat -> add_row totals row = Ok totals.
Proof.
  intros Hlen. unfold TaskD.add_row.
  by destruct (Nat.ltb_spec (length row) 7); [|lia].
Qed.

Lemma add_row_long totals row :
  (7 <= length row)%nat -> six_sums totals ->
  add_row totals row
  = '(day, cs) ← read_row row; Ok (add_values totals day cs).
Proof.
  intros Hlen Hw. unfold TaskD.add_row, Agg.read_row.
  destruct (Nat.ltb_spec (length row) 7); [lia|].
  destruct (getitem row 0 ≫= parse_timestamp) as [dt|]; [simpl|done].
  destruct (getitem row 1 ≫= to_float number) as [c1|]; [simpl|done].
  destruct (getitem row 2 ≫= to_float number) as [c2|]; [simpl|done].
  destruct (getitem row 3 ≫= to_float number) as [c3|]; [simpl|done].
  destruct (getitem row 4 ≫= to_float number) as [p1|]; [simpl|done].
  destruct (getitem row 5 ≫= to_float number) as [p2|]; [simpl|done].
  destruct (getitem row 6 ≫= to_float number) as [p3|]; [simpl|done].
  apply add_to_channels. by apply bucket_length.
Qed.

Lemma read_row_length row day cs : read_row row = Ok (day, cs) -> length cs = 6%nat.
Proof.
  unfold Agg.read_row. intros H.
  repeat (apply bind_Ok_inv in H as (? & _ & H)).
  by injection H as _ <-.
Qed.

Lemma add_rows_app totals rows1 rows2 :
  add_rows totals (rows1 ++ rows2)
  = totals' ← add_rows totals rows1; add_rows totals' rows2.
Proof.
  revert totals. induction rows1 as [|row rows1 IH]; intros totals; [done|].
  simpl. destruct (add_row totals row) as [t|e]; simpl; [apply IH | done].
Qed.

Lemma add_row_six_sums totals row totals' :
  six_sums totals -> add_row totals row = Ok totals' -> six_sums totals'.
Proof.
  intros Hw. destruct (Nat.lt_ge_cases (length row) 7) as [Hs|Hl].
  - rewrite add_row_short by done. by intros [= <-].
  - rewrite add_row_long by done.
    destruct (read_row row) as [[day cs]|] eqn:E; [|done].
    intros [= <-]. apply six_sums_add_values; [done|].
    by eapply read_row_length.
Qed.

Lemma add_rows_six_sums totals rows totals' :
  six_sums totals -> add_rows totals rows = Ok totals' -> six_sums totals'.
Proof.
  revert totals. induction rows as [|row rows IH]; intros totals Hw; simpl.
  - by intros [= <-].
  - destruct (add_row totals row) as [t|] eqn:E; [|done].
    simpl. apply IH. by eapply add_row_six_sums.
Qed.

(** The conversion loop: with six sums in every list it cannot fail, and
    it maps [kwh_of] over the dictionary. *)
Lemma to_kwh_six vals :
  length vals = 6%nat -> to_kwh div1000 vals = Ok (kwh_of vals).
Proof.
  destruct vals as [|v0 [|v1 [|v2 [|v3 [|v4 [|v5 [|? ?]]]]]]]; by intros [=].
Qed.

Lemma convert_items_union items acc :
  Forall (fun p => length p.2 = 6%nat) items -> NoDup items.*1 ->
  convert_items div1000 items acc
  = Ok (list_to_map (prod_map id kwh_of <$> items) ∪ acc).
Proof.
  revert acc. induction items as [|[d vals] items IH]; intros acc Hall Hnd.
  - simpl. by rewrite (left_id_L ∅ (∪)).
  - apply Forall_cons in Hall as [Hlen Hall].
    rewrite fmap_cons in Hnd. apply NoDup_cons in Hnd as [Hd Hnd].
    cbn [convert_items]. rewrite to_kwh_six by done.
    rewrite bind_Ok, IH by done.
    f_equal. rewrite fmap_cons. cbn [list_to_map foldr prod_map fst snd id].
    rewrite <- insert_union_l. symmetry. apply insert_union_r.
    apply not_elem_of_list_to_map_1.
    rewrite <- list_fmap_compose.
    replace (fst ∘ prod_map id kwh_of) with (@fst date (list F)); [done|].
    done.
Qed.

Lemma convert_items_fmap (totals : totals_t) :
  six_sums totals ->
  convert_items div1000 (map_to_list totals) ∅ = Ok (kwh_of <$> totals).
Proof.
  intros Hw. rewrite convert_items_union.
  - rewrite (right_id_L ∅ (∪)). f_equal.
    rewrite list_to_map_fmap. by rewrite list_to_map_to_list.
  - apply Forall_forall. intros [d vals] Hin.
    apply (Hw d). by apply elem_of_map_to_list.
  - apply NoDup_fst_map_to_list.
Qed.

(** The aggregator: the loop over the rows, then [kwh_of] on every entry. *)
Lemma compute_daily_totals_with_eq rows :
  compute_daily_totals_with zero add div1000 number rows
  = totals ← add_rows ∅ rows; Ok (kwh_of <$> (totals : totals_t)).
Proof.
  unfold compute_daily_totals_with.
  destruct (add_rows ∅ rows) as [totals|e] eqn:E; [simpl|done].
  apply convert_items_fmap. eapply add_rows_six_sums; [|exact E].
  apply six_sums_empty.
Qed.

(** A row of fewer than seven fields leaves no trace. *)
Lemma add_rows_skip totals rows1 row rows2 :
  (length row < 7)%nat ->
  add_rows totals (rows1 ++ row :: rows2) = add_rows totals (rows1 ++ rows2).
Proof.
  intros Hlen. rewrite !add_rows_app.
  destruct (add_rows totals rows1) as [t|e]; [simpl|done].
  by rewrite add_row_short.
Qed.

(** A row that cannot be read ends the loop with its exception. *)
Lemma add_rows_raise totals rows row e :
  six_sums totals -> row ∈ rows -> (7 <= length row)%nat ->
  read_row row = Raise e ->
  exists e', add_rows totals rows = Raise e'.
Proof.
  revert totals. induction rows as [|r rows IH]; intros totals Hw Hin Hlen Hbad.
  - by apply elem_of_nil in Hin.
  - simpl. destruct (add_row totals r) as [t|e0] eqn:E; [simpl|by eauto].
    apply elem_of_cons in Hin as [->|Hin].
    + rewrite add_row_long, Hbad in E by done. discriminate.
    + eapply IH; eauto using add_row_six_sums.
Qed.

(** Only [ValueError] leaves the loop, when reading a number raises
    nothing else. *)
Lemma read_row_error row e :
  (forall s e', number s = Raise e' -> e' = ValueError) ->
  (forall ts e', parse_timestamp ts = Raise e' -> e' = ValueError) ->
  (7 <= length row)%nat -> read_row row = Raise e -> e = ValueError.
Proof.
  intros Hnum Hts Hlen. unfold Agg.read_row.
  destruct (getitem_lt row 0) as (f0 & _ & ->); [lia|].
  destruct (getitem_lt row 1) as (f1 & _ & ->); [lia|].
  destruct (getitem_lt row 2) as (f2 & _ & ->); [lia|].
  destruct (getitem_lt row 3) as (f3 & _ & ->); [lia|].
  destruct (getitem_lt row 4) as (f4 & _ & ->); [lia|].
  destruct (getitem_lt row 5) as (f5 & _ & ->); [lia|].
  destruct (getitem_lt row 6) as (f6 & _ & ->); [lia|].
  rewrite !bind_Ok. unfold to_float.
  destruct (parse_timestamp f0) eqn:E0; [rewrite bind_Ok|intros [= <-]; eauto].
  destruct (number (replace _ _ f1)) eqn:E1; [rewrite bind_Ok|intros [= <-]; eauto].
  destruct (number (replace _ _ f2)) eqn:E2; [rewrite bind_Ok|intros [= <-]; eauto].
  destruct (number (replace _ _ f3)) eqn:E3; [rewrite bind_Ok|intros [= <-]; eauto].
  destruct (number (replace _ _ f4)) eqn:E4; [rewrite bind_Ok|intros [= <-]; eauto].
  destruct (number (replace _ _ f5)) eqn:E5; [rewrite bind_Ok|intros [= <-]; eauto].
  destruct (number (replace _ _ f6)) eqn:E6; [rewrite bind_Ok|intros [= <-]; eauto].
  discriminate.
Qed.

Lemma add_rows_error totals rows e :
  (forall s e', number s = Raise e' -> e' = ValueError) ->
  (forall ts e', parse_timestamp ts = Raise e' -> e' = ValueError) ->
  six_sums totals -> add_rows totals rows = Raise e -> e = ValueError.
Proof.
  intros Hnum Hts. revert totals.
  induction rows as [|row rows IH]; intros totals Hw; [done|]. simpl.
  destruct (add_row totals row) as [t|e0] eqn:E; simpl.
  - apply IH. by eapply add_row_six_sums.
  - intros [= <-]. destruct (Nat.lt_ge_cases (length row) 7) as [Hs|Hl].
    + by rewrite add_row_short in E.
    + rewrite add_row_long in E by done.
      destruct (read_row row) as [[day cs]|e1] eqn:E1; [done|].
      injection E as <-. by eapply read_row_error.
Qed.

(** What a turn of the loop does to the dictionary. *)
Lemma add_row_step totals row totals' :
  six_sums totals -> add_row totals row = Ok totals' ->
  ((length row < 7)%nat /\ totals' = totals) \/
  ((7 <= length row)%nat /\
   exists day cs, read_row row = Ok (day, cs) /\ totals' = add_values totals day cs).
Proof.
  intros Hw. destruct (Nat.lt_ge_cases (length row) 7) as [Hs|Hl].
  - rewrite add_row_short by done. intros [= <-]. by left.
  - rewrite add_row_long by done.
    destruct (read_row row) as [[day cs]|] eqn:E; [|done].
    intros [= <-]. right. eauto.
Qed.

Lemma read_row_date row day cs :
  read_row row = Ok (day, cs) ->
  exists dt, getitem row 0 ≫= parse_timestamp = Ok dt /\ dt_date dt = day.
Proof.
  unfold Agg.read_row.
  destruct (getitem row 0 ≫= parse_timestamp) as [dt|]; [|done].
  rewrite bind_Ok. intros H. exists dt. split; [done|].
  repeat (apply bind_Ok_inv in H as (? & _ & H)). by injection H.
Qed.

Lemma read_row_long row day cs :
  read_row row = Ok (day, cs) -> (7 <= length row)%nat.
Proof.
  unfold Agg.read_row. intros H.
  do 6 (apply bind_Ok_inv in H as (? & _ & H)).
  apply bind_Ok_inv in H as (? & H & _).
  apply bind_Ok_inv in H as (? & H & _).
  unfold getitem in H. destruct (row !! 6%nat) eqn:E; [|done].
  apply lookup_lt_Some in E. lia.
Qed.

(** One entry for each date met, and no other. *)
Lemma add_rows_dom totals rows totals' :
  six_sums totals -> add_rows totals rows = Ok totals' ->
  dom totals' = dom totals ∪ list_to_set (dates_seen rows).
Proof.
  revert totals. induction rows as [|row rows IH]; intros totals Hw; simpl.
  - intros [= <-]. set_solver.
  - destruct (add_row totals row) as [t|] eqn:E; [|done]. simpl. intros Hrows.
    rewrite (IH t) by eauto using add_row_six_sums.
    destruct (add_row_step _ _ _ Hw E) as [[Hs ->]|(Hl & day & cs & Hr & ->)].
    + destruct (Nat.ltb_spec (length row) 7); [done|lia].
    + destruct (Nat.ltb_spec (length row) 7); [lia|].
      destruct (read_row_date _ _ _ Hr) as (dt & -> & <-).
      unfold Agg.add_values. rewrite dom_insert_L. set_solver.
Qed.

(** *** Rows of one day *)

Lemma add_rows_single_day d row rows totals :
  six_sums totals -> Forall (reads_on number d) (row :: rows) ->
  add_rows totals (row :: rows)
  = Ok (<[d := foldl (zip_with add) (bucket totals d)
                     (row_values number (row :: rows))]> totals).
Proof.
  revert row totals. induction rows as [|row' rows IH]; intros row totals Hw Hall.
  - apply Forall_cons in Hall as [[cs Hr] _]. cbn [TaskD.add_rows].
    rewrite add_row_long, Hr by eauto using read_row_long.
    unfold row_values. cbn [omap list_omap]. by rewrite Hr.
  - apply Forall_cons in Hall as [[cs Hr] Hall].
    change (add_rows totals (row :: row' :: rows))
      with (add_row totals row ≫= fun t => add_rows t (row' :: rows)).
    rewrite add_row_long, Hr by eauto using read_row_long.
    rewrite !bind_Ok.
    rewrite IH by eauto using six_sums_add_values, read_row_length.
    unfold Agg.add_values at 2. rewrite insert_insert_eq.
    unfold Agg.add_values. rewrite bucket_insert.
    unfold row_values at 2. cbn [omap list_omap]. by rewrite Hr.
Qed.

Lemma chan_zip_with acc cs i :
  (i < length acc)%nat -> (i < length cs)%nat ->
  chan zero (zip_with add acc cs) i = add (chan zero acc i) (chan zero cs i).
Proof.
  intros Ha Hc. unfold chan. rewrite lookup_zip_with.
  destruct (lookup_lt_is_Some_2 acc i Ha) as [a ->].
  by destruct (lookup_lt_is_Some_2 cs i Hc) as [c ->].
Qed.

Lemma chan_foldl_zip_with acc vals i n :
  (i < n)%nat -> length acc = n -> Forall (fun cs => length cs = n) vals ->
  chan zero (foldl (zip_with add) acc vals) i
  = foldl add (chan zero acc i) ((fun cs => chan zero cs i) <$> vals).
Proof.
  intros Hi. revert acc. induction vals as [|cs vals IH]; intros acc Ha Hall; [done|].
  apply Forall_cons in Hall as [Hc Hall]. simpl.
  rewrite IH; [|rewrite length_zip_with; lia|done].
  by rewrite chan_zip_with by lia.
Qed.

Lemma read_row_field row d cs i :
  read_row row = Ok (d, cs) -> (i < 6)%nat ->
  getitem row (S i) ≫= to_float number = Ok (chan zero cs i).
Proof.
  unfold Agg.read_row. intros H Hi.
  apply bind_Ok_inv in H as (dt & _ & H).
  apply bind_Ok_inv in H as (c1 & H1 & H).
  apply bind_Ok_inv in H as (c2 & H2 & H).
  apply bind_Ok_inv in H as (c3 & H3 & H).
  apply bind_Ok_inv in H as (p1 & H4 & H).
  apply bind_Ok_inv in H as (p2 & H5 & H).
  apply bind_Ok_inv in H as (p3 & H6 & H).
  injection H as _ <-.
  destruct i as [|[|[|[|[|[|i]]]]]]; [done..|lia].
Qed.

Lemma channel_values_reads_on d rows i :
  Forall (reads_on number d) rows -> (i < 6)%nat ->
  channel_values number (S i) rows
  = (fun cs => chan zero cs i) <$> row_values number rows.
Proof.
  intros Hall Hi. induction Hall as [|row rows [cs Hr] _ IH]; [done|].
  unfold channel_values, row_values in *. cbn [omap list_omap].
  rewrite (read_row_field _ _ _ _ Hr Hi), Hr. cbn. by rewrite IH.
Qed.

Lemma row_values_length rows :
  Forall (fun cs => length cs = 6%nat) (row_values number rows).
Proof.
  induction rows as [|row rows IH]; [constructor|].
  unfold row_values in *. cbn [omap list_omap].
  destruct (read_row row) as [[d cs]|] eqn:E; [|done].
  cbn. constructor; [by eapply read_row_length | done].
Qed.

(** The totals of rows that are all of one day: one entry, which holds for
    each channel the sum of the values read, divided by 1000. *)
Lemma single_day_totals_with d rows :
  rows <> [] -> Forall (reads_on number d) rows ->
  exists t,
    compute_daily_totals_with zero add div1000 number rows = Ok {[ d := t ]} /\
    forall i, (1 <= i <= 6)%nat ->
      tuple_get t (i - 1) = div1000 (wh_sum zero add number i rows).
Proof.
  intros Hne Hall. destruct rows as [|row rows]; [done|].
  rewrite compute_daily_totals_with_eq.
  rewrite (add_rows_single_day d) by (done || apply six_sums_empty).
  rewrite bind_Ok, insert_empty, map_fmap_singleton.
  eexists. split; [done|]. intros i Hi.
  assert (forall j, (j < 6)%nat ->
            chan zero (foldl (zip_with add) (bucket ∅ d)
                             (row_values number (row :: rows))) j
            = wh_sum zero add number (S j) (row :: rows)) as Hch.
  { intros j Hj. rewrite (chan_foldl_zip_with _ _ _ 6);
      [|done|done|apply row_values_length].
    unfold wh_sum. rewrite (channel_values_reads_on d) by done.
    f_equal. unfold chan, Agg.bucket. rewrite lookup_empty. simpl.
    by destruct j as [|[|[|[|[|[|j]]]]]]; [..|lia]. }
  unfold Agg.kwh_of.
  destruct i as [|[|[|[|[|[|[|i]]]]]]]; try lia; cbn [tuple_get Nat.sub];
    by rewrite Hch by lia.
Qed.

End AggregatorFacts.

(** ** The library model on known values *)

Example strptime_examples :
  strptime "2025-10-13 00:15:00" "%Y-%m-%d %H:%M:%S"
  = Ok (DateTime (Date 2025 10 13) 0 15 0 0 None) /\
  strptime "2025-1-3   7:5:9" "%Y-%m-%d %H:%M:%S"
  = Ok (DateTime (Date 2025 1 3) 7 5 9 0 None) /\
  strptime "2025-10-13 00:15" "%Y-%m-%d %H:%M:%S" = Raise ValueError /\
  strptime "2025-10-13 00:157" "%Y-%m-%d %H:%M" = Raise ValueError /\
  strptime "2025-02-29 00:15" "%Y-%m-%d %H:%M" = Raise ValueError /\
  strptime "2025-10-13 23:59:60" "%Y-%m-%d %H:%M:%S" = Raise ValueError.
Proof. repeat split; reflexivity. Qed.

Example fromisoformat_examples :
  fromisoformat "2025-10-13" = Ok (DateTime (Date 2025 10 13) 0 0 0 0 None) /\
  fromisoformat "2025-10-13T10:11:12.123+02:00"
  = Ok (DateTime (Date 2025 10 13) 10 11 12 123000 (Some 7200000000)) /\
  fromisoformat "2025-10-13 10" = Ok (DateTime (Date 2025 10 13) 10 0 0 0 None) /\
  fromisoformat "13.10.2025" = Raise ValueError.
Proof. repeat split; reflexivity. Qed.

Example weekday_examples :
  toordinal (Date 1 1 1) = 1 /\ toordinal (Date 2025 10 13) = 739537 /\
  weekday (Date 2025 10 13) = 0 /\ weekday (Date 2024 2 29) = 3 /\
  strftime_dmY (Date 2025 1 3) = "03.01.2025" /\
  strftime_dmY (Date 999 12 31) = "31.12.999".
Proof. repeat split; reflexivity. Qed.

Example float_of_string_examples :
  float_of_string "100" = Ok 100%float /\
  float_of_string "0.1" = Ok 0.1%float /\
  float_of_string " 1_000.5 " = Ok 1000.5%float /\
  float_of_string "1e23" = Ok 1e23%float /\
  float_of_string "2.2250738585072012e-308" = Ok 2.2250738585072014e-308%float /\
  float_of_string "9007199254740993" = Ok 9007199254740992%float /\
  float_of_string "5e-324" = Ok 5e-324%float /\
  float_of_string "1e999" = Ok infinity /\
  float_of_string "-Infinity" = Ok neg_infinity /\
  float_of_string "-0" = Ok (-0)%float /\
  float_of_string "1e" = Raise ValueError /\
  float_of_string "1__0" = Raise ValueError /\
  float_of_string "12,5" = Raise ValueError /\
  float_of_string "" = Raise ValueError.
Proof. repeat split; vm_compute; reflexivity. Qed.

Example format_2f_examples :
  format_2f 12.3 = "12.30" /\ format_2f 0.125 = "0.12" /\ format_2f 0.375 = "0.38" /\
  format_2f 2.675 = "2.67" /\ format_2f 1234.5678 = "1234.57" /\
  format_2f (-0.001) = "-0.00" /\ format_2f 1e21 = "1000000000000000000000.00" /\
  format_2f neg_infinity = "-inf".
Proof. repeat split; vm_compute; reflexivity. Qed.

(** ** The parsers raise [ValueError] only *)

Lemma mk_datetime_error y m d h mi sec us tz e :
  mk_datetime y m d h mi sec us tz = Raise e -> e = ValueError.
Proof. unfold mk_datetime. by case (_ && _); intros [=]. Qed.

Lemma strptime_error text fmt e : strptime text fmt = Raise e -> e = ValueError.
Proof.
  unfold strptime. destruct (match_directives _ _ _) as [|[f rest] ?]; [by intros [=]|].
  destruct rest; [apply mk_datetime_error | by intros [=]].
Qed.

Lemma fromisoformat_error s e : fromisoformat s = Raise e -> e = ValueError.
Proof.
  unfold fromisoformat.
  destruct (parse_isoformat_date s) as [[[[y m] d] rest]|]; [|by intros [=]].
  destruct rest as [|c tstr]; [apply mk_datetime_error|].
  destruct (parse_isoformat_time tstr) as [[[[[h mi] sec] us] tz]|];
    [apply mk_datetime_error | by intros [=]].
Qed.

Lemma parse_timestamp_error ts e : parse_timestamp ts = Raise e -> e = ValueError.
Proof.
  unfold parse_timestamp. destruct (try_formats _ _); [done|].
  apply fromisoformat_error.
Qed.

Lemma float_of_string_error s e : float_of_string s = Raise e -> e = ValueError.
Proof.
  unfold float_of_string. destruct (parse_sign (float_strip s)) as [neg body].
  case (_ || _); [done|]. case (String.eqb _ _); [done|].
  destruct (parse_decimal body) as [[m e10]|]; [done | by intros [=]].
Qed.

(** ** Binary64 addition of numbers that are not negative

    [SpecFloat] gives the sum as the exact sum rounded to the format.  The
    lemmas follow the rounding ([binary_round_aux]: cut, round to nearest
    even, cut again) and show that it stays at or above a number of the
    format that the exact sum is not below. *)

Lemma pow2_pos k : 0 <= k -> 0 < 2 ^ k.
Proof. intros. by apply Z.pow_pos_nonneg. Qed.

Lemma digits2_pos_bounds (m : positive) :
  2 ^ (Zpos (digits2_pos m) - 1) <= Zpos m < 2 ^ Zpos (digits2_pos m).
Proof.
  induction m as [m IH|m IH|]; cbn [digits2_pos].
  - rewrite Pos2Z.inj_succ. replace (Z.succ (Zpos (digits2_pos m)) - 1) with (Z.succ (Zpos (digits2_pos m) - 1)) by lia.
    rewrite !Z.pow_succ_r by lia. lia.
  - rewrite Pos2Z.inj_succ. replace (Z.succ (Zpos (digits2_pos m)) - 1) with (Z.succ (Zpos (digits2_pos m) - 1)) by lia.
    rewrite !Z.pow_succ_r by lia. lia.
  - simpl. lia.
Qed.

Lemma fexp_eq e : fexp prec emax e = Z.max (e - 53) (-1074).
Proof. reflexivity. Qed.

Lemma valid_canonical s m e :
  valid_binary (S754_finite s m e) = true -> canonical m e.
Proof.
  unfold SpecFloat.valid_binary, bounded, canonical_mantissa, canonical.
  intros H. apply andb_prop in H as [H _]. by apply Z.eqb_eq.
Qed.

Lemma pow2_split a b : 0 <= a -> 0 <= b -> 2 ^ (a + b) = 2 ^ a * 2 ^ b.
Proof. intros. by apply Z.pow_add_r. Qed.

Lemma leb_canonical mx ex mr er :
  canonical mx ex -> canonical mr er ->
  val (Zpos mx) ex <= val (Zpos mr) er ->
  SFleb (S754_finite false mx ex) (S754_finite false mr er) = true.
Proof.
  unfold canonical, val. rewrite !fexp_eq. intros Cx Cr Hv.
  unfold SFleb, SFcompare.
  destruct (Z.compare_spec ex er) as [->|Hlt|Hgt]; [|done|].
  - assert (Zpos mx <= Zpos mr) as Hle.
    { apply Z.mul_le_mono_pos_r in Hv; [done|]. apply pow2_pos. lia. }
    rewrite Pos.compare_cont_spec. simpl.
    destruct (Pos.compare_spec mx mr); [done|done|lia].
  - exfalso.
    pose proof (digits2_pos_bounds mx) as Bx.
    pose proof (digits2_pos_bounds mr) as Br.
    assert (Zpos (digits2_pos mx) = 53) as Dx by lia.
    assert (Zpos (digits2_pos mr) <= 53) as Dr by lia.
    rewrite Dx in Bx.
    assert (Zpos mr < 2 ^ 53) as Hr.
    { eapply Z.lt_le_trans; [apply Br|]. apply Z.pow_le_mono_r; lia. }
    assert (2 ^ (ex + 1074) = 2 ^ (ex - er - 1) * (2 * 2 ^ (er + 1074))) as E.
    { rewrite <- Z.pow_succ_r by lia. rewrite <- pow2_split by lia. f_equal. lia. }
    assert (1 <= 2 ^ (ex - er - 1)) as P1.
    { pose proof (pow2_pos (ex - er - 1)). lia. }
    assert (0 < 2 ^ (er + 1074)) as P2 by (apply pow2_pos; lia).
    rewrite E in Hv.
    change (53 - 1) with 52 in Bx.
    assert (2 ^ 53 = 2 * 2 ^ 52) as E53 by reflexivity.
    nia.
Qed.

(** Shifting right drops the low bits of the mantissa. *)
Lemma shr_1_m mrs : 0 <= shr_m mrs -> shr_m (shr_1 mrs) = shr_m mrs / 2.
Proof.
  destruct mrs as [m r s]. cbn [shr_m shr_1]. intros Hm.
  destruct m as [|[p|p|]|p]; cbn [shr_m]; [reflexivity| | |reflexivity|lia].
  - apply Z.div_unique with 1; lia.
  - apply Z.div_unique with 0; lia.
Qed.

Lemma shr_1_nonneg mrs : 0 <= shr_m mrs -> 0 <= shr_m (shr_1 mrs).
Proof. intros H. rewrite shr_1_m by done. apply Z.div_pos; lia. Qed.

Lemma iter_shr_1 p mrs :
  0 <= shr_m mrs ->
  shr_m (SpecFloat.iter_pos shr_1 p mrs) = shr_m mrs / 2 ^ Zpos p.
Proof.
  revert mrs. induction p as [p IH|p IH|]; intros mrs Hm; cbn [SpecFloat.iter_pos].
  - assert (0 <= shr_m (shr_1 mrs)) as H1 by by apply shr_1_nonneg.
    assert (0 <= shr_m (SpecFloat.iter_pos shr_1 p (shr_1 mrs))) as H2.
    { rewrite IH by done. apply Z.div_pos; [done|]. by apply pow2_pos. }
    rewrite IH, IH, shr_1_m by done.
    rewrite !Z.div_div by (try apply pow2_pos; lia).
    f_equal. replace (Z.pos p~1) with (1 + Zpos p + Zpos p) by lia.
    rewrite !pow2_split by lia. change (2 ^ 1) with 2. lia.
  - assert (0 <= shr_m (SpecFloat.iter_pos shr_1 p mrs)) as H2.
    { rewrite IH by done. apply Z.div_pos; [done|]. by apply pow2_pos. }
    rewrite IH, IH by done.
    rewrite !Z.div_div by (try apply pow2_pos; lia).
    f_equal. replace (Z.pos p~0) with (Zpos p + Zpos p) by lia.
    by rewrite !pow2_split by lia.
  - rewrite shr_1_m by done. by change (2 ^ 1) with 2.
Qed.

(** [shr_fexp] of an exact mantissa: the mantissa cut at the exponent of
    the format. *)
Lemma shr_fexp_exact m e mrs e' :
  0 <= m ->
  shr_fexp prec emax m e loc_Exact = (mrs, e') ->
  let k := fexp prec emax (Zdigits2 m + e) - e in
  (k <= 0 /\ shr_m mrs = m /\ e' = e) \/
  (0 < k /\ shr_m mrs = m / 2 ^ k /\ e' = e + k).
Proof.
  intros Hm. unfold shr_fexp, shr. cbn [shr_record_of_loc].
  destruct (fexp prec emax (Zdigits2 m + e) - e) as [|p|p] eqn:Ek;
    intros [= <- <-]; cbn zeta.
  - left. cbn [shr_m]. lia.
  - right. rewrite iter_shr_1 by done. cbn [shr_m]. lia.
  - left. cbn [shr_m]. lia.
Qed.

(** Cutting a value that is not below a number of the format does not go
    below that number. *)
Lemma cut_ge mx ex m e k :
  canonical mx ex -> -1074 <= e ->
  val (Zpos mx) ex <= val (Zpos m) e ->
  k = fexp prec emax (Zpos (digits2_pos m) + e) - e ->
  0 < k -> val (Zpos mx) ex <= val (Zpos m / 2 ^ k) (e + k).
Proof.
  unfold canonical, val. rewrite !fexp_eq. intros Cx He Hv Hkdef Hk.
  pose proof (digits2_pos_bounds mx) as Bx.
  pose proof (digits2_pos_bounds m) as Bm.
  assert (0 < 2 ^ k) as Pk by (apply pow2_pos; lia).
  assert (0 < 2 ^ (e + 1074)) as Pe by (apply pow2_pos; lia).
  assert (2 ^ (e + k + 1074) = 2 ^ k * 2 ^ (e + 1074)) as Ek.
  { rewrite <- pow2_split by lia. f_equal. lia. }
  destruct (Z_le_gt_dec (e + k) ex) as [Hle|Hgt].
  - (* the number is a multiple of the new unit *)
    assert (2 ^ (ex + 1074) = 2 ^ (ex - (e + k)) * (2 ^ k * 2 ^ (e + 1074))) as Ex.
    { rewrite <- !pow2_split by lia. f_equal. lia. }
    rewrite Ex in Hv |- *. rewrite Ek.
    assert (0 <= 2 ^ (ex - (e + k))) as P3 by (apply Z.lt_le_incl, pow2_pos; lia).
    assert (Zpos mx * 2 ^ (ex - (e + k)) <= Zpos m / 2 ^ k) as Hq.
    { apply Z.div_le_lower_bound; [done|]. nia. }
    nia.
  - (* the value lies in a higher binade *)
    assert (k = Zpos (digits2_pos m) - 53) as Hk' by lia.
    assert (Zpos (digits2_pos mx) <= 53) as Dx by lia.
    assert (2 ^ 52 <= Zpos m / 2 ^ k) as Hq.
    { apply Z.div_le_lower_bound; [done|].
      rewrite Z.mul_comm, <- pow2_split by lia.
      replace (52 + k) with (Zpos (digits2_pos m) - 1) by lia. apply Bm. }
    assert (Zpos mx < 2 ^ 53) as Hx.
    { eapply Z.lt_le_trans; [apply Bx|]. apply Z.pow_le_mono_r; lia. }
    assert (2 ^ (e + k + 1074) = 2 ^ (e + k - ex - 1) * (2 * 2 ^ (ex + 1074))) as E2.
    { rewrite <- Z.pow_succ_r by lia. rewrite <- pow2_split by lia. f_equal. lia. }
    assert (1 <= 2 ^ (e + k - ex - 1)) as P1.
    { pose proof (pow2_pos (e + k - ex - 1)). lia. }
    assert (0 < 2 ^ (ex + 1074)) as P2 by (apply pow2_pos; lia).
    rewrite E2.
    assert (2 ^ 53 = 2 * 2 ^ 52) as E53 by reflexivity.
    nia.
Qed.

Lemma val_mono m m' e : m <= m' -> val m e <= val m' e.
Proof.
  intros H. unfold val. apply Z.mul_le_mono_nonneg_r; [|done].
  apply Z.pow_nonneg. lia.
Qed.

Lemma val_pos_inv m mx ex e :
  -1074 <= ex -> val (Zpos mx) ex <= val m e -> exists p, m = Zpos p.
Proof.
  unfold val. intros He Hv.
  assert (0 < 2 ^ (ex + 1074)) by (apply pow2_pos; lia).
  assert (0 <= 2 ^ (e + 1074)) by (apply Z.pow_nonneg; lia).
  destruct m as [|p|p]; [nia|eauto|nia].
Qed.

Lemma canonical_emin m e : canonical m e -> -1074 <= e.
Proof. unfold canonical. rewrite fexp_eq. lia. Qed.

Lemma round_nearest_even_ge m l : m <= round_nearest_even m l.
Proof. destruct l as [|[]]; simpl; try lia. destruct (Z.even m); lia. Qed.

(** One cut of [binary_round_aux]. *)
Lemma shr_fexp_ge mx ex m e mrs e' :
  canonical mx ex -> -1074 <= e ->
  val (Zpos mx) ex <= val (Zpos m) e ->
  shr_fexp prec emax (Zpos m) e loc_Exact = (mrs, e') ->
  val (Zpos mx) ex <= val (shr_m mrs) e' /\ -1074 <= e'.
Proof.
  intros Cx He Hv Hs. apply shr_fexp_exact in Hs; [|lia].
  cbn [Zdigits2] in Hs.
  destruct Hs as [(Hk & -> & ->)|(Hk & -> & ->)]; [done|].
  split; [|lia]. by apply cut_ge.
Qed.

Lemma binary_round_aux_ge mx ex m e :
  canonical mx ex -> -1074 <= e ->
  val (Zpos mx) ex <= val (Zpos m) e ->
  above mx ex (binary_round_aux prec emax false (Zpos m) e loc_Exact).
Proof.
  intros Cx He Hv. unfold binary_round_aux.
  pose proof (canonical_emin _ _ Cx) as Hex.
  destruct (shr_fexp prec emax (Zpos m) e loc_Exact) as [mrs' e'] eqn:E1.
  destruct (shr_fexp_ge _ _ _ _ _ _ Cx He Hv E1) as [H1 He'].
  pose proof (round_nearest_even_ge (shr_m mrs') (loc_of_shr_record mrs')) as Hr.
  assert (val (Zpos mx) ex
          <= val (round_nearest_even (shr_m mrs') (loc_of_shr_record mrs')) e') as H2.
  { etrans; [exact H1|]. by apply val_mono. }
  destruct (val_pos_inv _ _ _ _ Hex H2) as [p2 Ep2]. rewrite Ep2 in *.
  destruct (shr_fexp prec emax (Zpos p2) e' loc_Exact) as [mrs'' e''] eqn:E2.
  destruct (shr_fexp_ge _ _ _ _ _ _ Cx He' H2 E2) as [H3 He''].
  destruct (val_pos_inv _ _ _ _ Hex H3) as [p3 Ep3]. rewrite Ep3 in *.
  by destruct (e'' <=? emax - prec).
Qed.

Lemma iter_xO m d : Zpos (Pos.iter xO m d) = Zpos m * 2 ^ Zpos d.
Proof.
  induction d as [|d IH] using Pos.peano_ind.
  - simpl. lia.
  - rewrite Pos.iter_succ, Pos2Z.inj_xO, IH, Pos2Z.inj_succ, Z.pow_succ_r by lia. lia.
Qed.

Lemma shl_align_val m e e' mz ez :
  -1074 <= e -> -1074 <= e' ->
  shl_align m e e' = (mz, ez) ->
  val (Zpos mz) ez = val (Zpos m) e /\ -1074 <= ez /\ (e' <= e -> ez = e').
Proof.
  intros He He'. unfold shl_align.
  destruct (e' - e) as [|d|d] eqn:Ed; intros [= <- <-].
  - split; [done|]. lia.
  - split; [done|]. lia.
  - split; [|lia]. unfold val. rewrite iter_xO.
    replace (e + 1074) with (Zpos d + (e' + 1074)) by lia.
    rewrite (pow2_split (Zpos d) (e' + 1074)) by lia. ring.
Qed.

Lemma binary_round_ge mx ex m e :
  canonical mx ex -> -1074 <= e ->
  val (Zpos mx) ex <= val (Zpos m) e ->
  above mx ex (binary_round prec emax false m e).
Proof.
  intros Cx He Hv. unfold binary_round.
  destruct (shl_align m e _) as [mz ez] eqn:E.
  apply shl_align_val in E as (Ev & Hez & _); [|done|rewrite fexp_eq; lia].
  apply binary_round_aux_ge; [done..|]. by rewrite Ev.
Qed.

(** The sum of two positive numbers of the format is not below the first. *)
Lemma SFadd_finite_ge mx ex my ey :
  canonical mx ex -> canonical my ey ->
  above mx ex (SFadd prec emax (S754_finite false mx ex) (S754_finite false my ey)).
Proof.
  intros Cx Cy. cbn [SFadd cond_Zopp].
  pose proof (canonical_emin _ _ Cx) as Hex.
  pose proof (canonical_emin _ _ Cy) as Hey.
  destruct (shl_align mx ex (Z.min ex ey)) as [ax ez1] eqn:E1.
  destruct (shl_align my ey (Z.min ex ey)) as [ay ez2] eqn:E2.
  apply shl_align_val in E1 as (V1 & _ & Z1); [|lia..].
  apply shl_align_val in E2 as (V2 & _ & Z2); [|lia..].
  rewrite Z1 in V1 by lia. rewrite Z2 in V2 by lia.
  cbn [fst]. change (Zpos ax + Zpos ay) with (Zpos (ax + ay)).
  cbn [binary_normalize].
  apply binary_round_ge; [done|lia|].
  rewrite <- V1. apply val_mono. lia.
Qed.

Lemma SFleb_refl_finite m e :
  SFleb (S754_finite false m e) (S754_finite false m e) = true.
Proof.
  unfold SFleb, SFcompare. rewrite Z.compare_refl, Pos.compare_cont_refl. done.
Qed.

(** Adding a number that is not negative to one that is not negative does
    not lower it, in binary64. *)
Lemma SFadd_nonneg_le (X Y : spec_float) :
  valid_binary X = true -> valid_binary Y = true ->
  valid_binary (SFadd prec emax X Y) = true ->
  SFleb (S754_zero false) X = true -> SFleb (S754_zero false) Y = true ->
  SFleb X (SFadd prec emax X Y) = true /\
  SFleb (S754_zero false) (SFadd prec emax X Y) = true.
Proof.
  intros VX VY VR HX HY.
  destruct X as [sx|[]| |[] mx ex]; try discriminate;
    destruct Y as [sy|[]| |[] my ey]; try discriminate;
    try (split; reflexivity);
    try (destruct sx; split; reflexivity);
    try (destruct sy; split; reflexivity);
    try (destruct sx, sy; split; reflexivity).
  - cbn [SFadd]. split; [apply SFleb_refl_finite | reflexivity].
  - pose proof (SFadd_finite_ge mx ex my ey (valid_canonical _ _ _ VX)
                  (valid_canonical _ _ _ VY)) as Hab.
    destruct (SFadd prec emax _ _) as [|[]| |[] mr er]; try done.
    split; [|reflexivity].
    apply leb_canonical; eauto using valid_canonical.
Qed.

Lemma float_add_nonneg_le (x y : float) :
  (0 <=? x)%float = true -> (0 <=? y)%float = true ->
  (x <=? x + y)%float = true /\ (0 <=? x + y)%float = true.
Proof.
  rewrite !leb_spec, add_spec. change (Prim2SF 0) with (S754_zero false).
  intros HX HY. apply SFadd_nonneg_le; try done; try apply Prim2SF_valid.
  rewrite <- add_spec. apply Prim2SF_valid.
Qed.

Lemma fle_refl (x : float) : nonneg x -> fle x x.
Proof.
  unfold nonneg, fle. rewrite !leb_spec. change (Prim2SF 0) with (S754_zero false).
  destruct (Prim2SF x) as [sx|[]| |[] mx ex]; try done.
  intros _. apply SFleb_refl_finite.
Qed.

(** ** Rows of fewer than seven fields *)

(** C6. A row of fewer than seven fields is passed over: the run with the
    row gives what the run without it gives, the same totals for every date
    or the same exception, whatever the row holds. *)
Theorem short_row_skipped (rows1 : list (list string)) (row : list string)
    (rows2 : list (list string)) :
  (length row < 7)%nat ->
  compute_daily_totals (rows1 ++ row :: rows2) = compute_daily_totals (rows1 ++ rows2).
Proof.
  intros Hlen. unfold compute_daily_totals, compute_daily_totals_with.
  by rewrite add_rows_skip.
Qed.

Lemma short_row_skipped_witness :
  (length ["kello 12"; "1,5"; "abc"] < 7)%nat /\
  compute_daily_totals
    ([["2025-10-13 00:00:00"; "100"; "200"; "300"; "50"; "60"; "70"]]
       ++ ["kello 12"; "1,5"; "abc"] :: [])
  = compute_daily_totals
      ([["2025-10-13 00:00:00"; "100"; "200"; "300"; "50"; "60"; "70"]] ++ []).
Proof.
  split; [simpl; lia | apply short_row_skipped; simpl; lia].
Defined.

(** ** Timestamps that cannot be parsed *)

(** A row of one field that is no timestamp is given to the aggregator, and
    the run ends well, with no totals: the length of the row is looked at
    before its timestamp. *)
Lemma short_row_bad_timestamp_survives :
  parse_timestamp "kello" = Raise ValueError /\
  compute_daily_totals [["kello"]] = Ok ∅.
Proof. split; reflexivity. Qed.

(** A row of at least seven fields whose first field is no timestamp ends
    the loop over the rows, and the exception is a [ValueError]. *)
Lemma unparseable_timestamp_raises (rows : list (list string)) (row : list string)
    (ts : string) :
  row ∈ rows -> (7 <= length row)%nat -> row !! 0%nat = Some ts ->
  is_ok (parse_timestamp ts) = false ->
  totals_wh rows = Raise ValueError.
Proof.
  intros Hin Hlen Hts Hbad. unfold totals_wh.
  assert (exists e, read_row float_of_string row = Raise e) as [e He].
  { unfold read_row. rewrite (getitem_Some _ _ _ Hts), bind_Ok.
    destruct (parse_timestamp ts); [discriminate | eauto]. }
  destruct (add_rows_raise 0%float PrimFloat.add float_of_string ∅ rows row e)
    as [e' He']; [apply six_sums_empty|done..|].
  rewrite He'. f_equal.
  eapply add_rows_error; [apply float_of_string_error|apply parse_timestamp_error| |exact He'].
  apply six_sums_empty.
Qed.

(** C3, amended. A row of at least seven fields whose first field is no
    timestamp ends the aggregation with [ValueError], wherever it stands
    among the rows: no totals are returned. *)
Theorem bad_timestamp_aborts (rows : list (list string)) (row : list string)
    (ts : string) :
  row ∈ rows -> (7 <= length row)%nat -> row !! 0%nat = Some ts ->
  is_ok (parse_timestamp ts) = false ->
  compute_daily_totals rows = Raise ValueError.
Proof.
  intros Hin Hlen Hts Hbad.
  pose proof (unparseable_timestamp_raises rows row ts Hin Hlen Hts Hbad) as Hloop.
  unfold compute_daily_totals, compute_daily_totals_with.
  unfold totals_wh in Hloop. by rewrite Hloop.
Qed.

Lemma bad_timestamp_aborts_witness :
  compute_daily_totals
    [["2025-10-13 00:00:00"; "100"; "200"; "300"; "50"; "60"; "70"];
     ["13.10.2025 00:15"; "100"; "200"; "300"; "50"; "60"; "70"]]
  = Raise ValueError.
Proof.
  apply (bad_timestamp_aborts _
           ["13.10.2025 00:15"; "100"; "200"; "300"; "50"; "60"; "70"]
           "13.10.2025 00:15").
  - apply list_elem_of_further, list_elem_of_here.
  - simpl; lia.
  - reflexivity.
  - reflexivity.
Defined.

(** The exception reaches the top of [main]: nothing is printed. *)
Corollary unparseable_timestamp_aborts_main (rows : list (list string)) (row : list string)
    (ts : string) :
  row ∈ strip_header rows -> (7 <= length row)%nat -> row !! 0%nat = Some ts ->
  is_ok (parse_timestamp ts) = false ->
  main rows = Raise ValueError.
Proof.
  intros Hin Hlen Hts Hbad. unfold main.
  pose proof (unparseable_timestamp_raises _ row ts Hin Hlen Hts Hbad) as Hloop.
  unfold compute_daily_totals, compute_daily_totals_with.
  unfold totals_wh in Hloop. by rewrite Hloop.
Qed.

(** ** The header row *)

(** C5. The first row is taken for a header exactly when its first field
    cannot be read as a timestamp, whatever the reason; as a header it is kept
    out of the aggregation, and otherwise it is aggregated with the rest. *)
Theorem first_row_header_iff (row : list string) (rows : list (list string)) :
  (is_header_row row = true <-> is_ok (getitem row 0 ≫= parse_timestamp) = false) /\
  (is_ok (getitem row 0 ≫= parse_timestamp) = false ->
     strip_header (row :: rows) = rows /\
     main (row :: rows) = compute_daily_totals rows ≫= print_report) /\
  (is_ok (getitem row 0 ≫= parse_timestamp) = true ->
     strip_header (row :: rows) = row :: rows /\
     main (row :: rows) = compute_daily_totals (row :: rows) ≫= print_report).
Proof.
  unfold main, strip_header, is_header_row.
  destruct (getitem row 0 ≫= parse_timestamp) as [dt|e]; simpl.
  - split; [split; discriminate|]. split; [discriminate | done].
  - split; [done|]. split; [done | discriminate].
Qed.

(** ** The dictionary during the aggregation *)

Lemma nonneg_zero : nonneg 0%float.
Proof. reflexivity. Qed.

Lemma zip_with_add_nonneg (old cs : list float) :
  Forall nonneg old -> Forall nonneg cs ->
  Forall nonneg (zip_with PrimFloat.add old cs).
Proof.
  intros Ho. revert cs. induction Ho as [|a old Ha _ IH]; intros cs Hc; [constructor|].
  destruct Hc as [|c cs Hc Hcs]; [constructor|]. simpl. constructor; [|by apply IH].
  by apply float_add_nonneg_le.
Qed.

Lemma zip_with_add_fle (old cs : list float) :
  Forall nonneg old -> Forall nonneg cs -> length old = length cs ->
  Forall2 fle old (zip_with PrimFloat.add old cs).
Proof.
  intros Ho. revert cs. induction Ho as [|a old Ha _ IH]; intros cs Hc Hlen.
  - constructor.
  - destruct Hc as [|c cs Hc Hcs]; [done|]. simpl. constructor.
    + by apply float_add_nonneg_le.
    + apply IH; [done|]. by injection Hlen.
Qed.

Lemma Forall2_fle_refl (vals : list float) : Forall nonneg vals -> Forall2 fle vals vals.
Proof. induction 1; constructor; [by apply fle_refl | done]. Qed.

(** While no value read is negative, no sum held is. *)
Lemma totals_nonneg (rows : list (list string)) (totals0 totals : gmap date (list float)) :
  nonneg_rows rows -> six_sums totals0 ->
  map_Forall (fun _ vals => Forall nonneg vals) totals0 ->
  add_rows 0%float PrimFloat.add float_of_string totals0 rows = Ok totals ->
  map_Forall (fun _ vals => Forall nonneg vals) totals.
Proof.
  revert totals0. induction rows as [|row rows IH]; intros totals0 Hnn Hw H0; simpl.
  - by intros [= <-].
  - apply Forall_cons in Hnn as [Hrow Hnn].
    destruct (add_row _ _ _ totals0 row) as [t|] eqn:E; [|done]. simpl.
    apply IH; [done|by eapply add_row_six_sums|].
    destruct (add_row_step _ _ _ _ _ _ Hw E) as [[_ ->]|(_ & day & cs & Hr & ->)]; [done|].
    apply map_Forall_insert_2; [|done].
    apply zip_with_add_nonneg; [|by eapply Hrow].
    unfold bucket. destruct (totals0 !! day) as [vals|] eqn:Ed; simpl.
    + by apply (H0 day).
    + repeat constructor.
Qed.

(** Two records of one day, the second with a negative value: the sum of the
    first channel goes from 5.0 down to 2.0. *)
Lemma negative_value_lowers_sum :
  totals_wh [["2025-10-13 00:00"; "5"; "0"; "0"; "0"; "0"; "0"]]
  = Ok {[ Date 2025 10 13 := [5; 0; 0; 0; 0; 0]%float ]} /\
  fold_row {[ Date 2025 10 13 := [5; 0; 0; 0; 0; 0]%float ]}
           ["2025-10-13 00:15"; "-3"; "0"; "0"; "0"; "0"; "0"]
  = Ok {[ Date 2025 10 13 := [2; 0; 0; 0; 0; 0]%float ]} /\
  (5 <=? 2)%float = false.
Proof. repeat split; vm_compute; reflexivity. Qed.

(** C4, amended. At any turn of the loop: the dictionary holds the dates met
    so far (those of the rows of at least seven fields), one entry each; an
    entry appears when its date is first met, and then holds the values of
    that row added to six zeros; and, as long as no value read is negative,
    every sum of every entry after the turn is at least what it was before. *)
Theorem daily_sums_invariant (rows : list (list string)) (row : list string)
    (totals totals' : gmap date (list float)) :
  totals_wh rows = Ok totals -> fold_row totals row = Ok totals' ->
  dom totals = list_to_set (dates_seen rows) /\
  (forall d, d ∉ dom totals -> d ∈ dom totals' ->
     exists cs, record row = Ok (d, cs) /\
       totals' !! d = Some (zip_with PrimFloat.add (replicate 6 0%float) cs)) /\
  (nonneg_rows (rows ++ [row]) ->
     forall d old new, totals !! d = Some old -> totals' !! d = Some new ->
       Forall2 fle old new).
Proof.
  unfold totals_wh, fold_row, record. intros Hrows Hrow.
  assert (six_sums totals) as Hw
    by (eapply add_rows_six_sums; [apply six_sums_empty | exact Hrows]).
  split; [|split].
  - rewrite (add_rows_dom _ _ id _ _ _ _ six_sums_empty Hrows), dom_empty_L.
    by rewrite (left_id_L ∅ (∪)).
  - intros d Hd Hd'.
    destruct (add_row_step _ _ _ _ _ _ Hw Hrow) as [[_ ->]|(_ & day & cs & Hr & ->)];
      [done|].
    unfold add_values in *. rewrite dom_insert_L in Hd'.
    assert (d = day) as -> by set_solver.
    exists cs. split; [done|]. rewrite lookup_insert_eq. unfold bucket.
    apply not_elem_of_dom in Hd. by rewrite Hd.
  - intros Hnn d old new Hold Hnew.
    apply Forall_app in Hnn as [Hnn Hnr]. apply Forall_cons in Hnr as [Hnr _].
    assert (Forall nonneg old) as Ho.
    { eapply (totals_nonneg rows ∅ totals Hnn six_sums_empty); [|exact Hrows|exact Hold].
      apply map_Forall_empty. }
    destruct (add_row_step _ _ _ _ _ _ Hw Hrow) as [[_ ->]|(_ & day & cs & Hr & ->)].
    + rewrite Hold in Hnew. injection Hnew as <-. by apply Forall2_fle_refl.
    + unfold add_values in Hnew. destruct (decide (day = d)) as [->|Hne].
      * rewrite lookup_insert_eq in Hnew. injection Hnew as <-.
        unfold bucket. rewrite Hold. simpl.
        apply zip_with_add_fle; [done|by eapply Hnr|].
        rewrite (Hw d old Hold). symmetry. by eapply read_row_length.
      * rewrite lookup_insert_ne in Hnew by done.
        rewrite Hold in Hnew. injection Hnew as <-. by apply Forall2_fle_refl.
Qed.

Lemma daily_sums_invariant_witness :
  dom ({[ Date 2025 10 13 := [5; 0; 0; 0; 0; 0]%float ]} : gmap date (list float))
  = list_to_set (dates_seen [["2025-10-13 00:00"; "5"; "0"; "0"; "0"; "0"; "0"]]) /\
  (forall d,
     d ∉ dom ({[ Date 2025 10 13 := [5; 0; 0; 0; 0; 0]%float ]} : gmap date (list float)) ->
     d ∈ dom ({[ Date 2025 10 13 := [8; 0; 0; 0; 0; 0]%float ]} : gmap date (list float)) ->
     exists cs, record ["2025-10-13 00:15"; "3"; "0"; "0"; "0"; "0"; "0"] = Ok (d, cs) /\
       ({[ Date 2025 10 13 := [8; 0; 0; 0; 0; 0]%float ]} : gmap date (list float)) !! d
       = Some (zip_with PrimFloat.add (replicate 6 0%float) cs)) /\
  (nonneg_rows ([["2025-10-13 00:00"; "5"; "0"; "0"; "0"; "0"; "0"]]
                  ++ [["2025-10-13 00:15"; "3"; "0"; "0"; "0"; "0"; "0"]]) ->
     forall d old new,
       ({[ Date 2025 10 13 := [5; 0; 0; 0; 0; 0]%float ]} : gmap date (list float)) !! d
       = Some old ->
       ({[ Date 2025 10 13 := [8; 0; 0; 0; 0; 0]%float ]} : gmap date (list float)) !! d
       = Some new ->
       Forall2 fle old new).
Proof.
  apply (daily_sums_invariant
           [["2025-10-13 00:00"; "5"; "0"; "0"; "0"; "0"; "0"]]
           ["2025-10-13 00:15"; "3"; "0"; "0"; "0"; "0"; "0"]).
  - vm_compute. reflexivity.
  - vm_compute. reflexivity.
Defined.

(** ** The report *)

Global Instance date_le_trans : Transitive date_le.
Proof. intros [] [] []. unfold date_le. simpl. lia. Qed.

Global Instance date_le_total : Total date_le.
Proof. intros [] []. unfold date_le. simpl. lia. Qed.

Lemma date_le_lt (a b : date) : date_le a b -> a <> b -> date_lt a b.
Proof.
  destruct a as [y m d], b as [y' m' d']. unfold date_le, date_lt. simpl.
  intros H Hne.
  assert (~ (y = y' /\ m = m' /\ d = d')) by (intros (-> & -> & ->); done).
  lia.
Qed.

Lemma StronglySorted_le_lt (l : list date) :
  StronglySorted date_le l -> NoDup l -> StronglySorted date_lt l.
Proof.
  induction 1 as [|a l Hs IH Hall]; intros Hnd; constructor.
  - apply IH. by apply NoDup_cons in Hnd as [_ ?].
  - apply NoDup_cons in Hnd as [Ha _].
    apply Forall_forall. intros b Hb. apply date_le_lt.
    + by eapply Forall_forall in Hall.
    + by intros ->.
Qed.

(** The keys come out in strictly ascending order, and they are the keys. *)
Lemma sorted_keys_ascending {V : Type} (daily : gmap date V) :
  StronglySorted date_lt (sorted_keys daily) /\
  sorted_keys daily ≡ₚ (map_to_list daily).*1.
Proof.
  unfold sorted_keys. split; [|apply merge_sort_Permutation].
  apply StronglySorted_le_lt; [apply StronglySorted_merge_sort; apply _|].
  rewrite merge_sort_Permutation. apply NoDup_fst_map_to_list.
Qed.

Lemma weekday_range (d : date) : 0 <= weekday d < 7.
Proof. unfold weekday. apply Z.mod_pos_bound. lia. Qed.

Lemma weekday_name_found (d : date) : is_Some (FINNISH_WEEKDAYS !! weekday d).
Proof.
  pose proof (weekday_range d) as H.
  assert (weekday d = 0 \/ weekday d = 1 \/ weekday d = 2 \/ weekday d = 3 \/
          weekday d = 4 \/ weekday d = 5 \/ weekday d = 6) as Hk by lia.
  destruct Hk as [->|[->|[->|[->|[->|[->| ->]]]]]]; by eexists.
Qed.

Lemma report_line_ok (daily : gmap date (kwh_tuple (F := float))) (d : date) :
  is_Some (daily !! d) -> exists line, report_line daily d = Ok line.
Proof.
  intros [[[[[[c1 c2] c3] p1] p2] p3] Hd]. unfold report_line.
  destruct (weekday_name_found d) as [name ->]. unfold kwh_tuple in *.
  rewrite Hd. simpl. eauto.
Qed.

Lemma mapM_result_ok {A B : Type} (f : A -> result B) (l : list A) :
  Forall (fun a => exists b, f a = Ok b) l ->
  exists k, mapM f l = Ok k /\ Forall2 (fun a b => f a = Ok b) l k.
Proof.
  induction 1 as [|a l [b Hb] _ (k & Hk & Hall)].
  - exists []. split; [done | constructor].
  - exists (b :: k). split; [|by constructor].
    cbn. rewrite Hb. cbn. by rewrite Hk.
Qed.

Lemma report_line_shows_date (daily : gmap date (kwh_tuple (F := float))) (d : date)
    (line : string) :
  report_line daily d = Ok line -> shows_date d line.
Proof.
  unfold report_line, shows_date. intros H.
  destruct (FINNISH_WEEKDAYS !! weekday d) as [name|]; [|done]. cbn in H.
  destruct (daily !! d) as [[[[[[c1 c2] c3] p1] p2] p3]|]; [|done]. cbn in H.
  injection H as <-. eauto.
Qed.

(** C7. Whatever the mapping of daily totals, the report is the banner
    followed by one line per date; each line shows its date - the Finnish
    name of its weekday in the first twelve columns, then the date as
    dd.mm.yyyy - and the dates of the lines, from top to bottom, are the keys
    of the mapping in strictly ascending order, whatever the order in which
    they were inserted. *)
Theorem report_dates_ascending (daily : gmap date (kwh_tuple (F := float))) :
  exists lines,
    print_report daily = Ok (banner ++ lines)%list /\
    Forall2 shows_date (sorted_keys daily) lines /\
    StronglySorted date_lt (sorted_keys daily) /\
    sorted_keys daily ≡ₚ (map_to_list daily).*1.
Proof.
  destruct (sorted_keys_ascending daily) as [Hs Hp].
  destruct (mapM_result_ok (report_line daily) (sorted_keys daily)) as (lines & Hl & Hall).
  { apply Forall_forall. intros d Hd. apply report_line_ok.
    rewrite Hp in Hd. apply list_elem_of_fmap in Hd as ([d' t] & -> & Hin).
    apply elem_of_map_to_list in Hin. by eexists. }
  exists lines. unfold print_report. rewrite Hl.
  split; [done|]. split; [|done].
  eapply Forall2_impl; [exact Hall|]. intros d line. apply report_line_shows_date.
Qed.

(** ** The scenario of week 42 *)

(** C1. The three rows give 0.2, 0.4, 0.6, 0.1, 0.12, 0.14 kWh for
    2025-10-13 and 0.5, 0, 0, 0, 0, 0 kWh for 2025-10-14 (the binary64
    numbers nearest to these decimals); the report prints the two dates in
    that order, the first as maanantai and the second as tiistai. *)
Theorem week42_scenario :
  compute_daily_totals scenario_rows
  = Ok {[ Date 2025 10 13 := (0.2, 0.4, 0.6, 0.1, 0.12, 0.14)%float;
          Date 2025 10 14 := (0.5, 0, 0, 0, 0, 0)%float ]} /\
  main scenario_rows
  = Ok (banner ++
        [ "maanantai    13.10.2025     0,20    0,40    0,60           0,10   0,12   0,14";
          "tiistai      14.10.2025     0,50    0,00    0,00           0,00   0,00   0,00" ])%list /\
  sorted_keys ({[ Date 2025 10 13 := (0.2, 0.4, 0.6, 0.1, 0.12, 0.14)%float;
                  Date 2025 10 14 := (0.5, 0, 0, 0, 0, 0)%float ]}
               : gmap date (kwh_tuple (F := float)))
  = [Date 2025 10 13; Date 2025 10 14] /\
  FINNISH_WEEKDAYS !! weekday (Date 2025 10 13) = Some "maanantai" /\
  FINNISH_WEEKDAYS !! weekday (Date 2025 10 14) = Some "tiistai".
Proof. repeat split; vm_compute; reflexivity. Qed.

(** ** Numbers with a decimal comma *)

Lemma isdigit_digit_char (k : Z) : 0 <= k < 10 -> isdigit (digit_char k) = true.
Proof.
  intros H.
  assert (k = 0 \/ k = 1 \/ k = 2 \/ k = 3 \/ k = 4 \/ k = 5 \/ k = 6 \/ k = 7 \/
          k = 8 \/ k = 9) as Hk by lia.
  by destruct Hk as [->|[->|[->|[->|[->|[->|[->|[->|[->| ->]]]]]]]]].
Qed.

Lemma append_cons (x : ascii) (a b : string) : String x a +:+ b = String x (a +:+ b).
Proof. reflexivity. Qed.

Lemma append_nil_l (a : string) : "" +:+ a = a.
Proof. reflexivity. Qed.

Lemma append_assoc (a b c : string) : (a +:+ b) +:+ c = a +:+ (b +:+ c).
Proof. induction a as [|x a IH]; [done|]. rewrite !append_cons. by f_equal. Qed.

Lemma append_nil_r (a : string) : a +:+ "" = a.
Proof. induction a as [|x a IH]; [done|]. rewrite append_cons. by f_equal. Qed.

Lemma length_append (a b : string) :
  String.length (a +:+ b) = (String.length a + String.length b)%nat.
Proof. induction a as [|x a IH]; [done|]. rewrite append_cons. simpl. by f_equal. Qed.

Lemma all_digits_app (a b : string) :
  all_digits (a +:+ b) = all_digits a && all_digits b.
Proof.
  induction a as [|c a IH]; [done|].
  rewrite append_cons. simpl. by rewrite IH, andb_assoc.
Qed.

Lemma dec_go_digits (fuel : nat) (n : Z) (acc : string) :
  0 <= n ->
  exists ds, dec_go fuel n acc = ds +:+ acc /\ all_digits ds = true /\
             (fuel <> 0%nat -> ds <> "").
Proof.
  revert n acc. induction fuel as [|fuel IH]; intros n acc Hn.
  - by exists "".
  - cbn [dec_go].
    assert (isdigit (digit_char (n mod 10)) = true) as Hd
      by (apply isdigit_digit_char, Z.mod_pos_bound; lia).
    destruct (n <? 10).
    + exists (String (digit_char (n mod 10)) "").
      rewrite append_cons, append_nil_l. simpl. by rewrite Hd.
    + destruct (IH (n / 10) (String (digit_char (n mod 10)) acc)) as (ds & -> & Hds & _).
      { apply Z.div_pos; lia. }
      exists (ds +:+ String (digit_char (n mod 10)) ""). split; [|split].
      * by rewrite append_assoc, append_cons, append_nil_l.
      * rewrite all_digits_app, Hds. simpl. by rewrite Hd.
      * intros _. by destruct ds.
Qed.

Lemma str_of_int_digits (n : Z) :
  0 <= n -> all_digits (str_of_int n) = true /\ str_of_int n <> "".
Proof.
  intros Hn. unfold str_of_int.
  destruct (dec_go_digits (S (Z.to_nat (Z.log2 n))) n "" Hn) as (ds & -> & Hds & Hne).
  rewrite append_nil_r. split; [done|]. by apply Hne.
Qed.

(** The fuel of [str_of_int] is enough: the digits written spell the
    number. *)
Lemma int_of_digits_app (k : Z) (a b : string) :
  int_of_digits k (a +:+ b) = int_of_digits (int_of_digits k a) b.
Proof.
  revert k. induction a as [|c a IH]; intros k; [done|].
  rewrite append_cons. simpl. by destruct (isdigit c).
Qed.

Lemma dec_go_value (fuel : nat) (n : Z) (acc : string) :
  0 <= n < 10 ^ Z.of_nat fuel ->
  exists ds, dec_go fuel n acc = ds +:+ acc /\
    forall k, int_of_digits k ds = k * 10 ^ Z.of_nat (String.length ds) + n.
Proof.
  revert n acc. induction fuel as [|fuel IH]; intros n acc Hn.
  - exists "". split; [done|]. intros k. simpl in *. lia.
  - cbn [dec_go].
    assert (0 <= n mod 10 < 10) as Hm by (apply Z.mod_pos_bound; lia).
    assert (forall k, int_of_digits k (String (digit_char (n mod 10)) "")
                      = 10 * k + n mod 10) as Hd.
    { intros k. simpl. rewrite isdigit_digit_char by done. f_equal.
      assert (n mod 10 = 0 \/ n mod 10 = 1 \/ n mod 10 = 2 \/ n mod 10 = 3 \/
              n mod 10 = 4 \/ n mod 10 = 5 \/ n mod 10 = 6 \/ n mod 10 = 7 \/
              n mod 10 = 8 \/ n mod 10 = 9) as Hc by lia.
      by destruct Hc as [->|[->|[->|[->|[->|[->|[->|[->|[->| ->]]]]]]]]]. }
    destruct (Z.ltb_spec n 10) as [Hlt|Hge].
    + exists (String (digit_char (n mod 10)) ""). split; [done|].
      intros k. rewrite Hd, Z.mod_small by lia. simpl. lia.
    + destruct (IH (n / 10) (String (digit_char (n mod 10)) acc)) as (ds & -> & Hds).
      { rewrite Nat2Z.inj_succ, Z.pow_succ_r in Hn by lia.
        split; [apply Z.div_pos; lia | apply Z.div_lt_upper_bound; lia]. }
      exists (ds +:+ String (digit_char (n mod 10)) ""). split.
      * by rewrite append_assoc, append_cons, append_nil_l.
      * intros k. rewrite int_of_digits_app, Hd, Hds, length_append. simpl.
        rewrite Nat2Z.inj_add, Z.pow_add_r by lia. simpl (Z.of_nat 1).
        rewrite Z.pow_1_r. pose proof (Z.div_mod n 10). lia.
Qed.

Lemma str_of_int_value (n : Z) : 0 <= n -> int_of_digits 0 (str_of_int n) = n.
Proof.
  intros Hn. unfold str_of_int.
  destruct (dec_go_value (S (Z.to_nat (Z.log2 n))) n "") as (ds & -> & Hds).
  { split; [done|]. rewrite Nat2Z.inj_succ, Z2Nat.id by apply Z.log2_nonneg.
    destruct (Z.eq_dec n 0) as [->|Hne]; [done|].
    eapply Z.lt_le_trans; [apply Z.log2_spec; lia|].
    apply Z.pow_le_mono_l. lia. }
  rewrite append_nil_r, Hds. lia.
Qed.

Lemma zfill_2 (k : Z) :
  0 <= k < 100 ->
  zfill 2 k = String (digit_char (k / 10)) (String (digit_char (k mod 10)) "").
Proof.
  intros Hk.
  assert (bool_decide
            (Forall (fun k => zfill 2 k
                              = String (digit_char (k / 10))
                                       (String (digit_char (k mod 10)) ""))
                    (seqZ 0 100)) = true) as Hall by (vm_compute; reflexivity).
  apply bool_decide_eq_true in Hall.
  eapply Forall_forall in Hall; [exact Hall|]. apply elem_of_seqZ. lia.
Qed.

Lemma replace_app (old new : ascii) (a b : string) :
  replace old new (a +:+ b) = replace old new a +:+ replace old new b.
Proof.
  induction a as [|c a IH]; [done|].
  rewrite append_cons. simpl. by rewrite IH, append_cons.
Qed.

Lemma replace_digits (new : ascii) (s : string) :
  all_digits s = true -> replace "." new s = s.
Proof.
  induction s as [|c s IH]; simpl; [done|].
  intros [Hc Hs]%andb_prop. rewrite IH by done.
  destruct (Ascii.eqb_spec c "."); [by subst|done].
Qed.

Lemma round_half_even_nonneg (num den : Z) :
  0 <= num -> 0 < den -> 0 <= round_half_even num den.
Proof.
  intros Hn Hd. unfold round_half_even.
  assert (0 <= num / den) by (apply Z.div_pos; lia).
  destruct (_ ?= _); [destruct (Z.even _)|..]; lia.
Qed.

(** The shape of [f"{x:.2f}"] with the comma, for a number. *)
Lemma to_finnish_number_finite (v : float) :
  finite v = true -> two_decimals_comma (to_finnish_number v).
Proof.
  unfold finite, to_finnish_number, format_2f.
  destruct (Prim2SF v) as [[]|[]| |sg m e]; try done; intros _.
  - exists "-", "0", "0"%char, "0"%char.
    split; [reflexivity|]. split; [by right|]. done.
  - exists "", "0", "0"%char, "0"%char.
    split; [reflexivity|]. split; [by left|]. done.
  - set (n := if 0 <=? e then _ else _).
    assert (0 <= n) as Hn.
    { unfold n. destruct (Z.leb_spec 0 e).
      - assert (0 < 2 ^ e) by (apply Z.pow_pos_nonneg; lia). lia.
      - apply round_half_even_nonneg; [lia|]. apply Z.pow_pos_nonneg; lia. }
    assert (0 <= n mod 100 < 100) as Hr by (apply Z.mod_pos_bound; lia).
    destruct (str_of_int_digits (n / 100)) as [Hip Hne]; [apply Z.div_pos; lia|].
    rewrite zfill_2 by done.
    exists (if sg then "-" else ""), (str_of_int (n / 100)),
           (digit_char (n mod 100 / 10)), (digit_char (n mod 100 mod 10)).
    split; [|split; [destruct sg; [by right | by left]|]].
    + rewrite !replace_app, (replace_digits _ (str_of_int _)) by done.
      assert (replace "." "," (if sg then "-" else "") = if sg then "-" else "") as ->
        by (by destruct sg).
      change (replace "." "," ".") with ",".
      rewrite replace_digits; [done|]. simpl.
      rewrite !isdigit_digit_char; [done|apply Z.mod_pos_bound; lia|].
      split; [apply Z.div_pos; lia | apply Z.div_lt_upper_bound; lia].
    + repeat split; try done.
      * apply isdigit_digit_char.
        split; [apply Z.div_pos; lia | apply Z.div_lt_upper_bound; lia].
      * apply isdigit_digit_char, Z.mod_pos_bound. lia.
Qed.




(** ** Bare dates *)

Lemma lstrip_no_space (s : string) : no_space s = true -> lstrip s = s.
Proof. destruct s as [|c s]; [done|]. simpl. by destruct (isspace c). Qed.

Lemma rstrip_no_space (s : string) : no_space s = true -> rstrip s = s.
Proof.
  induction s as [|c s IH]; [done|]. simpl. intros [Hc Hs]%andb_prop.
  rewrite IH by done. destruct s; [|done]. by destruct (isspace c).
Qed.

Lemma strip_no_space (s : string) : no_space s = true -> strip s = s.
Proof.
  intros H. unfold strip. rewrite lstrip_no_space by done. by apply rstrip_no_space.
Qed.

Lemma match_seq_no_space (cs : list cls) (s m rest : string) :
  match_seq cs s = Some (m, rest) -> no_space s = true -> no_space rest = true.
Proof.
  revert s m. induction cs as [|k cs IH]; intros s m; simpl.
  - by intros [= _ <-].
  - destruct s as [|c s]; [done|]. destruct (k c); [|done].
    destruct (match_seq cs s) as [[m' rest']|] eqn:E; [|done].
    simpl. intros [= _ <-] [_ Hs]%andb_prop. by eapply IH.
Qed.

Lemma ws_runs_no_space (s : string) : no_space s = true -> ws_runs s = [].
Proof. destruct s as [|c s]; [done|]. simpl. by destruct (isspace c). Qed.

Lemma match_directive_no_space (d : directive) (f f' : fields) (s rest : string) :
  no_space s = true -> (f', rest) ∈ match_directive d f s -> no_space rest = true.
Proof.
  intros Hs. unfold match_directive.
  assert (forall alts, (f', rest) ∈ ((fun '(m, rest) =>
                (set_field d (int_of_digits 0 m) f, rest)) <$> match_alt alts s) ->
            no_space rest = true) as Halt.
  { intros alts Hin. apply list_elem_of_fmap in Hin as ([m r] & [= _ ->] & Hin).
    unfold match_alt in Hin. apply list_elem_of_omap in Hin as (cs & _ & Hm).
    by eapply match_seq_no_space. }
  destruct d; try apply Halt.
  rewrite ws_runs_no_space by done. by intros ?%elem_of_nil.
Qed.

Lemma list_bind_nil {A B : Type} (g : A -> list B) (l : list A) :
  (forall x, x ∈ l -> g x = []) -> l ≫= g = [].
Proof.
  induction l as [|x l IH]; intros H; [done|]. cbn.
  rewrite (H x) by apply list_elem_of_here. simpl. apply IH.
  intros y Hy. apply H. by apply list_elem_of_further.
Qed.

(** A format that asks for a blank matches no text without blanks. *)
Lemma match_directives_no_space (ds : list directive) (f : fields) (s : string) :
  no_space s = true -> D_ws ∈ ds -> match_directives ds f s = [].
Proof.
  revert f s. induction ds as [|d ds IH]; intros f s Hs Hin.
  - by apply elem_of_nil in Hin.
  - cbn [match_directives]. apply list_bind_nil. intros [f' rest] Hx.
    apply elem_of_cons in Hin as [<-|Hin].
    + simpl in Hx. rewrite ws_runs_no_space in Hx by done.
      by apply elem_of_nil in Hx.
    + apply IH; [|done]. by eapply match_directive_no_space.
Qed.

Lemma strptime_no_space (text fmt : string) :
  no_space text = true -> D_ws ∈ compile_format fmt ->
  strptime text fmt = Raise ValueError.
Proof.
  intros Hs Hin. unfold strptime. by rewrite match_directives_no_space.
Qed.

Lemma isdigit_facts (c : ascii) :
  isdigit c = true -> isspace c = false /\ Ascii.eqb c "T" = false.
Proof. by destruct c as [[] [] [] [] [] [] [] []]. Qed.

Lemma chr_dash (c : ascii) : chr "-" c = true -> c = "-"%char.
Proof. by destruct c as [[] [] [] [] [] [] [] []]. Qed.

(** The characters of a bare date. *)
Lemma is_bare_date_inv (s : string) :
  is_bare_date s = true ->
  exists c1 c2 c3 c4 c5 c6 c7 c8,
    s = String c1 (String c2 (String c3 (String c4 (String "-"
          (String c5 (String c6 (String "-" (String c7 (String c8 ""))))))))) /\
    Forall (fun c => isdigit c = true) [c1; c2; c3; c4; c5; c6; c7; c8].
Proof.
  unfold is_bare_date.
  destruct s as [|c1 [|c2 [|c3 [|c4 [|d1 [|c5 [|c6 [|d2 [|c7 [|c8 s]]]]]]]]]];
    simpl; try done;
    repeat match goal with
           | |- context [if ?b then _ else _] => destruct b eqn:?; simpl; try done
           end.
  destruct s; [|done]. intros _.
  apply chr_dash in Heqb3 as ->. apply chr_dash in Heqb6 as ->.
  exists c1, c2, c3, c4, c5, c6, c7, c8. split; [done|]. by repeat constructor.
Qed.

(** The date 30 February is of the form, and is no date: the row that
    starts with it is taken for a header. *)
Lemma bare_date_of_no_day :
  is_bare_date "2025-02-30" = true /\
  parse_timestamp "2025-02-30" = Raise ValueError /\
  is_header_row ["2025-02-30"; "100"; "200"; "300"; "50"; "60"; "70"] = true.
Proof. repeat split; reflexivity. Qed.

(** C10, amended. A string of the form YYYY-MM-DD that spells a date of the
    calendar (year 1 to 9999, a month, a day of that month) is read as the
    midnight of that date: the two formats with a time do not match it, and
    the ISO parser does; so a first row that starts with it is a row of data,
    kept for the aggregation. *)
Theorem bare_date_is_data (s : string) (fields : list string)
    (rows : list (list string)) :
  is_bare_date s = true -> valid_date (bare_date_value s) = true ->
  try_formats (replace "T" " " (strip s)) ["%Y-%m-%d %H:%M:%S"; "%Y-%m-%d %H:%M"] = None /\
  parse_timestamp s = Ok (DateTime (bare_date_value s) 0 0 0 0 None) /\
  is_header_row (s :: fields) = false /\
  strip_header ((s :: fields) :: rows) = (s :: fields) :: rows.
Proof.
  intros Hs Hv.
  destruct (is_bare_date_inv s Hs) as (c1 & c2 & c3 & c4 & c5 & c6 & c7 & c8 & Es & Hd).
  apply Forall_cons in Hd as [H1 Hd]. apply Forall_cons in Hd as [H2 Hd].
  apply Forall_cons in Hd as [H3 Hd]. apply Forall_cons in Hd as [H4 Hd].
  apply Forall_cons in Hd as [H5 Hd]. apply Forall_cons in Hd as [H6 Hd].
  apply Forall_cons in Hd as [H7 Hd]. apply Forall_cons in Hd as [H8 _].
  destruct (isdigit_facts _ H1) as [S1 T1]. destruct (isdigit_facts _ H2) as [S2 T2].
  destruct (isdigit_facts _ H3) as [S3 T3]. destruct (isdigit_facts _ H4) as [S4 T4].
  destruct (isdigit_facts _ H5) as [S5 T5]. destruct (isdigit_facts _ H6) as [S6 T6].
  destruct (isdigit_facts _ H7) as [S7 T7]. destruct (isdigit_facts _ H8) as [S8 T8].
  assert (no_space s = true) as Hns.
  { rewrite Es. simpl. by rewrite S1, S2, S3, S4, S5, S6, S7, S8. }
  assert (replace "T" " " s = s) as Hrep.
  { rewrite Es. simpl. by rewrite T1, T2, T3, T4, T5, T6, T7, T8. }
  assert (exists y m d, parse_isoformat_date s = Some (y, m, d, "")) as (y & m & d & Hp).
  { rewrite Es. unfold parse_isoformat_date. simpl.
    rewrite H1, H2, H3, H4. simpl. rewrite H5, H6. simpl. rewrite H7, H8. simpl.
    eauto. }
  assert (try_formats (replace "T" " " (strip s))
            ["%Y-%m-%d %H:%M:%S"; "%Y-%m-%d %H:%M"] = None) as Htry.
  { rewrite strip_no_space, Hrep by done. cbn [try_formats].
    rewrite !strptime_no_space; [done|done| |done|].
    - vm_compute. do 5 apply list_elem_of_further. apply list_elem_of_here.
    - vm_compute. do 5 apply list_elem_of_further. apply list_elem_of_here. }
  assert (parse_timestamp s = Ok (DateTime (bare_date_value s) 0 0 0 0 None)) as Hts.
  { unfold parse_timestamp. rewrite Htry, strip_no_space by done.
    unfold fromisoformat, bare_date_value in *. rewrite Hp in *.
    unfold mk_datetime. by rewrite Hv. }
  split; [done|]. split; [done|].
  assert (is_header_row (s :: fields) = false) as Hh.
  { unfold is_header_row. cbn. by rewrite Hts. }
  split; [done|]. unfold strip_header. by rewrite Hh.
Qed.

Lemma bare_date_is_data_witness :
  try_formats (replace "T" " " (strip "2025-10-13"))
    ["%Y-%m-%d %H:%M:%S"; "%Y-%m-%d %H:%M"] = None /\
  parse_timestamp "2025-10-13"
  = Ok (DateTime (bare_date_value "2025-10-13") 0 0 0 0 None) /\
  is_header_row ("2025-10-13" :: ["100"; "200"; "300"; "50"; "60"; "70"]) = false /\
  strip_header (("2025-10-13" :: ["100"; "200"; "300"; "50"; "60"; "70"]) :: [])
  = ("2025-10-13" :: ["100"; "200"; "300"; "50"; "60"; "70"]) :: [].
Proof. apply bare_date_is_data; reflexivity. Defined.

(** ** Dividing once at the end, or row by row *)

Lemma bind_rel {A1 A2 B1 B2 : Type} (P : A1 -> A2 -> Prop) (Q : B1 -> B2 -> Prop)
    (r1 : result A1) (r2 : result A2) (k1 : A1 -> result B1) (k2 : A2 -> result B2) :
  result_rel P r1 r2 -> (forall a b, P a b -> result_rel Q (k1 a) (k2 b)) ->
  result_rel Q (r1 ≫= k1) (r2 ≫= k2).
Proof. destruct r1, r2; simpl; intros H Hk; try done. by apply Hk. Qed.

Lemma result_rel_eq_refl {A : Type} (r : result A) : result_rel eq r r.
Proof. by destruct r. Qed.

(** Two runs of the loop over the same rows, on two arithmetics related
    by [R]. *)
Section Simulation.
Context {F1 F2 : Type} (R : F1 -> F2 -> Prop).
Abbreviation totals_rel := (totals_rel R).
Variable zero1 : F1.
Variable add1 : F1 -> F1 -> F1.
Variable number1 : string -> result F1.
Variable zero2 : F2.
Variable add2 : F2 -> F2 -> F2.
Variable number2 : string -> result F2.
Hypothesis Rzero : R zero1 zero2.
Hypothesis Radd : forall a1 a2 b1 b2, R a1 a2 -> R b1 b2 -> R (add1 a1 b1) (add2 a2 b2).
Hypothesis Rnumber : forall s, result_rel R (number1 s) (number2 s).

Lemma totals_rel_insert t1 t2 d l1 l2 :
  totals_rel t1 t2 -> Forall2 R l1 l2 -> totals_rel (<[d := l1]> t1) (<[d := l2]> t2).
Proof.
  intros Ht Hl d'. destruct (decide (d = d')) as [->|Hne].
  - rewrite !lookup_insert_eq. by constructor.
  - rewrite !lookup_insert_ne by done. apply Ht.
Qed.

Lemma add_to_channel_sim t1 t2 day i c1 c2 :
  totals_rel t1 t2 -> R c1 c2 ->
  result_rel totals_rel (add_to_channel zero1 add1 t1 day i c1)
                        (add_to_channel zero2 add2 t2 day i c2).
Proof.
  intros Ht Hc. unfold add_to_channel, default_getitem.
  assert (forall u1 u2 l1 l2, totals_rel u1 u2 -> Forall2 R l1 l2 ->
            result_rel totals_rel
              (v ← getitem l1 i; Ok (<[day := <[i := add1 v c1]> l1]> u1))
              (v ← getitem l2 i; Ok (<[day := <[i := add2 v c2]> l2]> u2))) as Hstep.
  { intros u1 u2 l1 l2 Hu Hl. unfold getitem.
    destruct (l1 !! i) as [v1|] eqn:E1, (l2 !! i) as [v2|] eqn:E2; simpl.
    - apply totals_rel_insert; [done|]. apply Forall2_insert; [done|].
      apply Radd; [|done]. by eapply Forall2_lookup_lr.
    - apply lookup_lt_Some in E1. apply lookup_ge_None in E2.
      apply Forall2_length in Hl. lia.
    - apply lookup_lt_Some in E2. apply lookup_ge_None in E1.
      apply Forall2_length in Hl. lia.
    - done. }
  pose proof (Ht day) as Hd.
  destruct (t1 !! day) as [l1|], (t2 !! day) as [l2|]; inversion Hd; subst.
  - by apply Hstep.
  - apply Hstep.
    + apply totals_rel_insert; [done|]. by repeat constructor.
    + by repeat constructor.
Qed.

Lemma to_float_sim row i :
  result_rel R (getitem row i ≫= to_float number1) (getitem row i ≫= to_float number2).
Proof.
  destruct (getitem row i) as [f|]; simpl; [|done]. apply Rnumber.
Qed.

Lemma add_row_sim t1 t2 row :
  totals_rel t1 t2 ->
  result_rel totals_rel (add_row zero1 add1 number1 t1 row)
                        (add_row zero2 add2 number2 t2 row).
Proof.
  intros Ht. unfold add_row. destruct (length row <? 7)%nat; [done|].
  eapply bind_rel; [apply result_rel_eq_refl|]. intros dt ? <-.
  do 6 (eapply bind_rel; [apply to_float_sim|]; intros ? ? ?).
  do 5 (eapply bind_rel; [by apply add_to_channel_sim|]; intros ? ? ?).
  by apply add_to_channel_sim.
Qed.

Lemma add_rows_sim t1 t2 rows :
  totals_rel t1 t2 ->
  result_rel totals_rel (add_rows zero1 add1 number1 t1 rows)
                        (add_rows zero2 add2 number2 t2 rows).
Proof.
  revert t1 t2. induction rows as [|row rows IH]; intros t1 t2 Ht; [done|].
  cbn [add_rows]. eapply bind_rel; [by apply add_row_sim|]. apply IH.
Qed.

Lemma totals_rel_empty : totals_rel ∅ ∅.
Proof. intros d. rewrite !lookup_empty. constructor. Qed.

Lemma totals_rel_dom t1 t2 : totals_rel t1 t2 -> dom t1 = dom t2.
Proof.
  intros Ht. apply set_eq. intros d. rewrite !elem_of_dom.
  specialize (Ht d). destruct Ht; split; intros [? ?]; by eauto.
Qed.

Lemma chan_rel l1 l2 i : Forall2 R l1 l2 -> R (chan zero1 l1 i) (chan zero2 l2 i).
Proof.
  intros Hl. unfold chan.
  destruct (l1 !! i) as [v1|] eqn:E1, (l2 !! i) as [v2|] eqn:E2; simpl.
  - by eapply Forall2_lookup_lr.
  - apply lookup_lt_Some in E1. apply lookup_ge_None in E2.
    apply Forall2_length in Hl. lia.
  - apply lookup_lt_Some in E2. apply lookup_ge_None in E1.
    apply Forall2_length in Hl. lia.
  - done.
Qed.
End Simulation.

(** The design that divides row by row is the loop of the program run on
    numbers that are divided as they are read, with nothing done at the end. *)
Section PerRow.
Context {F : Type}.
Variable zero : F.
Variable add : F -> F -> F.
Variable div1000 : F -> F.
Variable number : string -> result F.
Abbreviation number_div := (number_div div1000 number).

Lemma to_float_number_div row i (k : F -> result (gmap date (list F))) :
  (c ← getitem row i ≫= to_float number; k (div1000 c))
  = (c ← getitem row i ≫= to_float number_div; k c).
Proof.
  destruct (getitem row i) as [f|]; [|done]. simpl.
  unfold to_float, number_div. by destruct (number _).
Qed.

Lemma add_row_per_row_eq totals row :
  add_row_per_row zero add div1000 number totals row
  = add_row zero add number_div totals row.
Proof.
  unfold add_row_per_row, add_row. destruct (length row <? 7)%nat; [done|].
  destruct (getitem row 0 ≫= parse_timestamp) as [dt|]; [|done]. rewrite !bind_Ok.
  unfold to_float, number_div.
  repeat match goal with
         | |- context [getitem row ?i] => destruct (getitem row i) as [?|]; [|done]; simpl
         | |- context [number ?x] => destruct (number x) as [?|]; [|done]; simpl
         end.
  done.
Qed.

Lemma add_rows_per_row_eq totals rows :
  add_rows_per_row zero add div1000 number totals rows
  = add_rows zero add number_div totals rows.
Proof.
  revert totals. induction rows as [|row rows IH]; intros totals; [done|].
  cbn [add_rows_per_row add_rows]. rewrite add_row_per_row_eq.
  destruct (add_row _ _ _ totals row); [apply IH | done].
Qed.

Lemma tuple_items_eq items acc :
  tuple_items items acc = convert_items (F := F) id items acc.
Proof.
  revert acc. induction items as [|[d vals] items IH]; intros acc; [done|].
  cbn [tuple_items convert_items].
  change (as_tuple vals) with (to_kwh id vals).
  destruct (to_kwh id vals); [apply IH | done].
Qed.

Lemma per_row_daily_totals_with_eq rows :
  per_row_daily_totals_with zero add div1000 number rows
  = compute_daily_totals_with zero add id number_div rows.
Proof.
  unfold per_row_daily_totals_with, compute_daily_totals_with.
  rewrite add_rows_per_row_eq.
  destruct (add_rows _ _ _ ∅ rows); [apply tuple_items_eq | done].
Qed.
End PerRow.


Lemma exact_div1000_plus (a b : Qc) :
  exact_div1000 (a + b) = (exact_div1000 a + exact_div1000 b)%Qc.
Proof. unfold exact_div1000, Qcdiv. ring. Qed.

Lemma exact_div1000_zero : exact_div1000 (Q2Qc 0) = Q2Qc 0.
Proof. unfold exact_div1000, Qcdiv. ring. Qed.

(** On binary64 the two designs can be as far apart as one likes: twice
    1e308 Wh on one day overflow when summed first, and make
    1e305 + 1e305 = 2e305 when divided row by row. *)
Lemma per_row_conversion_overflow :
  compute_daily_totals
    [["2025-10-13 00:00"; "1e308"; "0"; "0"; "0"; "0"; "0"];
     ["2025-10-13 00:15"; "1e308"; "0"; "0"; "0"; "0"; "0"]]
  = Ok {[ Date 2025 10 13 := (infinity, 0, 0, 0, 0, 0)%float ]} /\
  per_row_daily_totals
    [["2025-10-13 00:00"; "1e308"; "0"; "0"; "0"; "0"; "0"];
     ["2025-10-13 00:15"; "1e308"; "0"; "0"; "0"; "0"; "0"]]
  = Ok {[ Date 2025 10 13 := (2e305, 0, 0, 0, 0, 0)%float ]}.
Proof. split; vm_compute; reflexivity. Qed.


(** * Further properties of the aggregator *)

Section LoopOutcome.
Context {F : Type}.
Variable zero : F.
Variable add : F -> F -> F.
Variable number : string -> result F.

(** The loop ends well exactly when every row of at least seven fields can
    be read. *)
Lemma add_rows_ok_iff totals rows :
  six_sums totals ->
  is_ok (add_rows zero add number totals rows) = true
  <-> Forall (fun row => (length row < 7)%nat \/ is_ok (read_row number row) = true) rows.
Proof.
  revert totals. induction rows as [|row rows IH]; intros totals Hw.
  - split; [constructor | done].
  - cbn [add_rows]. rewrite Forall_cons.
    destruct (Nat.lt_ge_cases (length row) 7) as [Hs|Hl].
    + rewrite add_row_short by done. rewrite bind_Ok, IH by done.
      split; [intros H; split; [by left | done] | by intros [_ H]].
    + rewrite add_row_long by done.
      destruct (read_row number row) as [[day cs]|e] eqn:E; simpl.
      * rewrite IH by (apply six_sums_add_values; [done | by eapply read_row_length]).
        split; [intros H; split; [by right | done] | by intros [_ H]].
      * split; [done|]. intros [[?|?] _]; [lia | done].
Qed.

(** Only the first seven fields of a row are looked at. *)
Lemma add_row_take totals row :
  (7 <= length row)%nat ->
  add_row zero add number totals (take 7 row) = add_row zero add number totals row.
Proof.
  intros Hl. unfold add_row.
  rewrite length_take, Nat.min_l by done.
  destruct (Nat.ltb_spec 7 7); [lia|].
  destruct (Nat.ltb_spec (length row) 7); [lia|].
  unfold getitem. by rewrite !lookup_take_lt by lia.
Qed.
End LoopOutcome.

(** X1. The aggregation ends well exactly when every row of at least seven
    fields has a timestamp that parses and six fields that are numbers;
    when it does not end well, the exception is a [ValueError] (never an
    [IndexError] or a [KeyError]). *)
Theorem aggregation_succeeds_iff (rows : list (list string)) :
  (is_ok (compute_daily_totals rows) = true <-> Forall readable rows) /\
  (is_ok (compute_daily_totals rows) = false ->
     compute_daily_totals rows = Raise ValueError).
Proof.
  unfold compute_daily_totals. rewrite compute_daily_totals_with_eq.
  pose proof (add_rows_ok_iff 0%float PrimFloat.add float_of_string ∅ rows
                six_sums_empty) as Hiff.
  destruct (add_rows _ _ _ ∅ rows) as [totals|e] eqn:E; simpl in *.
  - split; [|done]. split; [intros _; by apply Hiff | done].
  - split.
    + split; [done|]. intros H. by apply Hiff in H.
    + intros _. f_equal.
      eapply add_rows_error;
        [apply float_of_string_error|apply parse_timestamp_error| |exact E].
      apply six_sums_empty.
Qed.

(** X2. Columns after the seventh are ignored: cutting a row of at least
    seven fields down to its first seven changes nothing. *)
Theorem extra_columns_ignored (rows1 : list (list string)) (row : list string)
    (rows2 : list (list string)) :
  (7 <= length row)%nat ->
  compute_daily_totals (rows1 ++ row :: rows2)
  = compute_daily_totals (rows1 ++ take 7 row :: rows2).
Proof.
  intros Hl. unfold compute_daily_totals, compute_daily_totals_with.
  rewrite !add_rows_app. cbn [add_rows]. f_equal.
  destruct (add_rows _ _ _ ∅ rows1) as [t|]; [simpl|done].
  by rewrite add_row_take.
Qed.

Lemma extra_columns_ignored_witness :
  compute_daily_totals
    ([] ++ ["2025-10-13 00:00"; "1"; "2"; "3"; "4"; "5"; "6"; "note"; "x"] :: [])
  = compute_daily_totals
      ([] ++ take 7 ["2025-10-13 00:00"; "1"; "2"; "3"; "4"; "5"; "6"; "note"; "x"] :: []).
Proof. apply extra_columns_ignored. simpl. lia. Defined.

Lemma strip_header_short (rows : list (list string)) :
  Forall (fun row => (length row < 7)%nat) rows ->
  Forall (fun row => (length row < 7)%nat) (strip_header rows).
Proof.
  intros H. unfold strip_header. destruct rows as [|row rows]; [done|].
  destruct (is_header_row row); [by apply Forall_cons in H as [_ ?] | done].
Qed.

Lemma add_rows_all_short {F : Type} (zero : F) add number totals rows :
  Forall (fun row => (length row < 7)%nat) rows ->
  add_rows zero add number totals rows = Ok totals.
Proof.
  induction 1 as [|row rows Hs _ IH]; [done|].
  cbn [add_rows]. by rewrite add_row_short.
Qed.

(** X3. When no row has seven fields (an empty file, a file of short rows),
    there are no totals and the report is the banner alone. *)
Theorem no_long_rows_banner_only (rows : list (list string)) :
  Forall (fun row => (length row < 7)%nat) rows ->
  compute_daily_totals rows = Ok ∅ /\ main rows = Ok banner.
Proof.
  intros Hs.
  assert (forall rs, Forall (fun row => (length row < 7)%nat) rs ->
                     compute_daily_totals rs = Ok ∅) as Hempty.
  { intros rs Hrs. unfold compute_daily_totals, compute_daily_totals_with.
    by rewrite add_rows_all_short. }
  split; [by apply Hempty|].
  unfold main. rewrite Hempty by by apply strip_header_short. reflexivity.
Qed.

Lemma no_long_rows_banner_only_witness :
  compute_daily_totals [["Aika"; "Kulutus"]; ["2025-10-13 00:00"; "1"; "2"]] = Ok ∅ /\
  main [["Aika"; "Kulutus"]; ["2025-10-13 00:00"; "1"; "2"]] = Ok banner.
Proof. apply no_long_rows_banner_only. repeat constructor. Defined.

(** ** The totals, date by date *)

Section ByDate.
Context {F : Type}.
Variable zero : F.
Variable add : F -> F -> F.
Variable number : string -> result F.

Lemma day_values_length d rows :
  Forall (fun cs => length cs = 6%nat) (day_values number d rows).
Proof.
  induction rows as [|row rows IH]; [constructor|].
  unfold day_values in *. cbn [omap list_omap].
  destruct (read_row number row) as [[d' cs]|] eqn:E; [|done].
  destruct (decide (d' = d)); [|done].
  cbn. constructor; [by eapply read_row_length | done].
Qed.

(** The entry of a day after the loop: the sums it had, with the values of
    the day's rows added in order; untouched when no row is of that day. *)
Lemma add_rows_lookup totals rows totals' d :
  six_sums totals -> add_rows zero add number totals rows = Ok totals' ->
  totals' !! d
  = match day_values number d rows with
    | [] => totals !! d
    | vs => Some (foldl (zip_with add) (bucket zero totals d) vs)
    end.
Proof.
  revert totals. induction rows as [|row rows IH]; intros totals Hw.
  - by intros [= <-].
  - cbn [add_rows]. destruct (add_row zero add number totals row) as [t|] eqn:E; [|done].
    rewrite bind_Ok. intros Hrows.
    rewrite (IH t) by eauto using add_row_six_sums.
    unfold day_values. cbn [omap list_omap]. fold (day_values number d rows).
    destruct (add_row_step _ _ _ _ _ _ Hw E) as [[Hs ->]|(Hl & day & cs & Hr & ->)].
    + destruct (read_row number row) as [[d' cs]|] eqn:Er; [|done].
      apply read_row_long in Er. lia.
    + rewrite Hr. destruct (decide (day = d)) as [->|Hne].
      * cbn. unfold add_values. rewrite bucket_insert, lookup_insert_eq.
        by destruct (day_values number d rows).
      * cbn. unfold add_values, bucket. by rewrite lookup_insert_ne.
Qed.
End ByDate.

(** X4. When the aggregation ends well, a date has an entry exactly when
    some row is a record of that date, and each of its six kilowatt-hour
    totals is the sum of that channel over the records of that date alone
    (float additions from 0.0, in the order of the rows) divided by 1000.0;
    rows of other dates do not enter it. *)
Theorem totals_by_date (rows : list (list string))
    (daily : gmap date (kwh_tuple (F := float))) (d : date) :
  compute_daily_totals rows = Ok daily ->
  (day_values float_of_string d rows = [] -> daily !! d = None) /\
  (day_values float_of_string d rows <> [] ->
     exists t, daily !! d = Some t /\
       forall i, (i < 6)%nat ->
         tuple_get t i
         = (foldl PrimFloat.add 0 (day_channel 0%float float_of_string d i rows)
            / 1000)%float).
Proof.
  unfold compute_daily_totals. rewrite compute_daily_totals_with_eq.
  destruct (add_rows _ _ _ ∅ rows) as [totals|] eqn:E; [|done].
  rewrite bind_Ok. intros [= <-]. rewrite lookup_fmap.
  rewrite (add_rows_lookup _ _ _ _ _ _ d six_sums_empty E), lookup_empty.
  split.
  - by intros ->.
  - intros Hne. destruct (day_values float_of_string d rows) as [|cs vs] eqn:Ev; [done|].
    eexists. split; [done|]. intros i Hi.
    assert (chan 0%float (foldl (zip_with PrimFloat.add) (bucket 0%float ∅ d) (cs :: vs)) i
            = foldl PrimFloat.add 0%float (day_channel 0%float float_of_string d i rows))
      as Hch.
    { rewrite (chan_foldl_zip_with _ _ _ _ _ 6);
        [|done|done|rewrite <- Ev; apply day_values_length].
      unfold day_channel. rewrite Ev. f_equal.
      unfold chan, bucket. rewrite lookup_empty. simpl.
      by destruct i as [|[|[|[|[|[|i]]]]]]; [..|lia]. }
    unfold kwh_of.
    destruct i as [|[|[|[|[|[|i]]]]]]; try lia; cbn [tuple_get]; by rewrite <- Hch.
Qed.

Lemma totals_by_date_witness :
  (day_values float_of_string (Date 2025 10 14) scenario_rows = [] ->
   ({[ Date 2025 10 13 := (0.2, 0.4, 0.6, 0.1, 0.12, 0.14)%float;
       Date 2025 10 14 := (0.5, 0, 0, 0, 0, 0)%float ]}
    : gmap date (kwh_tuple (F := float))) !! Date 2025 10 14 = None) /\
  (day_values float_of_string (Date 2025 10 14) scenario_rows <> [] ->
   exists t,
     ({[ Date 2025 10 13 := (0.2, 0.4, 0.6, 0.1, 0.12, 0.14)%float;
         Date 2025 10 14 := (0.5, 0, 0, 0, 0, 0)%float ]}
      : gmap date (kwh_tuple (F := float))) !! Date 2025 10 14 = Some t /\
     forall i, (i < 6)%nat ->
       tuple_get t i
       = (foldl PrimFloat.add 0
            (day_channel 0%float float_of_string (Date 2025 10 14) i scenario_rows)
          / 1000)%float).
Proof. apply (totals_by_date scenario_rows). vm_compute. reflexivity. Defined.

(** ** The order of the rows *)

Lemma elem_of_keys {V : Type} (m : gmap date V) (d : date) :
  d ∈ (map_to_list m).*1 <-> d ∈ dom m.
Proof.
  rewrite elem_of_dom, list_elem_of_fmap. split.
  - intros ([d' v] & -> & Hin). apply elem_of_map_to_list in Hin. by eexists.
  - intros [v Hv]. exists (d, v). split; [done|]. by apply elem_of_map_to_list.
Qed.

(** Mappings with the same dates are printed in the same order. *)
Lemma sorted_keys_dom {V W : Type} (a : gmap date V) (b : gmap date W) :
  dom a = dom b -> sorted_keys a = sorted_keys b.
Proof.
  intros Hd.
  destruct (sorted_keys_ascending a) as [Sa Pa].
  destruct (sorted_keys_ascending b) as [Sb Pb].
  apply (StronglySorted_unique_strong date_lt); [|done|done|].
  - intros [] [] _ _. unfold date_lt. simpl. lia.
  - rewrite Pa, Pb. apply NoDup_Permutation; [apply NoDup_fst_map_to_list..|].
    intros d. by rewrite !elem_of_keys, Hd.
Qed.

(** X5. The dates of the report do not depend on the order of the rows: two
    runs of the aggregator over the same rows in two orders end alike, both
    with a [ValueError] or both with totals for the same dates, printed in
    the same order. *)
Theorem dates_order_independent (rows rows' : list (list string)) :
  rows ≡ₚ rows' ->
  result_rel (fun a b => dom a = dom b /\ sorted_keys a = sorted_keys b)
             (compute_daily_totals rows) (compute_daily_totals rows').
Proof.
  intros Hp.
  pose proof (add_rows_ok_iff 0%float PrimFloat.add float_of_string ∅ rows
                six_sums_empty) as H1.
  pose proof (add_rows_ok_iff 0%float PrimFloat.add float_of_string ∅ rows'
                six_sums_empty) as H2.
  assert (Forall (fun row => (length row < 7)%nat
                             \/ is_ok (read_row float_of_string row) = true) rows
          <-> Forall (fun row => (length row < 7)%nat
                                 \/ is_ok (read_row float_of_string row) = true) rows')
    as HF by (by rewrite Hp).
  rewrite <- HF, <- H1 in H2. clear H1 HF.
  unfold compute_daily_totals. rewrite !compute_daily_totals_with_eq.
  destruct (add_rows _ _ _ ∅ rows) as [t|e] eqn:E,
           (add_rows _ _ _ ∅ rows') as [t'|e'] eqn:E'; simpl in *.
  - assert (dom t = dom t') as Hd.
    { rewrite (add_rows_dom _ _ id _ _ _ _ six_sums_empty E).
      rewrite (add_rows_dom _ _ id _ _ _ _ six_sums_empty E').
      f_equal. unfold dates_seen. by rewrite Hp. }
    assert (dom (kwh_of 0%float (fun v => (v / 1000)%float) <$> t)
            = dom (kwh_of 0%float (fun v => (v / 1000)%float) <$> t')) as Hd'
      by (by rewrite !dom_fmap_L).
    split; [done | by apply sorted_keys_dom].
  - by destruct H2 as [_ H2]; specialize (H2 eq_refl).
  - by destruct H2 as [H2 _]; specialize (H2 eq_refl).
  - transitivity ValueError; [|symmetry];
      (eapply add_rows_error;
        [apply float_of_string_error|apply parse_timestamp_error|
         apply six_sums_empty|eassumption]).
Qed.

Lemma dates_order_independent_witness :
  result_rel (fun a b => dom a = dom b /\ sorted_keys a = sorted_keys b)
    (compute_daily_totals
       [["2025-10-14 00:00:00"; "500"; "0"; "0"; "0"; "0"; "0"];
        ["2025-10-13 00:00:00"; "100"; "200"; "300"; "50"; "60"; "70"]])
    (compute_daily_totals
       [["2025-10-13 00:00:00"; "100"; "200"; "300"; "50"; "60"; "70"];
        ["2025-10-14 00:00:00"; "500"; "0"; "0"; "0"; "0"; "0"]]).
Proof. apply dates_order_independent. apply perm_swap. Defined.

(** ** Blanks around the fields *)

Lemma rstrip_cons_nonspace (c : ascii) (s : string) :
  isspace c = false -> rstrip (String c s) = String c (rstrip s).
Proof. intros Hc. simpl. rewrite Hc. by destruct (rstrip s). Qed.

Lemma lstrip_head (s : string) :
  match lstrip s with
  | String c _ => isspace c = false
  | EmptyString => True
  end.
Proof.
  induction s as [|c s IH]; [done|]. simpl.
  by destruct (isspace c) eqn:E.
Qed.

Lemma rstrip_idem (s : string) : rstrip (rstrip s) = rstrip s.
Proof.
  induction s as [|c s IH]; [done|]. simpl.
  destruct (rstrip s) as [|a b] eqn:E.
  - destruct (isspace c) eqn:Ec; [done|]. simpl. by rewrite Ec.
  - change (rstrip (String c (String a b)))
      with (match rstrip (String a b) with
            | "" => if isspace c then "" else String c ""
            | r => String c r
            end).
    by rewrite IH.
Qed.

Lemma lstrip_rstrip_lstrip (s : string) : lstrip (rstrip (lstrip s)) = rstrip (lstrip s).
Proof.
  pose proof (lstrip_head s) as H. destruct (lstrip s) as [|c t]; [done|].
  rewrite rstrip_cons_nonspace by done. simpl. by rewrite H.
Qed.

Lemma strip_idem (s : string) : strip (strip s) = strip s.
Proof. unfold strip. by rewrite lstrip_rstrip_lstrip, rstrip_idem. Qed.

(** Replacing one character that is no blank by another leaves the blanks
    where they are. *)
Lemma lstrip_replace (old new : ascii) (s : string) :
  isspace old = false -> isspace new = false ->
  lstrip (replace old new s) = replace old new (lstrip s).
Proof.
  intros Ho Hn. induction s as [|c s IH]; [done|]. simpl.
  destruct (Ascii.eqb_spec c old) as [->|Hne].
  - rewrite Hn, Ho. simpl. by rewrite Ascii.eqb_refl.
  - destruct (isspace c) eqn:Ec; [done|]. simpl.
    by destruct (Ascii.eqb_spec c old).
Qed.

Lemma rstrip_replace (old new : ascii) (s : string) :
  isspace old = false -> isspace new = false ->
  rstrip (replace old new s) = replace old new (rstrip s).
Proof.
  intros Ho Hn. induction s as [|c s IH]; [done|]. simpl. rewrite IH.
  assert (isspace (if Ascii.eqb c old then new else c) = isspace c) as Hc.
  { destruct (Ascii.eqb_spec c old) as [->|]; [by rewrite Hn, Ho | done]. }
  rewrite Hc. destruct (rstrip s) as [|a b]; simpl.
  - destruct (isspace c); [done|]. done.
  - done.
Qed.

Lemma strip_replace (old new : ascii) (s : string) :
  isspace old = false -> isspace new = false ->
  strip (replace old new s) = replace old new (strip s).
Proof.
  intros Ho Hn. unfold strip. by rewrite lstrip_replace, rstrip_replace.
Qed.

Lemma parse_timestamp_strip (ts : string) :
  parse_timestamp (strip ts) = parse_timestamp ts.
Proof. unfold parse_timestamp. by rewrite strip_idem. Qed.

(** The blanks of [str.strip] are those of [float] and the four
    separators. *)
Lemma isspace_float_isspace (c : ascii) :
  isspace c = float_isspace c || is_info_separator c.
Proof. by destruct c as [[] [] [] [] [] [] [] []]. Qed.

Lemma no_info_separator_lstrip (s : string) :
  no_info_separator s = true ->
  lstrip s = float_lstrip s /\ no_info_separator (lstrip s) = true.
Proof.
  induction s as [|c s IH]; [done|]. cbn [no_info_separator lstrip float_lstrip].
  intros [Hc Hs]%andb_prop. rewrite isspace_float_isspace.
  destruct (is_info_separator c) eqn:Ec; [done|]. rewrite orb_false_r.
  destruct (float_isspace c); [by apply IH|].
  split; [done|]. cbn [no_info_separator]. by rewrite Ec, Hs.
Qed.

Lemma no_info_separator_rstrip (s : string) :
  no_info_separator s = true ->
  rstrip s = float_rstrip s /\ no_info_separator (rstrip s) = true.
Proof.
  induction s as [|c s IH]; [done|]. cbn [no_info_separator rstrip float_rstrip].
  intros [Hc Hs]%andb_prop. destruct (IH Hs) as [<- Hr].
  rewrite isspace_float_isspace.
  destruct (is_info_separator c) eqn:Ec; [done|]. rewrite orb_false_r.
  split; [done|].
  destruct (rstrip s) as [|a r].
  - destruct (float_isspace c); [done|]. cbn [no_info_separator]. by rewrite Ec.
  - cbn [no_info_separator] in *. by rewrite Ec, Hr.
Qed.

Lemma no_info_separator_strip (s : string) :
  no_info_separator s = true ->
  strip s = float_strip s /\ no_info_separator (strip s) = true.
Proof.
  intros Hs. unfold strip, float_strip.
  destruct (no_info_separator_lstrip s Hs) as [<- Hl].
  by apply no_info_separator_rstrip.
Qed.

Lemma no_info_separator_replace (old new : ascii) (s : string) :
  is_info_separator new = false ->
  no_info_separator s = true -> no_info_separator (replace old new s) = true.
Proof.
  intros Hn. induction s as [|c s IH]; [done|]. cbn [no_info_separator replace].
  intros [Hc Hs]%andb_prop. rewrite IH by done.
  destruct (Ascii.eqb c old); [by rewrite Hn | by rewrite Hc].
Qed.

Lemma float_of_string_strip (s : string) :
  no_info_separator s = true -> float_of_string (strip s) = float_of_string s.
Proof.
  intros Hs. unfold float_of_string.
  destruct (no_info_separator_strip s Hs) as [E Hc].
  destruct (no_info_separator_strip (strip s) Hc) as [<- _].
  by rewrite strip_idem, E.
Qed.

Lemma to_float_strip (s : string) :
  no_info_separator s = true ->
  to_float float_of_string (strip s) = to_float float_of_string s.
Proof.
  intros Hs. unfold to_float. rewrite <- strip_replace by done.
  apply float_of_string_strip. by apply no_info_separator_replace.
Qed.

Lemma getitem_fmap {A B : Type} (g : A -> B) (l : list A) (i : nat)
    (k : B -> result (gmap date (list float))) :
  (getitem (g <$> l) i ≫= k) = (getitem l i ≫= fun a => k (g a)).
Proof. unfold getitem. rewrite list_lookup_fmap. by destruct (l !! i). Qed.

Lemma fold_row_strip (totals : gmap date (list float)) (row : list string) :
  Forall (fun cell => no_info_separator cell = true) row ->
  fold_row totals (strip_cells row) = fold_row totals row.
Proof.
  intros Hrow. rewrite Forall_forall in Hrow.
  unfold fold_row, add_row, strip_cells. rewrite length_fmap.
  destruct (length row <? 7)%nat; [done|].
  unfold getitem. rewrite !list_lookup_fmap.
  destruct (row !! 0%nat) as [f0|]; [|done]. simpl. rewrite parse_timestamp_strip.
  destruct (parse_timestamp f0) as [dt|]; [|done]. simpl.
  repeat match goal with
         | |- context [row !! ?i] =>
             let E := fresh "E" in
             destruct (row !! i) as [?|] eqn:E; [|done]; simpl;
             rewrite to_float_strip
               by (apply Hrow; eapply list_elem_of_lookup_2; eassumption);
             destruct (to_float float_of_string _) as [?|]; [|done]; simpl
         end.
  done.
Qed.

Lemma totals_wh_strip_from (totals : gmap date (list float)) (rows : list (list string)) :
  Forall (Forall (fun cell => no_info_separator cell = true)) rows ->
  add_rows 0%float PrimFloat.add float_of_string totals (strip_cells <$> rows)
  = add_rows 0%float PrimFloat.add float_of_string totals rows.
Proof.
  intros Hrows. revert totals.
  induction Hrows as [|row rows Hrow _ IH]; intros totals; [done|].
  rewrite fmap_cons. cbn [add_rows].
  change (add_row 0%float PrimFloat.add float_of_string totals (strip_cells row))
    with (fold_row totals (strip_cells row)).
  rewrite fold_row_strip by done. unfold fold_row.
  destruct (add_row _ _ _ totals row); [apply IH | done].
Qed.

Lemma is_header_row_strip (row : list string) :
  is_header_row (strip_cells row) = is_header_row row.
Proof.
  unfold is_header_row, getitem, strip_cells. rewrite list_lookup_fmap.
  destruct (row !! 0%nat) as [f0|]; [|done]. simpl. by rewrite parse_timestamp_strip.
Qed.

(** A field that ends in the separator U+001F is a number once stripped,
    and none as it stands: [float] does not skip that blank. *)
Lemma info_separator_not_skipped :
  to_float float_of_string (String "1" (String "031" "")) = Raise ValueError /\
  to_float float_of_string (strip (String "1" (String "031" ""))) = Ok 1%float /\
  to_float float_of_string (String "1" (String "160" "")) = Ok 1%float.
Proof. repeat split; vm_compute; reflexivity. Qed.

(** X6. Blanks around the fields change nothing, the separators
    U+001C..U+001F apart (blanks that [str.strip] removes and [float] does
    not skip): when no field holds one of these, the rows with every field
    stripped (as [read_data] strips them) give the same totals, the same
    header decision and the same report as the rows themselves. *)
Theorem stripped_fields_same_report (rows : list (list string)) :
  Forall (Forall (fun cell => no_info_separator cell = true)) rows ->
  compute_daily_totals (strip_cells <$> rows) = compute_daily_totals rows /\
  strip_header (strip_cells <$> rows) = strip_cells <$> strip_header rows /\
  main (strip_cells <$> rows) = main rows.
Proof.
  intros Hrows.
  assert (forall rs,
            Forall (Forall (fun cell => no_info_separator cell = true)) rs ->
            compute_daily_totals (strip_cells <$> rs) = compute_daily_totals rs)
    as Hc.
  { intros rs Hrs. unfold compute_daily_totals, compute_daily_totals_with.
    by rewrite totals_wh_strip_from. }
  assert (strip_header (strip_cells <$> rows) = strip_cells <$> strip_header rows) as Hh.
  { destruct rows as [|row rows]; [done|]. rewrite fmap_cons.
    unfold strip_header. rewrite is_header_row_strip.
    by destruct (is_header_row row). }
  split; [by apply Hc|]. split; [done|].
  unfold main. rewrite Hh, Hc; [done|].
  unfold strip_header. destruct rows as [|row rows]; [done|].
  destruct (is_header_row row); [by inversion Hrows | done].
Qed.

Lemma stripped_fields_same_report_witness :
  compute_daily_totals
    (strip_cells <$> [[" 2025-10-13 00:00 "; " 100"; "2,5 "; "3"; "4"; "5"; " 6 "]])
  = compute_daily_totals [[" 2025-10-13 00:00 "; " 100"; "2,5 "; "3"; "4"; "5"; " 6 "]] /\
  strip_header
    (strip_cells <$> [[" 2025-10-13 00:00 "; " 100"; "2,5 "; "3"; "4"; "5"; " 6 "]])
  = strip_cells
      <$> strip_header [[" 2025-10-13 00:00 "; " 100"; "2,5 "; "3"; "4"; "5"; " 6 "]] /\
  main (strip_cells <$> [[" 2025-10-13 00:00 "; " 100"; "2,5 "; "3"; "4"; "5"; " 6 "]])
  = main [[" 2025-10-13 00:00 "; " 100"; "2,5 "; "3"; "4"; "5"; " 6 "]].
Proof.
  apply stripped_fields_same_report. repeat constructor.
Defined.

(** ** The rows that [read_data] returns *)

Lemma all_blank_strip_cells (row : list string) :
  forallb (fun cell => String.eqb (strip cell) "") (strip_cells row)
  = forallb (fun cell => String.eqb (strip cell) "") row.
Proof.
  induction row as [|cell row IH]; [done|].
  unfold strip_cells in *. rewrite fmap_cons. cbn [forallb].
  by rewrite strip_idem, IH.
Qed.

Lemma not_all_blank (row : list string) :
  forallb (fun cell => String.eqb (strip cell) "") row = false ->
  Exists (fun cell => cell <> "") (strip_cells row).
Proof.
  induction row as [|cell row IH]; [done|]. cbn [forallb].
  unfold strip_cells in *. rewrite fmap_cons.
  destruct (String.eqb_spec (strip cell) "") as [E|E]; simpl.
  - intros H. apply Exists_cons_tl. by apply IH.
  - intros _. by apply Exists_cons_hd.
Qed.

(** X7. Every row that [read_data] returns has a cell that is not empty, and
    every cell of it is stripped (stripping it again changes nothing); and
    cleaning rows that were already cleaned returns them unchanged. *)
Theorem read_data_rows_clean (reader : list (list string)) :
  Forall (fun row => Forall (fun cell => strip cell = cell) row /\
                     Exists (fun cell => cell <> "") row)
         (read_data_rows reader) /\
  read_data_rows (read_data_rows reader) = read_data_rows reader.
Proof.
  induction reader as [|row reader [IH1 IH2]]; [by split; [constructor|]|].
  cbn [read_data_rows].
  destruct (bool_decide (row = []) || forallb _ row) eqn:E; [done|].
  apply orb_false_iff in E as [Hne Hb].
  split.
  - constructor; [|done]. split; [|by apply not_all_blank].
    unfold strip_cells. apply Forall_fmap, Forall_forall. intros cell _.
    apply strip_idem.
  - cbn [read_data_rows].
    assert (bool_decide (strip_cells row = []) = false) as ->.
    { apply bool_decide_eq_false. apply bool_decide_eq_false in Hne.
      unfold strip_cells. by destruct row. }
    rewrite all_blank_strip_cells, Hb. cbn [orb]. rewrite IH2. f_equal.
    unfold strip_cells. rewrite <- list_fmap_compose.
    apply list_fmap_ext. intros i cell _. apply strip_idem.
Qed.

(** ** Headers *)

Lemma strptime_no_digit (text fmt : string) (ds : list directive) :
  starts_with_digit text = false -> compile_format fmt = D_Y :: ds ->
  strptime text fmt = Raise ValueError.
Proof.
  intros Hd Hf. unfold strptime. rewrite Hf. cbn [match_directives].
  assert (match_directive D_Y fields_default text = []) as ->; [|done].
  unfold match_directive, match_alt. cbn [directive_regex omap list_omap].
  destruct text as [|c text]; [done|]. simpl in Hd. simpl. by rewrite Hd.
Qed.

Lemma fromisoformat_no_digit (s : string) :
  starts_with_digit s = false -> fromisoformat s = Raise ValueError.
Proof.
  intros Hd. unfold fromisoformat, parse_isoformat_date.
  destruct s as [|c s]; [done|]. simpl in Hd. simpl. by rewrite Hd.
Qed.

Lemma starts_with_digit_replace (old new : ascii) (s : string) :
  isdigit new = false -> starts_with_digit s = false ->
  starts_with_digit (replace old new s) = false.
Proof.
  intros Hn. destruct s as [|c s]; [done|]. simpl.
  by destruct (Ascii.eqb c old).
Qed.

(** X8. A first field that, blanks apart, does not start with a digit (a
    column title, an empty cell) is no timestamp, and the row that starts
    with it is taken for a header. *)
Theorem title_is_header (ts : string) (fields : list string) :
  starts_with_digit (strip ts) = false ->
  parse_timestamp ts = Raise ValueError /\ is_header_row (ts :: fields) = true.
Proof.
  intros Hd.
  assert (parse_timestamp ts = Raise ValueError) as Hp.
  { assert (starts_with_digit (replace "T" " " (strip ts)) = false) as Ht
      by (by apply starts_with_digit_replace).
    unfold parse_timestamp. cbn [try_formats].
    rewrite (strptime_no_digit _ "%Y-%m-%d %H:%M:%S" _ Ht eq_refl).
    rewrite (strptime_no_digit _ "%Y-%m-%d %H:%M" _ Ht eq_refl).
    by apply fromisoformat_no_digit. }
  split; [done|]. unfold is_header_row. cbn. by rewrite Hp.
Qed.

Lemma title_is_header_witness :
  parse_timestamp "  Aika (Time) " = Raise ValueError /\
  is_header_row ("  Aika (Time) " :: ["Kulutus v1"; "v2"]) = true.
Proof. apply title_is_header. reflexivity. Defined.

(** ** Decimal commas *)

Lemma replace_replace (a b : ascii) (s : string) :
  replace a b (replace b a s) = replace a b s.
Proof.
  induction s as [|c s IH]; [done|]. simpl. rewrite IH. f_equal.
  destruct (Ascii.eqb_spec c b) as [->|Hb].
  - rewrite Ascii.eqb_refl. by destruct (Ascii.eqb_spec b a) as [->|].
  - done.
Qed.

(** X9. A number is read the same whether its decimal separator is a comma
    or a point: writing the points of a field as commas does not change the
    value read, or the failure to read one. *)
Theorem decimal_comma_as_point (s : string) :
  to_float float_of_string (replace "." "," s) = to_float float_of_string s.
Proof. unfold to_float. by rewrite replace_replace. Qed.

(** ** Timestamps written and read back *)

Lemma zfill_4 (y : Z) :
  0 <= y < 10000 ->
  zfill 4 y = String (digit_char (y / 1000)) (String (digit_char (y / 100 mod 10))
                (String (digit_char (y / 10 mod 10)) (String (digit_char (y mod 10)) ""))).
Proof.
  intros Hy.
  assert (bool_decide
            (Forall (fun y => zfill 4 y
               = String (digit_char (y / 1000)) (String (digit_char (y / 100 mod 10))
                   (String (digit_char (y / 10 mod 10)) (String (digit_char (y mod 10)) ""))))
                    (seqZ 0 10000)) = true) as Hall by (vm_compute; reflexivity).
  apply bool_decide_eq_true in Hall.
  eapply Forall_forall in Hall; [exact Hall|]. apply elem_of_seqZ. lia.
Qed.

Lemma digit_val_digit_char (k : Z) : 0 <= k < 10 -> digit_val (digit_char k) = k.
Proof.
  intros H.
  assert (k = 0 \/ k = 1 \/ k = 2 \/ k = 3 \/ k = 4 \/ k = 5 \/ k = 6 \/ k = 7 \/
          k = 8 \/ k = 9) as Hk by lia.
  by destruct Hk as [->|[->|[->|[->|[->|[->|[->|[->|[->| ->]]]]]]]]].
Qed.

Lemma digit_not_special (c : ascii) :
  isdigit c = true ->
  isspace c = false /\ Ascii.eqb c "T" = false /\ Ascii.eqb c ":" = false.
Proof. by destruct c as [[] [] [] [] [] [] [] []]. Qed.

Lemma first_match_step d ds f s f' rest tl r :
  match_directive d f s = (f', rest) :: tl ->
  first_match ds f' rest = Some r ->
  first_match (d :: ds) f s = Some r.
Proof.
  unfold first_match. cbn [match_directives]. intros -> Hr. cbn.
  destruct (match_directives ds f' rest); [done|]. by simplify_eq/=.
Qed.

Lemma strptime_first_match text fmt f :
  first_match (compile_format fmt) fields_default text = Some (f, "") ->
  strptime text fmt = mk_datetime (f_Y f) (f_m f) (f_d f) (f_H f) (f_M f) (f_S f) 0 None.
Proof.
  unfold first_match, strptime.
  destruct (match_directives _ _ _) as [|[f' rest] ?]; [done|]. by intros [= -> ->].
Qed.

(** Each directive, on the zero-padded number it stands for. *)
Lemma match_year y f rest :
  0 <= y < 10000 ->
  match_directive D_Y f (zfill 4 y +:+ rest) = [(set_field D_Y y f, rest)].
Proof.
  intros Hy. rewrite zfill_4 by done.
  assert (0 <= y / 1000 < 10 /\ 0 <= y / 100 mod 10 < 10 /\
          0 <= y / 10 mod 10 < 10 /\ 0 <= y mod 10 < 10) as (H1 & H2 & H3 & H4).
  { repeat split; try apply Z.mod_pos_bound; try lia;
      [apply Z.div_pos; lia | apply Z.div_lt_upper_bound; lia]. }
  unfold match_directive, match_alt. cbn [directive_regex omap list_omap].
  rewrite !append_cons, append_nil_l. cbn [match_seq].
  rewrite !isdigit_digit_char by done. cbn.
  rewrite !isdigit_digit_char, !digit_val_digit_char by done.
  do 3 f_equal. clear H1 H2 H3 H4. Z.div_mod_to_equations. lia.
Qed.

Ltac enum_range v lo n :=
  let H := fresh "Hin" in
  assert (v ∈ seqZ lo n) as H by (apply elem_of_seqZ; lia);
  let l := eval vm_compute in (seqZ lo n) in
  change (seqZ lo n) with l in H;
  repeat (apply elem_of_cons in H as [->|H]);
  [..|by apply elem_of_nil in H].

Lemma match_month v f rest :
  1 <= v <= 12 ->
  exists tl, match_directive D_m f (zfill 2 v +:+ rest) = (set_field D_m v f, rest) :: tl.
Proof. intros Hv. enum_range v 1 12; by eexists. Qed.

Lemma match_day v f rest :
  1 <= v <= 31 ->
  exists tl, match_directive D_d f (zfill 2 v +:+ rest) = (set_field D_d v f, rest) :: tl.
Proof. intros Hv. enum_range v 1 31; by eexists. Qed.

Lemma match_hour v f rest :
  0 <= v <= 23 ->
  exists tl, match_directive D_H f (zfill 2 v +:+ rest) = (set_field D_H v f, rest) :: tl.
Proof. intros Hv. enum_range v 0 24; by eexists. Qed.

Lemma match_minute v f rest :
  0 <= v <= 59 ->
  exists tl, match_directive D_M f (zfill 2 v +:+ rest) = (set_field D_M v f, rest) :: tl.
Proof. intros Hv. enum_range v 0 60; by eexists. Qed.

Lemma match_second v f rest :
  0 <= v <= 59 ->
  exists tl, match_directive D_S f (zfill 2 v +:+ rest) = (set_field D_S v f, rest) :: tl.
Proof. intros Hv. enum_range v 0 60; by eexists. Qed.

Lemma match_lit c f rest :
  match_directive (D_lit c) f (String c rest) = [(f, rest)].
Proof.
  unfold match_directive, match_alt. cbn. by rewrite Ascii.eqb_refl.
Qed.

Lemma match_ws v f rest :
  0 <= v < 100 ->
  match_directive D_ws f (String " " (zfill 2 v +:+ rest)) = [(f, zfill 2 v +:+ rest)].
Proof.
  intros Hv. rewrite zfill_2 by done. rewrite append_cons.
  unfold match_directive. cbn [ws_runs].
  assert (isdigit (digit_char (v / 10)) = true) as Hd.
  { apply isdigit_digit_char. Z.div_mod_to_equations. lia. }
  apply digit_not_special in Hd as (Hs & _ & _).
  change (isspace " ") with true. cbn iota. rewrite Hs. done.
Qed.

(** A text with fewer colons than the format asks for matches in no way. *)
Lemma match_seq_count (cs : list cls) (s m rest : string) :
  Forall (fun k => k ":"%char = false) cs ->
  match_seq cs s = Some (m, rest) -> count_char ":" rest = count_char ":" s.
Proof.
  intros Hcs. revert s m. induction Hcs as [|k cs Hk _ IH]; intros s m; simpl.
  - by intros [= _ <-].
  - destruct s as [|c s]; [done|]. destruct (k c) eqn:Ekc; [|done].
    destruct (match_seq cs s) as [[m' rest']|] eqn:E; [|done].
    simpl. intros [= _ <-]. rewrite (IH _ _ E).
    destruct (Ascii.eqb_spec c ":") as [->|]; [congruence | done].
Qed.

Lemma ws_runs_count (s rest : string) :
  rest ∈ ws_runs s -> count_char ":" rest = count_char ":" s.
Proof.
  induction s as [|c s IH]; simpl; [by intros ?%elem_of_nil|].
  destruct (isspace c) eqn:Ec; [|by intros ?%elem_of_nil].
  assert (Ascii.eqb c ":" = false) as ->.
  { destruct (Ascii.eqb_spec c ":") as [->|]; [done | done]. }
  intros [H|H]%elem_of_app; [by apply IH|].
  by apply list_elem_of_singleton in H as ->.
Qed.

Lemma match_directive_count (d : directive) (f f' : fields) (s rest : string) :
  (f', rest) ∈ match_directive d f s ->
  (count_colons [d] + count_char ":" rest)%nat = count_char ":" s.
Proof.
  assert (forall alts,
            Forall (Forall (fun k : cls => k ":"%char = false)) alts ->
            (f', rest) ∈ ((fun '(m, rest) =>
                (set_field d (int_of_digits 0 m) f, rest)) <$> match_alt alts s) ->
            count_char ":" rest = count_char ":" s) as Halt.
  { intros alts Ha Hin. apply list_elem_of_fmap in Hin as ([m r] & [= _ ->] & Hin).
    unfold match_alt in Hin. apply list_elem_of_omap in Hin as (cs & Hcs & Hm).
    eapply match_seq_count; [|exact Hm]. by eapply Forall_forall in Ha. }
  unfold match_directive.
  destruct d; try (intros Hin; cbn [count_colons]; rewrite Nat.add_0_l; revert Hin;
                   apply Halt; by repeat constructor).
  - (* a literal *)
    cbn [count_colons]. destruct (Ascii.eqb_spec c ":") as [->|Hne].
    + intros Hin. apply list_elem_of_fmap in Hin as ([m r] & [= _ ->] & Hin).
      unfold match_alt in Hin. apply list_elem_of_omap in Hin as (cs & Hcs & Hm).
      apply list_elem_of_singleton in Hcs as ->.
      destruct s as [|x s]; [done|].
      change (match_seq [Ascii.eqb ":"] (String x s))
        with (if Ascii.eqb ":" x then Some (String x "", s) else None) in Hm.
      destruct (Ascii.eqb_spec ":" x) as [<-|]; [|done].
      injection Hm as _ <-. done.
    + intros Hin. rewrite !Nat.add_0_l. revert Hin. apply Halt.
      repeat constructor. by destruct (Ascii.eqb_spec c ":").
  - (* blanks *)
    intros Hin. apply list_elem_of_fmap in Hin as (r & [= _ ->] & Hin).
    cbn [count_colons]. rewrite Nat.add_0_l. by apply ws_runs_count.
Qed.

Lemma count_colons_cons (d : directive) (ds : list directive) :
  count_colons (d :: ds) = (count_colons [d] + count_colons ds)%nat.
Proof. destruct d; cbn [count_colons]; lia. Qed.

Lemma match_directives_count (ds : list directive) (f f' : fields) (s rest : string) :
  (f', rest) ∈ match_directives ds f s ->
  (count_colons ds + count_char ":" rest)%nat = count_char ":" s.
Proof.
  revert f s. induction ds as [|d ds IH]; intros f s.
  - cbn. by intros [= _ ->]%list_elem_of_singleton.
  - cbn [match_directives]. intros Hin.
    apply list_elem_of_bind in Hin as ([f1 r1] & Hin & H1).
    apply IH in Hin. apply match_directive_count in H1.
    rewrite count_colons_cons. lia.
Qed.

Lemma strptime_few_colons (text fmt : string) :
  (count_char ":" text < count_colons (compile_format fmt))%nat ->
  strptime text fmt = Raise ValueError.
Proof.
  intros Hlt. unfold strptime.
  destruct (match_directives _ _ _) as [|[f rest] tl] eqn:E; [done|].
  assert ((f, rest) ∈ match_directives (compile_format fmt) fields_default text) as Hin
    by (rewrite E; apply list_elem_of_here).
  apply match_directives_count in Hin. lia.
Qed.

Lemma valid_date_range (d : date) :
  valid_date d = true ->
  1 <= year d <= 9999 /\ 1 <= month d <= 12 /\ 1 <= day d <= 31.
Proof.
  unfold valid_date. intros H.
  repeat (apply andb_prop in H as [H ?]).
  assert (days_in_month (year d) (month d) <= 31).
  { unfold days_in_month. destruct (is_leap _); repeat case_match; lia. }
  lia.
Qed.

Lemma valid_time_range (h mi s us : Z) :
  valid_time h mi s us = true -> 0 <= h <= 23 /\ 0 <= mi <= 59 /\ 0 <= s <= 59.
Proof.
  unfold valid_time. intros H. repeat (apply andb_prop in H as [H ?]). lia.
Qed.

Lemma rstrip_cons_nonempty (c : ascii) (s : string) :
  rstrip s <> "" -> rstrip (String c s) = String c (rstrip s).
Proof. intros H. simpl. by destruct (rstrip s). Qed.

Lemma first_match_step_ex d ds f s f' rest r :
  (exists tl, match_directive d f s = (f', rest) :: tl) ->
  first_match ds f' rest = Some r ->
  first_match (d :: ds) f s = Some r.
Proof. intros [tl E]. by apply first_match_step with tl. Qed.

(** The digits of the written timestamp, named, with what the parser's
    cleaning asks of them. *)
Ltac name_digits :=
  repeat match goal with
    | |- context [digit_char ?k] =>
        let c := fresh "c" in
        let H := fresh "Hc" in
        assert (isdigit (digit_char k) = true) as H
          by (apply isdigit_digit_char; Z.div_mod_to_equations; lia);
        apply digit_not_special in H as (? & ? & ?);
        set (c := digit_char k) in *; clearbody c
    end.

Ltac spell_timestamp :=
  unfold write_timestamp;
  rewrite zfill_4, !zfill_2 by lia;
  rewrite !append_cons, !append_nil_l.

Section WrittenTimestamp.
Variables (d : date) (h mi : Z) (sec : option Z).
Hypothesis Hd : valid_date d = true.
Hypothesis Ht : valid_time h mi (default 0 sec) 0 = true.

Lemma write_timestamp_strip (sep : ascii) :
  sep = " "%char \/ sep = "T"%char ->
  strip (write_timestamp sep d h mi sec) = write_timestamp sep d h mi sec.
Proof.
  intros Hsep.
  destruct (valid_date_range _ Hd) as (Hy & Hm & Hdd).
  destruct (valid_time_range _ _ _ _ Ht) as (Hh & Hmi & Hs).
  destruct sec as [s|]; simpl in Hs; spell_timestamp; name_digits.
  - unfold strip. cbn [lstrip]. rewrite H.
    destruct Hsep as [-> | ->];
      repeat first [ rewrite rstrip_cons_nonspace by done
                   | rewrite rstrip_cons_nonempty
                       by (by rewrite rstrip_cons_nonspace by done) ]; done.
  - unfold strip. cbn [lstrip]. rewrite H.
    destruct Hsep as [-> | ->];
      repeat first [ rewrite rstrip_cons_nonspace by done
                   | rewrite rstrip_cons_nonempty
                       by (by rewrite rstrip_cons_nonspace by done) ]; done.
Qed.

Lemma write_timestamp_replace (sep : ascii) :
  sep = " "%char \/ sep = "T"%char ->
  replace "T" " " (write_timestamp sep d h mi sec) = write_timestamp " " d h mi sec.
Proof.
  intros Hsep.
  destruct (valid_date_range _ Hd) as (Hy & Hm & Hdd).
  destruct (valid_time_range _ _ _ _ Ht) as (Hh & Hmi & Hs).
  destruct sec as [s|]; simpl in Hs; spell_timestamp; name_digits;
    cbn [replace];
    repeat match goal with
      | E : Ascii.eqb ?c "T" = false |- context [Ascii.eqb ?c "T"] => rewrite E
      end;
    by destruct Hsep as [-> | ->].
Qed.

Lemma write_timestamp_colons :
  sec = None -> count_char ":" (write_timestamp " " d h mi sec) = 1%nat.
Proof.
  intros ->.
  destruct (valid_date_range _ Hd) as (Hy & Hm & Hdd).
  destruct (valid_time_range _ _ _ _ Ht) as (Hh & Hmi & Hs).
  spell_timestamp; name_digits. cbn [count_char].
  repeat match goal with
    | E : Ascii.eqb ?c ":" = false |- context [Ascii.eqb ?c ":"] => rewrite E
    end.
  done.
Qed.

(** The way the first format reads a timestamp written with seconds, and
    the second format one written without. *)
Lemma first_match_written :
  first_match
    (compile_format match sec with
                    | Some _ => "%Y-%m-%d %H:%M:%S"
                    | None => "%Y-%m-%d %H:%M"
                    end)
    fields_default (write_timestamp " " d h mi sec)
  = Some (Fields (year d) (month d) (day d) h mi (default 0 sec), "").
Proof.
  destruct (valid_date_range _ Hd) as (Hy & Hm & Hdd).
  destruct (valid_time_range _ _ _ _ Ht) as (Hh & Hmi & Hs).
  unfold write_timestamp.
  destruct sec as [s|]; simpl in Hs.
  - change (compile_format "%Y-%m-%d %H:%M:%S")
      with [D_Y; D_lit "-"; D_m; D_lit "-"; D_d; D_ws; D_H; D_lit ":"; D_M;
            D_lit ":"; D_S].
    eapply first_match_step; [apply match_year; lia|].
    eapply first_match_step; [apply match_lit|].
    eapply first_match_step_ex; [apply match_month; lia|].
    eapply first_match_step; [apply match_lit|].
    eapply first_match_step_ex; [apply match_day; lia|].
    eapply first_match_step; [apply match_ws; lia|].
    eapply first_match_step_ex; [apply match_hour; lia|].
    eapply first_match_step; [apply match_lit|].
    eapply first_match_step_ex; [apply match_minute; lia|].
    eapply first_match_step; [apply match_lit|].
    rewrite <- (append_nil_r (zfill 2 s)).
    eapply first_match_step_ex; [apply match_second; lia|].
    by destruct d.
  - change (compile_format "%Y-%m-%d %H:%M")
      with [D_Y; D_lit "-"; D_m; D_lit "-"; D_d; D_ws; D_H; D_lit ":"; D_M].
    eapply first_match_step; [apply match_year; lia|].
    eapply first_match_step; [apply match_lit|].
    eapply first_match_step_ex; [apply match_month; lia|].
    eapply first_match_step; [apply match_lit|].
    eapply first_match_step_ex; [apply match_day; lia|].
    eapply first_match_step; [apply match_ws; lia|].
    eapply first_match_step_ex; [apply match_hour; lia|].
    eapply first_match_step; [apply match_lit|].
    eapply first_match_step_ex; [apply match_minute; lia|].
    by destruct d.
Qed.
End WrittenTimestamp.

(** X10.  A timestamp written in one of the four forms that the docstring
    of [parse_timestamp] lists - the date as [YYYY-MM-DD], a blank or a [T],
    the time as [HH:MM] or [HH:MM:SS], every field zero-padded - is read
    back as that date and time: the seconds are 0 when none were written,
    the microseconds are 0 and there is no time zone. *)
Theorem timestamp_round_trip (sep : ascii) (d : date) (h mi : Z) (sec : option Z) :
  sep = " "%char \/ sep = "T"%char ->
  valid_date d = true ->
  valid_time h mi (default 0 sec) 0 = true ->
  parse_timestamp (write_timestamp sep d h mi sec)
  = Ok (DateTime d h mi (default 0 sec) 0 None).
Proof.
  intros Hsep Hd Ht. unfold parse_timestamp.
  rewrite write_timestamp_strip, write_timestamp_replace by done.
  pose proof (first_match_written d h mi sec Hd Ht) as Hfm.
  apply strptime_first_match in Hfm. cbn [f_Y f_m f_d f_H f_M f_S] in Hfm.
  assert (mk_datetime (year d) (month d) (day d) h mi (default 0 sec) 0 None
          = Ok (DateTime d h mi (default 0 sec) 0 None)) as Hmk.
  { unfold mk_datetime. destruct d as [y m dd]. cbn [year month day] in *.
    by rewrite Hd, Ht. }
  rewrite Hmk in Hfm.
  destruct sec as [s|].
  - cbn [try_formats]. by rewrite Hfm.
  - cbn [try_formats].
    rewrite strptime_few_colons.
    + by rewrite Hfm.
    + rewrite write_timestamp_colons by done. vm_compute. lia.
Qed.

Lemma timestamp_round_trip_witness :
  parse_timestamp "2025-10-13T00:00"
  = Ok (DateTime (Date 2025 10 13) 0 0 0 0 None).
Proof.
  exact (timestamp_round_trip "T" (Date 2025 10 13) 0 0 None
           (or_intror eq_refl) eq_refl eq_refl).
Defined.

Lemma length_spaces (n : nat) : String.length (spaces n) = n.
Proof. induction n as [|n IH]; [done|]. simpl. by f_equal. Qed.

Lemma length_ljust (w : nat) (s : string) :
  String.length (ljust w s) = (w `max` String.length s)%nat.
Proof. unfold ljust. rewrite length_append, length_spaces. lia. Qed.

Lemma length_rjust (w : nat) (s : string) :
  String.length (rjust w s) = (w `max` String.length s)%nat.
Proof. unfold rjust. rewrite length_append, length_spaces. lia. Qed.

Lemma str_of_int_4 (y : Z) : 1000 <= y < 10000 -> str_of_int y = zfill 4 y.
Proof.
  intros Hy.
  assert (bool_decide
            (Forall (fun y => str_of_int y = zfill 4 y) (seqZ 1000 9000)) = true)
    as Hall by (vm_compute; reflexivity).
  apply bool_decide_eq_true in Hall.
  eapply Forall_forall in Hall; [exact Hall|]. apply elem_of_seqZ. lia.
Qed.

Lemma length_strftime_dmY (d : date) :
  valid_date d = true -> 1000 <= year d ->
  String.length (strftime_dmY d) = 10%nat.
Proof.
  intros (Hy & Hm & Hd)%valid_date_range Hy4. unfold strftime_dmY.
  rewrite str_of_int_4, zfill_4, !zfill_2 by lia. by rewrite !length_append.
Qed.

Lemma weekday_name_short (d : date) :
  exists name, FINNISH_WEEKDAYS !! weekday d = Some name /\
               (String.length name <= 12)%nat.
Proof.
  pose proof (weekday_range d) as H.
  assert (weekday d = 0 \/ weekday d = 1 \/ weekday d = 2 \/ weekday d = 3 \/
          weekday d = 4 \/ weekday d = 5 \/ weekday d = 6) as Hk by lia.
  destruct Hk as [->|[->|[->|[->|[->|[->| ->]]]]]];
    (eexists; split; [reflexivity | simpl; lia]).
Qed.

(** X11.  The line of the report for a date with a year of four digits: the
    weekday name and the date as dd.mm.yyyy fill the first 26 columns; the
    six numbers that follow take at least 51 columns, and exactly 51 - so
    that the line is 77 characters wide and the columns stand under one
    another - when each number is written with at most six characters. *)
Theorem report_line_width (daily : gmap date (kwh_tuple (F := float))) (d : date)
    (t : kwh_tuple (F := float)) :
  valid_date d = true ->
  1000 <= year d ->
  daily !! d = Some t ->
  exists name line,
    FINNISH_WEEKDAYS !! weekday d = Some name /\
    report_line daily d
    = Ok (ljust 12 name +:+ " " +:+ strftime_dmY d +:+ "   " +:+ line) /\
    String.length (ljust 12 name +:+ " " +:+ strftime_dmY d +:+ "   ") = 26%nat /\
    (51 <= String.length line)%nat /\
    ((forall i, (i < 6)%nat ->
        (String.length (to_finnish_number (tuple_get t i)) <= 6)%nat) ->
     String.length line = 51%nat).
Proof.
  intros Hv Hy Hd.
  destruct (weekday_name_short d) as (name & Hname & Hlen).
  destruct t as [[[[[c1 c2] c3] p1] p2] p3].
  exists name. eexists. split; [done|].
  pose proof (length_strftime_dmY d Hv Hy) as Hdate.
  split; [|split; [|split]].
  - unfold report_line. rewrite Hname. unfold kwh_tuple in *. rewrite Hd.
    cbn [mbind result_bind]. unfold ljust at 2. rewrite Hdate.
    change (spaces (10 - 10)) with "". rewrite append_nil_r. reflexivity.
  - rewrite !length_append, length_ljust, Hdate. simpl. lia.
  - rewrite !length_append, !length_rjust. simpl. lia.
  - intros Hfit.
    pose proof (Hfit 0%nat ltac:(lia)). pose proof (Hfit 1%nat ltac:(lia)).
    pose proof (Hfit 2%nat ltac:(lia)). pose proof (Hfit 3%nat ltac:(lia)).
    pose proof (Hfit 4%nat ltac:(lia)). pose proof (Hfit 5%nat ltac:(lia)).
    cbn [tuple_get] in *.
    rewrite !length_append, !length_rjust. simpl. lia.
Qed.

Lemma report_line_width_witness :
  exists name line,
    FINNISH_WEEKDAYS !! weekday (Date 2025 10 14) = Some name /\
    report_line {[ Date 2025 10 14 := (12.5, 1.25, 3.5, 0, 0.07, 2)%float ]}
                (Date 2025 10 14)
    = Ok (ljust 12 name +:+ " " +:+ strftime_dmY (Date 2025 10 14) +:+ "   " +:+ line) /\
    String.length (ljust 12 name +:+ " " +:+ strftime_dmY (Date 2025 10 14) +:+ "   ")
    = 26%nat /\
    (51 <= String.length line)%nat /\
    ((forall i, (i < 6)%nat ->
        (String.length
           (to_finnish_number
              (tuple_get (12.5, 1.25, 3.5, 0, 0.07, 2)%float i)) <= 6)%nat) ->
     String.length line = 51%nat).
Proof.
  apply (report_line_width
           {[ Date 2025 10 14 := (12.5, 1.25, 3.5, 0, 0.07, 2)%float ]}
           (Date 2025 10 14) (12.5, 1.25, 3.5, 0, 0.07, 2)%float);
    [reflexivity | simpl; lia | vm_compute; reflexivity].
Defined.

(** * The totals against the exact sums

    The sums of the program are binary64 sums.  What follows bounds their
    distance to the sums of the numbers that the fields write: every
    rounding of [SpecFloat] is followed on both sides, one part in 2^52 of
    the exact result being allowed for each. *)

(** ** Rounding to binary64, on both sides *)

Lemma shr_record_of_loc_m m l : shr_m (shr_record_of_loc m l) = m.
Proof. by destruct l as [|[]]. Qed.

Lemma loc_of_shr_record_of_loc m l : loc_of_shr_record (shr_record_of_loc m l) = l.
Proof. by destruct l as [|[]]. Qed.

(** One cut of [binary_round_aux], whatever the position of the exact value
    it started from. *)
Lemma shr_fexp_cut m e l mrs e' :
  0 <= m ->
  shr_fexp prec emax m e l = (mrs, e') ->
  0 <= fexp prec emax (Zdigits2 m + e) - e ->
  shr_m mrs = m / 2 ^ (fexp prec emax (Zdigits2 m + e) - e) /\
  e' = fexp prec emax (Zdigits2 m + e) /\
  (fexp prec emax (Zdigits2 m + e) - e = 0 -> loc_of_shr_record mrs = l).
Proof.
  intros Hm. unfold shr_fexp, shr.
  destruct (fexp prec emax (Zdigits2 m + e) - e) as [|p|p] eqn:Ek;
    intros [= <- <-] Hk.
  - rewrite shr_record_of_loc_m, loc_of_shr_record_of_loc.
    rewrite Z.pow_0_r, Z.div_1_r. split; [done|]. split; [lia|done].
  - rewrite iter_shr_1 by (by rewrite shr_record_of_loc_m).
    rewrite shr_record_of_loc_m. split; [done|]. split; [lia|done].
  - lia.
Qed.

Lemma Zdigits2_bounds m : 0 < m -> 2 ^ (Zdigits2 m - 1) <= m < 2 ^ Zdigits2 m.
Proof. destruct m as [|p|p]; [lia| |lia]. intros _. apply digits2_pos_bounds. Qed.

Lemma Zdigits2_pos m : 0 < m -> 0 < Zdigits2 m.
Proof. destruct m as [|p|p]; simpl; lia. Qed.

Lemma Zdigits2_le m n : 0 < m -> 0 <= n -> m < 2 ^ n -> Zdigits2 m <= n.
Proof.
  intros Hm Hn Hlt. pose proof (Zdigits2_bounds m Hm) as [Hlo _].
  pose proof (Zdigits2_pos m Hm).
  destruct (Z_le_gt_dec (Zdigits2 m) n) as [|Hgt]; [done|].
  assert (2 ^ n <= 2 ^ (Zdigits2 m - 1)) by (apply Z.pow_le_mono_r; lia). lia.
Qed.

Lemma Zdigits2_ge m n : 0 <= n -> 2 ^ n <= m -> n + 1 <= Zdigits2 m.
Proof.
  intros Hn Hle. assert (0 < m) as Hm by (pose proof (pow2_pos n Hn); lia).
  pose proof (Zdigits2_bounds m Hm) as [_ Hhi].
  destruct (Z_le_gt_dec (n + 1) (Zdigits2 m)) as [|Hgt]; [done|].
  assert (2 ^ Zdigits2 m <= 2 ^ n) by (apply Z.pow_le_mono_r; lia). lia.
Qed.

(** What a cut leaves: fewer than 54 bits, and 53 of them unless the
    exponent is the lowest one. *)
Lemma cut_props m e :
  0 <= m ->
  0 <= fexp prec emax (Zdigits2 m + e) - e ->
  m / 2 ^ (fexp prec emax (Zdigits2 m + e) - e) < 2 ^ 53 /\
  (fexp prec emax (Zdigits2 m + e) = -1074 \/
   2 ^ 52 <= m / 2 ^ (fexp prec emax (Zdigits2 m + e) - e)).
Proof.
  intros Hm. rewrite fexp_eq. intros Hk.
  set (k := Z.max (Zdigits2 m + e - 53) (-1074) - e) in *.
  assert (0 < 2 ^ k) as Pk by (apply pow2_pos; lia).
  destruct (Z.eq_dec m 0) as [->|Hne].
  - simpl in *. split; [rewrite Z.div_0_l by lia; lia|]. left. lia.
  - assert (0 < m) as Hpos by lia.
    pose proof (Zdigits2_bounds m Hpos) as [Hlo Hhi].
    pose proof (Zdigits2_pos m Hpos) as Hd.
    destruct (Z_le_gt_dec (-1074) (Zdigits2 m + e - 53)) as [Hn|Hs].
    + assert (k = Zdigits2 m - 53) as Ek by lia.
      split.
      * apply Z.div_lt_upper_bound; [done|].
        rewrite <- pow2_split by lia. replace (k + 53) with (Zdigits2 m) by lia. done.
      * right. apply Z.div_le_lower_bound; [done|].
        rewrite <- pow2_split by lia. replace (k + 52) with (Zdigits2 m - 1) by lia. done.
    + split; [|left; lia].
      apply Z.div_lt_upper_bound; [done|].
      rewrite <- pow2_split by lia.
      eapply Z.lt_le_trans; [exact Hhi|]. apply Z.pow_le_mono_r; lia.
Qed.

Lemma round_nearest_even_le m l : round_nearest_even m l <= m + 1.
Proof. destruct l as [|[]]; simpl; try lia. destruct (Z.even m); lia. Qed.

(** [binary_round_aux], for a mantissa that has the bits of the format or
    more: the mantissa is cut to [m1], then [m1] or [m1 + 1] is taken, and
    the result is that number, or an infinity when it is beyond the
    format. *)
Lemma binary_round_aux_spec s m e l :
  0 <= m ->
  0 <= fexp prec emax (Zdigits2 m + e) - e ->
  exists m2,
    m / 2 ^ (fexp prec emax (Zdigits2 m + e) - e) <= m2
      <= m / 2 ^ (fexp prec emax (Zdigits2 m + e) - e) + 1 /\
    (fexp prec emax (Zdigits2 m + e) - e = 0 -> l = loc_Exact -> m2 = m) /\
    ((m2 = 0 /\ binary_round_aux prec emax s m e l = S754_zero s) \/
     (exists p e3,
        binary_round_aux prec emax s m e l = S754_finite s p e3 /\
        valid_binary (S754_finite s p e3) = true /\
        val (Zpos p) e3 = val m2 (fexp prec emax (Zdigits2 m + e))) \/
     (binary_round_aux prec emax s m e l = S754_infinity s /\
      2 ^ (1024 + 1074) <= val m2 (fexp prec emax (Zdigits2 m + e)))).
Proof.
  intros Hm Hk.
  destruct (cut_props m e Hm Hk) as [Hlt Hnorm].
  unfold binary_round_aux.
  destruct (shr_fexp prec emax m e l) as [mrs' e'] eqn:E1.
  apply shr_fexp_cut in E1 as (Em1 & -> & Hloc); [|done..].
  set (e1 := fexp prec emax (Zdigits2 m + e)) in *.
  set (m1 := m / 2 ^ (e1 - e)) in *.
  assert (-1074 <= e1) as He1 by (subst e1; rewrite fexp_eq; lia).
  assert (0 <= m1) as Hm1 by (subst m1; apply Z.div_pos; [done | apply pow2_pos; lia]).
  set (m2 := round_nearest_even (shr_m mrs') (loc_of_shr_record mrs')).
  assert (m1 <= m2 <= m1 + 1) as Hm2.
  { subst m2. rewrite Em1.
    split; [apply round_nearest_even_ge | apply round_nearest_even_le]. }
  exists m2. split; [done|]. split.
  { intros Hk0 ->. subst m2. rewrite (Hloc Hk0). simpl. rewrite Em1.
    subst m1. rewrite Hk0, Z.pow_0_r, Z.div_1_r. done. }
  destruct (shr_fexp prec emax m2 e1 loc_Exact) as [mrs'' e''] eqn:E2.
  apply shr_fexp_exact in E2; [|lia]. cbn zeta in E2.
  destruct (Z.eq_dec m2 0) as [Hz|Hnz].
  - left. split; [done|]. rewrite Hz in E2. simpl in E2. rewrite fexp_eq in E2.
    destruct E2 as [(_ & -> & _)|(Hk2 & _)]; [done | lia].
  - right. assert (0 < m2) as Hpos by lia.
    pose proof (Zdigits2_bounds m2 Hpos) as [Hlo Hhi].
    pose proof (Zdigits2_pos m2 Hpos) as Hd.
    assert (Zdigits2 m2 <= 54) as Hd54.
    { apply Zdigits2_le; [done|lia|]. change (2 ^ 54) with (2 * 2 ^ 53). lia. }
    assert (e1 = -1074 \/ 53 <= Zdigits2 m2) as Hnorm2.
    { destruct Hnorm as [|H52]; [by left|]. right.
      apply (Zdigits2_ge m2 52); lia. }
    rewrite fexp_eq in E2.
    assert (exists p e3, shr_m mrs'' = Zpos p /\ e'' = e3 /\
              canonical p e3 /\ val (Zpos p) e3 = val m2 e1 /\
              (e3 = -1074 \/ 2 ^ 52 <= Zpos p)) as (p & e3 & Ep & -> & Cp & Ev & Hn3).
    { destruct E2 as [(Hk2 & -> & ->)|(Hk2 & -> & ->)].
      - destruct m2 as [|p|p]; [lia| |lia]. exists p, e1.
        split; [done|]. split; [done|]. split.
        { unfold canonical. rewrite fexp_eq. simpl in *. lia. }
        split; [done|].
        destruct Hnorm2 as [|H53]; [by left|]. right.
        simpl in H53. pose proof (digits2_pos_bounds p) as [B _].
        eapply Z.le_trans; [|exact B]. apply Z.pow_le_mono_r; lia.
      - assert (Zdigits2 m2 = 54) as D54 by lia.
        assert (m2 = 2 ^ 53) as ->.
        { rewrite D54 in Hlo. change (54 - 1) with 53 in Hlo. lia. }
        assert (Z.max (Zdigits2 (2 ^ 53) + e1 - 53) (-1074) - e1 = 1) as -> by lia.
        change (2 ^ 53 / 2 ^ 1) with (Zpos (Z.to_pos (2 ^ 52))).
        eexists _, _. split; [done|]. split; [done|]. split.
        { unfold canonical. rewrite fexp_eq.
          change (Zpos (digits2_pos (Z.to_pos (2 ^ 52)))) with 53. lia. }
        split.
        { unfold val. change (Zpos (Z.to_pos (2 ^ 52))) with (2 ^ 52).
          replace (e1 + 1 + 1074) with (1 + (e1 + 1074)) by lia.
          rewrite pow2_split by lia. change (2 ^ 53) with (2 ^ 52 * 2 ^ 1). ring. }
        right. change (Zpos (Z.to_pos (2 ^ 52))) with (2 ^ 52). lia. }
    rewrite Ep.
    destruct (e3 <=? emax - prec) eqn:Eb.
    + left. exists p, e3. split; [done|]. split; [|done].
      unfold valid_binary, bounded, canonical_mantissa.
      rewrite Eb, andb_true_r. apply Z.eqb_eq. exact Cp.
    + right. split; [done|]. rewrite <- Ev.
      apply Z.leb_gt in Eb. change (emax - prec) with 971 in Eb.
      destruct Hn3 as [|H52]; [lia|].
      unfold val.
      transitivity (2 ^ 52 * 2 ^ (e3 + 1074)).
      * rewrite <- pow2_split by lia. apply Z.pow_le_mono_r; lia.
      * apply Z.mul_le_mono_nonneg_r; [apply Z.pow_nonneg; lia | done].
Qed.

Lemma cut_interval m k :
  0 <= k -> m / 2 ^ k * 2 ^ k <= m < (m / 2 ^ k + 1) * 2 ^ k.
Proof.
  intros Hk. assert (0 < 2 ^ k) as Pk by (by apply pow2_pos).
  pose proof (Z.mul_div_le m (2 ^ k) Pk).
  pose proof (Z.mul_succ_div_gt m (2 ^ k) Pk). lia.
Qed.

Lemma Zdigits2_shift (m : positive) (d : Z) :
  0 <= d -> Zdigits2 (Zpos m * 2 ^ d) = Zpos (digits2_pos m) + d.
Proof.
  intros Hd. pose proof (digits2_pos_bounds m) as [Hlo Hhi].
  assert (0 < 2 ^ d) as Pd by (by apply pow2_pos).
  apply Z.le_antisymm.
  - apply Zdigits2_le; [lia|lia|]. rewrite pow2_split by lia. nia.
  - replace (Zpos (digits2_pos m) + d) with (Zpos (digits2_pos m) - 1 + d + 1) by lia.
    apply Zdigits2_ge; [lia|]. rewrite pow2_split by lia. nia.
Qed.

(** After [shl_align] to the exponent of the format, the mantissa has the
    bits of the format or more. *)
Lemma shl_align_fexp_k m e mz ez :
  shl_align m e (fexp prec emax (Zpos (digits2_pos m) + e)) = (mz, ez) ->
  0 <= fexp prec emax (Zdigits2 (Zpos mz) + ez) - ez.
Proof.
  unfold shl_align.
  destruct (fexp prec emax (Zpos (digits2_pos m) + e) - e) as [|d|d] eqn:Ed;
    intros [= <- <-].
  - simpl. lia.
  - simpl. lia.
  - rewrite iter_xO, Zdigits2_shift by lia.
    replace (Zpos (digits2_pos m) + Zpos d
             + fexp prec emax (Zpos (digits2_pos m) + e))
      with (Zpos (digits2_pos m) + e) by lia.
    lia.
Qed.

(** Rounding an exact value of the format's range: the result is within one
    part in 2^52 of it. *)
Lemma binary_round_close s m e :
  -1074 <= e ->
  val (Zpos m) e <= 2 ^ (1023 + 1074) ->
  exists p e3,
    binary_round prec emax s m e = S754_finite s p e3 /\
    valid_binary (S754_finite s p e3) = true /\
    Z.abs (val (Zpos p) e3 - val (Zpos m) e) * 2 ^ 52 <= val (Zpos m) e.
Proof.
  intros He Hmax. unfold binary_round.
  destruct (shl_align m e _) as [mz ez] eqn:E.
  pose proof (shl_align_fexp_k _ _ _ _ E) as Hk.
  apply shl_align_val in E as (Ev & Hez & _); [|done|rewrite fexp_eq; lia].
  rewrite <- Ev in *. clear Ev.
  destruct (binary_round_aux_spec s (Zpos mz) ez loc_Exact ltac:(lia) Hk)
    as (m2 & Hm2 & Hexact & Hres).
  destruct (cut_props (Zpos mz) ez ltac:(lia) Hk) as [Hlt Hnorm].
  set (e1 := fexp prec emax (Zdigits2 (Zpos mz) + ez)) in *.
  set (m1 := Zpos mz / 2 ^ (e1 - ez)) in *.
  assert (-1074 <= e1) as He1 by (subst e1; rewrite fexp_eq; lia).
  assert (0 < 2 ^ (ez + 1074)) as Pz by (apply pow2_pos; lia).
  assert (0 < 2 ^ (e1 + 1074)) as P1 by (apply pow2_pos; lia).
  (* the result as a value *)
  assert (Z.abs (val m2 e1 - val (Zpos mz) ez) * 2 ^ 52 <= val (Zpos mz) ez /\
          0 < m2) as [Hclose Hpos].
  { destruct (Z.eq_dec (e1 - ez) 0) as [Hk0|Hkp].
    - rewrite (Hexact Hk0 eq_refl). replace e1 with ez by lia.
      rewrite Z.sub_diag. simpl. unfold val. split; lia.
    - assert (0 < e1 - ez) as Hkpos by lia.
      destruct Hnorm as [|H52]; [lia|]. fold m1 in H52.
      pose proof (cut_interval (Zpos mz) (e1 - ez) ltac:(lia)) as [Hlo Hhi].
      fold m1 in Hlo, Hhi.
      assert (2 ^ (e1 + 1074) = 2 ^ (e1 - ez) * 2 ^ (ez + 1074)) as Ee.
      { rewrite <- pow2_split by lia. f_equal. lia. }
      assert (0 < 2 ^ (e1 - ez)) as Pk by (apply pow2_pos; lia).
      unfold val. rewrite Ee. split; [|lia].
      assert (m1 * 2 ^ (e1 - ez) * 2 ^ (ez + 1074) <= Zpos mz * 2 ^ (ez + 1074)) as A1 by nia.
      assert (Zpos mz * 2 ^ (ez + 1074)
              < (m1 + 1) * 2 ^ (e1 - ez) * 2 ^ (ez + 1074)) as A2 by nia.
      assert (2 ^ 52 * (2 ^ (e1 - ez) * 2 ^ (ez + 1074))
              <= m1 * 2 ^ (e1 - ez) * 2 ^ (ez + 1074)) as A3 by nia.
      assert (m2 = m1 \/ m2 = m1 + 1) as [-> | ->] by lia; nia. }
  destruct Hres as [[Hz _]|[(p & e3 & Hr & Hv & Hval)|[_ Hinf]]].
  - lia.
  - exists p, e3. split; [done|]. split; [done|]. by rewrite Hval.
  - exfalso.
    assert (2 ^ (1024 + 1074) = 2 * 2 ^ (1023 + 1074)) as E2.
    { rewrite <- Z.pow_succ_r by lia. f_equal. }
    assert (0 < 2 ^ (1023 + 1074)) by (apply pow2_pos; lia).
    assert (2 <= 2 ^ 52) by (change 2 with (2 ^ 1) at 1; apply Z.pow_le_mono_r; lia).
    lia.
Qed.

Lemma valid_emin s m e : valid_binary (S754_finite s m e) = true -> -1074 <= e.
Proof. intros H. apply valid_canonical in H. by eapply canonical_emin. Qed.

(** The sum of two numbers of the format: within one part in 2^52 of the
    exact sum, when that is in range. *)
Lemma SFadd_close a b :
  valid_binary a = true -> valid_binary b = true ->
  finite_sf a = true -> finite_sf b = true ->
  Z.abs (Zval a + Zval b) <= 2 ^ (1023 + 1074) ->
  finite_sf (SFadd prec emax a b) = true /\
  valid_binary (SFadd prec emax a b) = true /\
  Z.abs (Zval (SFadd prec emax a b) - (Zval a + Zval b)) * 2 ^ 52
    <= Z.abs (Zval a + Zval b).
Proof.
  intros Va Vb Fa Fb Hmax.
  destruct a as [sa| | |sa ma ea], b as [sb| | |sb mb eb]; try done.
  - destruct sa, sb; simpl; lia.
  - cbn [SFadd Zval]. split; [done|]. split; [done|].
    rewrite Z.add_0_l, Z.sub_diag. simpl. lia.
  - cbn [SFadd Zval]. split; [done|]. split; [done|].
    rewrite Z.add_0_r, Z.sub_diag. simpl. lia.
  - pose proof (valid_emin _ _ _ Va) as Hea.
    pose proof (valid_emin _ _ _ Vb) as Heb.
    cbn [SFadd]. cbn [Zval] in *.
    destruct (shl_align ma ea (Z.min ea eb)) as [xa ez1] eqn:E1.
    destruct (shl_align mb eb (Z.min ea eb)) as [xb ez2] eqn:E2.
    apply shl_align_val in E1 as (Ev1 & _ & Hz1); [|lia..].
    apply shl_align_val in E2 as (Ev2 & _ & Hz2); [|lia..].
    specialize (Hz1 ltac:(lia)). specialize (Hz2 ltac:(lia)). subst ez1 ez2.
    cbn [fst]. set (ez := Z.min ea eb) in *.
    assert (0 < 2 ^ (ez + 1074)) as Pz by (apply pow2_pos; lia).
    assert (cond_Zopp sa (val (Zpos ma) ea) + cond_Zopp sb (val (Zpos mb) eb)
            = (cond_Zopp sa (Zpos xa) + cond_Zopp sb (Zpos xb)) * 2 ^ (ez + 1074)) as EX.
    { rewrite <- Ev1, <- Ev2. unfold val. destruct sa, sb; simpl; lia. }
    rewrite EX in *.
    set (M := cond_Zopp sa (Zpos xa) + cond_Zopp sb (Zpos xb)) in *.
    destruct M as [|p|p] eqn:EM; cbn [binary_normalize].
    + simpl. lia.
    + assert (val (Zpos p) ez <= 2 ^ (1023 + 1074)) as Hb by (unfold val; lia).
      destruct (binary_round_close false p ez ltac:(lia) Hb) as (q & e3 & -> & Hv & Hc).
      split; [done|]. split; [done|]. cbn [Zval cond_Zopp]. unfold val in *. lia.
    + assert (val (Zpos p) ez <= 2 ^ (1023 + 1074)) as Hb by (unfold val; lia).
      destruct (binary_round_close true p ez ltac:(lia) Hb) as (q & e3 & -> & Hv & Hc).
      split; [done|]. split; [done|]. cbn [Zval cond_Zopp]. unfold val in *. lia.
Qed.

(** The quotient that [SFdiv_core_binary] hands to the rounding. *)
Lemma SFdiv_core_spec (ma : positive) (ea : Z) (mb : positive) (eb : Z) :
  exists q s l,
    SFdiv_core_binary prec emax (Zpos ma) ea (Zpos mb) eb
    = (q, ea - eb - s, l) /\
    0 <= s /\
    q * Zpos mb <= Zpos ma * 2 ^ s < (q + 1) * Zpos mb /\
    0 <= q /\
    0 <= fexp prec emax (Zdigits2 q + (ea - eb - s)) - (ea - eb - s) /\
    Z.min (-1074) (ea - eb) <= ea - eb - s.
Proof.
  unfold SFdiv_core_binary. cbn zeta.
  set (d1 := Zdigits2 (Zpos ma)). set (d2 := Zdigits2 (Zpos mb)).
  set (e' := Z.min (fexp prec emax (d1 + ea - (d2 + eb))) (ea - eb)).
  set (s := ea - eb - e').
  assert (0 <= s) as Hs by (subst s e'; lia).
  set (m' := match s with 0 => Zpos ma | Zpos _ => Z.shiftl (Zpos ma) s | Zneg _ => 0 end).
  assert (m' = Zpos ma * 2 ^ s) as Em.
  { subst m'. destruct s as [|p|p] eqn:Es; [simpl; lia| |lia].
    by rewrite Z.shiftl_mul_pow2 by lia. }
  pose proof (Z_div_mod m' (Zpos mb) ltac:(lia)) as Hdiv.
  destruct (Z.div_eucl m' (Zpos mb)) as [q r]. destruct Hdiv as [Hq Hr].
  exists q, s, (new_location (Zpos mb) r).
  assert (e' = ea - eb - s) as Ee by (subst s; lia).
  split; [by rewrite Ee|]. split; [done|].
  assert (0 < 2 ^ s) as Ps by (by apply pow2_pos).
  assert (0 <= q) as Hq0 by nia.
  split; [nia|]. split; [done|]. rewrite <- Ee.
  split; [|subst e'; rewrite fexp_eq; lia].
  rewrite fexp_eq.
  destruct (Z_le_gt_dec e' (-1074)) as [|Hgt]; [lia|].
  assert (e' <= d1 + ea - (d2 + eb) - 53) as HD by (subst e'; rewrite fexp_eq in *; lia).
  pose proof (digits2_pos_bounds ma) as [Ha _].
  pose proof (digits2_pos_bounds mb) as [_ Hb].
  fold (Zdigits2 (Zpos ma)) in Ha. fold d1 in Ha.
  fold (Zdigits2 (Zpos mb)) in Hb. fold d2 in Hb.
  assert (0 < d1) as Hd1 by (subst d1; simpl; lia).
  assert (0 < d2) as Hd2 by (subst d2; simpl; lia).
  assert (52 <= d1 - 1 + s - d2) as H52 by lia.
  assert (2 ^ (d1 - 1 + s - d2) <= q) as Hq52.
  { assert (m' / Zpos mb = q) as <-.
    { symmetry. apply Z.div_unique with r; lia. }
    apply Z.div_le_lower_bound; [lia|].
    rewrite Em.
    assert (2 ^ (d1 - 1 + s) = 2 ^ (d1 - 1 + s - d2) * 2 ^ d2) as E.
    { rewrite <- pow2_split by lia. f_equal. lia. }
    assert (2 ^ (d1 - 1 + s) = 2 ^ (d1 - 1) * 2 ^ s) as E'.
    { rewrite <- pow2_split by lia. done. }
    assert (0 < 2 ^ (d1 - 1 + s - d2)) by (apply pow2_pos; lia).
    nia. }
  assert (53 <= Zdigits2 q).
  { apply (Zdigits2_ge q 52); [lia|].
    eapply Z.le_trans; [|exact Hq52]. apply Z.pow_le_mono_r; lia. }
  lia.
Qed.

(** The quotient of two numbers: within one part in 2^52 of the exact
    quotient, or within the smallest number of the format. *)
Lemma SFdiv_close sa ma ea sb mb eb :
  -1074 <= ea -> -1074 <= eb ->
  val (Zpos ma) ea <= val (Zpos mb) eb * 2 ^ 1023 ->
  let r := SFdiv prec emax (S754_finite sa ma ea) (S754_finite sb mb eb) in
  finite_sf r = true /\ valid_binary r = true /\
  Z.abs (Zval r * val (Zpos mb) eb
         - cond_Zopp (xorb sa sb) (val (Zpos ma) ea * 2 ^ 1074)) * 2 ^ 52
  <= val (Zpos ma) ea * 2 ^ 1074 + val (Zpos mb) eb * 2 ^ 52.
Proof.
  intros Hea Heb Hmax. cbn zeta. cbn [SFdiv].
  destruct (SFdiv_core_spec ma ea mb eb) as (q & s & l & -> & Hs & Hq & Hq0 & Hk & He').
  set (e' := ea - eb - s) in *.
  destruct (binary_round_aux_spec (xorb sa sb) q e' l Hq0 Hk) as (m2 & Hm2 & _ & Hres).
  destruct (cut_props q e' Hq0 Hk) as [Hlt Hnorm].
  set (e1 := fexp prec emax (Zdigits2 q + e')) in *.
  set (m1 := q / 2 ^ (e1 - e')) in *.
  assert (-1074 <= e1) as He1 by (subst e1; rewrite fexp_eq; lia).
  pose proof (cut_interval q (e1 - e') Hk) as Hcut. fold m1 in Hcut.
  assert (0 <= m1) as Hm1 by (subst m1; apply Z.div_pos; [done | apply pow2_pos; lia]).
  set (g := e' + eb + 2148).
  assert (0 <= g) as Hg by (subst g; lia).
  assert (2 ^ (e1 + 1074) * 2 ^ (eb + 1074) = 2 ^ (e1 - e') * 2 ^ g) as E1.
  { rewrite <- !pow2_split by lia. f_equal. subst g. lia. }
  assert (2 ^ (ea + 1074) * 2 ^ 1074 = 2 ^ s * 2 ^ g) as E2.
  { rewrite <- !pow2_split by lia. f_equal. subst g e'. lia. }
  assert (0 < 2 ^ (e1 - e')) as PA by (apply pow2_pos; lia).
  assert (0 < 2 ^ g) as PG by (by apply pow2_pos).
  assert (0 < 2 ^ s) as PS by (by apply pow2_pos).
  assert (0 < 2 ^ (e1 + 1074)) as PU by (apply pow2_pos; lia).
  assert (0 < 2 ^ (eb + 1074)) as PB by (apply pow2_pos; lia).
  set (X := val (Zpos ma) ea) in *. set (Y := val (Zpos mb) eb) in *.
  assert (0 < Y) as HY by (subst Y; unfold val; lia).
  assert (0 < X) as HX.
  { subst X. unfold val. assert (0 < 2 ^ (ea + 1074)) by (apply pow2_pos; lia). lia. }
  set (T := X * 2 ^ 1074) in *.
  set (U := 2 ^ (e1 + 1074)) in *.
  assert (forall m, val m e1 * Y = m * U * Y) as Evm by (intros; subst U; unfold val; lia).
  assert (m1 * U * Y <= T < (m1 + 1) * U * Y) as HT.
  { assert (U * Y = Zpos mb * (2 ^ (e1 - e') * 2 ^ g)) as EUY.
    { subst U Y. unfold val. rewrite <- E1. ring. }
    assert (T = Zpos ma * 2 ^ s * 2 ^ g) as ET.
    { subst T X. unfold val. rewrite <- Z.mul_assoc, E2. ring. }
    rewrite <- !Z.mul_assoc, EUY, ET.
    set (A := 2 ^ (e1 - e')) in *. set (G := 2 ^ g) in *. set (S := 2 ^ s) in *.
    assert (m1 * A * Zpos mb <= Zpos ma * S) as L1 by nia.
    assert (Zpos ma * S < (m1 + 1) * A * Zpos mb) as L2 by nia.
    split; nia. }
  assert (U * Y * 2 ^ 52 <= T + Y * 2 ^ 52) as HU.
  { destruct Hnorm as [Hsub|H52].
    - fold e1 in Hsub. subst U. rewrite Hsub. simpl. subst T. nia.
    - fold m1 in H52. nia. }
  assert (0 < T) as HTpos by (subst T; nia).
  assert (Z.abs (m2 * U * Y - T) <= U * Y) as Hd.
  { assert (m2 = m1 \/ m2 = m1 + 1) as [-> | ->] by lia; lia. }
  destruct Hres as [[Hz ->]|[(p & e3 & -> & Hv & Hval)|[_ Hinf]]].
  - split; [done|]. split; [done|]. cbn [Zval].
    subst m2. assert (m1 = 0) as Hm10 by lia. rewrite Hm10 in *.
    destruct (xorb sa sb); cbn [cond_Zopp]; lia.
  - split; [done|]. split; [done|]. cbn [Zval].
    fold e1 in Hval. rewrite Hval.
    destruct (xorb sa sb); cbn [cond_Zopp]; rewrite ?Z.mul_opp_l, Evm; lia.
  - exfalso. fold e1 in Hinf.
    assert (val m2 e1 * Y <= T + U * Y) as Hle by (rewrite Evm; lia).
    assert (T <= Y * 2 ^ (1023 + 1074)) as HTmax.
    { subst T. rewrite (pow2_split 1023 1074) by lia. nia. }
    assert (2 ^ (1024 + 1074) = 2 * 2 ^ (1023 + 1074)) as E3.
    { rewrite <- Z.pow_succ_r by lia. f_equal. }
    assert (0 < 2 ^ (1023 + 1074)) as P3 by (apply pow2_pos; lia).
    destruct Hnorm as [Hsub|H52].
    + fold e1 in Hsub. unfold val in Hinf. rewrite Hsub in Hinf. simpl in Hinf.
      fold m1 in Hlt.
      assert (2 ^ 53 < 2 ^ (1024 + 1074)) by (apply Z.pow_lt_mono_r; lia). lia.
    + fold m1 in H52.
      assert (U * Y * 2 ^ 52 <= T) as HU' by nia.
      assert (2 <= 2 ^ 52) by (change 2 with (2 ^ 1) at 1; apply Z.pow_le_mono_r; lia).
      nia.
Qed.

(** ** From the integers to the rationals *)

Lemma Qabs_div_pos (a k : Q) : (0 < k)%Q -> (Qabs (a / k) == Qabs a / k)%Q.
Proof.
  intros Hk. unfold Qdiv. rewrite Qabs_Qmult.
  rewrite (Qabs_pos (/ k)); [reflexivity|].
  apply Qlt_le_weak, Qinv_lt_0_compat, Hk.
Qed.

Lemma Qabs_inject_Z (z : Z) : Qabs (inject_Z z) = inject_Z (Z.abs z).
Proof. reflexivity. Qed.

Section Scale.
Variable k : Z.
Hypothesis Hk : 0 < k.

Lemma scale_pos : (0 < inject_Z k)%Q.
Proof. change 0%Q with (inject_Z 0). by rewrite <- Zlt_Qlt. Qed.

Lemma scale_to_Q (u c v w : Z) :
  Z.abs u * c <= Z.abs v + w ->
  (Qabs (inject_Z u / inject_Z k) * inject_Z c
   <= Qabs (inject_Z v / inject_Z k) + inject_Z w / inject_Z k)%Q.
Proof.
  intros H. pose proof scale_pos as Hp.
  rewrite !Qabs_div_pos, !Qabs_inject_Z by done.
  rewrite Zle_Qle, inject_Z_plus, inject_Z_mult in H.
  set (U := inject_Z (Z.abs u)) in *. set (V := inject_Z (Z.abs v)) in *.
  set (C := inject_Z c) in *. set (W := inject_Z w) in *.
  set (K := inject_Z k) in *.
  assert (U / K * C == U * C / K)%Q as -> by (field; lra).
  assert (V / K + W / K == (V + W) / K)%Q as -> by (field; lra).
  apply Qmult_le_r with K; [done|].
  assert (U * C / K * K == U * C)%Q as -> by (field; lra).
  assert ((V + W) / K * K == V + W)%Q as -> by (field; lra).
  done.
Qed.

Lemma scale_to_Z (u c : Z) :
  (Qabs (inject_Z u / inject_Z k) <= inject_Z c)%Q -> Z.abs u <= c * k.
Proof.
  intros H. pose proof scale_pos as Hp.
  rewrite Qabs_div_pos, Qabs_inject_Z in H by done.
  rewrite Zle_Qle, inject_Z_mult.
  set (U := inject_Z (Z.abs u)) in *. set (C := inject_Z c) in *.
  set (K := inject_Z k) in *.
  apply Qmult_le_r with (z := K) in H; [|done].
  assert (U / K * K == U)%Q as E by (field; lra). by rewrite E in H.
Qed.
End Scale.

Lemma Qval_eq (x : float) :
  Qval x = (inject_Z (Zval (Prim2SF x)) / inject_Z (2 ^ 1074))%Q.
Proof. reflexivity. Qed.

Lemma K_pos : 0 < 2 ^ 1074.
Proof. by apply pow2_pos. Qed.

Lemma finite_finite_sf (x : float) : finite x = finite_sf (Prim2SF x).
Proof. unfold finite. by destruct (Prim2SF x). Qed.

(** The sum of two floats. *)
Lemma float_add_close (x y : float) :
  finite x = true -> finite y = true ->
  (Qabs (Qval x + Qval y) <= inject_Z (2 ^ 1023))%Q ->
  finite (x + y) = true /\
  (Qabs (Qval (x + y) - (Qval x + Qval y)) * inject_Z (2 ^ 52)
   <= Qabs (Qval x + Qval y))%Q.
Proof.
  rewrite !finite_finite_sf, !Qval_eq, add_spec. unfold SF64add. intros Fx Fy Hmax.
  set (A := Zval (Prim2SF x)) in *. set (B := Zval (Prim2SF y)) in *.
  pose proof K_pos as HK. pose proof (scale_pos _ HK) as HKq.
  set (K := 2 ^ 1074) in *.
  assert (inject_Z A / inject_Z K + inject_Z B / inject_Z K
          == inject_Z (A + B) / inject_Z K)%Q as ES.
  { rewrite inject_Z_plus. field. lra. }
  rewrite ES in Hmax. apply scale_to_Z in Hmax; [|done].
  destruct (SFadd_close (Prim2SF x) (Prim2SF y) (Prim2SF_valid x) (Prim2SF_valid y)
              Fx Fy) as (Fr & _ & Hc).
  { fold A B. subst K. rewrite pow2_split by lia. lia. }
  split; [done|]. fold A B in Hc.
  set (R := Zval (SFadd prec emax (Prim2SF x) (Prim2SF y))) in *.
  assert (inject_Z R / inject_Z K
          - (inject_Z A / inject_Z K + inject_Z B / inject_Z K)
          == inject_Z (R - (A + B)) / inject_Z K)%Q as ->.
  { unfold Z.sub. rewrite !inject_Z_plus, inject_Z_opp, inject_Z_plus. field. lra. }
  rewrite ES.
  pose proof (scale_to_Q K HK (R - (A + B)) (2 ^ 52) (A + B) 0 ltac:(lia)) as H.
  assert (inject_Z 0 / inject_Z K == 0)%Q as E0 by (field; lra).
  rewrite E0, Qplus_0_r in H. exact H.
Qed.

Lemma val_bounded s m e :
  valid_binary (S754_finite s m e) = true ->
  -1074 <= e /\ val (Zpos m) e < 2 ^ (1024 + 1074).
Proof.
  intros H. pose proof (valid_emin _ _ _ H) as He. split; [done|].
  unfold valid_binary, bounded, canonical_mantissa in H.
  apply andb_prop in H as [Hc Hb]. apply Z.eqb_eq in Hc. apply Z.leb_le in Hb.
  rewrite fexp_eq in Hc. change (emax - prec) with 971 in Hb.
  pose proof (digits2_pos_bounds m) as [_ Hhi].
  assert (Zpos m < 2 ^ 53) as Hm.
  { eapply Z.lt_le_trans; [exact Hhi|]. apply Z.pow_le_mono_r; lia. }
  unfold val.
  assert (0 < 2 ^ (e + 1074)) as Pe by (apply pow2_pos; lia).
  assert (2 ^ (e + 1074) <= 2 ^ (971 + 1074)) as Hle by (apply Z.pow_le_mono_r; lia).
  assert (2 ^ (1024 + 1074) = 2 ^ 53 * 2 ^ (971 + 1074)) as E.
  { rewrite <- pow2_split by lia. done. }
  rewrite E. nia.
Qed.

(** The division by 1000.0. *)
Lemma float_div1000_close (x : float) :
  finite x = true ->
  finite (x / 1000) = true /\
  (Qabs (Qval (x / 1000) * inject_Z 1000 - Qval x) * inject_Z (2 ^ 52)
   <= Qabs (Qval x) + inject_Z (1000 * 2 ^ 52) * eta)%Q.
Proof.
  rewrite !finite_finite_sf, !Qval_eq, div_spec. unfold SF64div. intros Fx.
  pose proof (Prim2SF_valid x) as Vx.
  pose proof K_pos as HK. pose proof (scale_pos _ HK) as HKq.
  assert (exists mk ek, Prim2SF 1000 = S754_finite false mk ek /\ -1074 <= ek /\
            val (Zpos mk) ek = 1000 * 2 ^ 1074) as (mk & ek & -> & Hek & Ek).
  { eexists _, _. split; [vm_compute; reflexivity|]. split; [done|].
    vm_compute. reflexivity. }
  assert (Z.abs (Zval (SFdiv prec emax (Prim2SF x) (S754_finite false mk ek)) * 1000
                 - Zval (Prim2SF x)) * 2 ^ 52
          <= Z.abs (Zval (Prim2SF x)) + 1000 * 2 ^ 52 /\
          finite_sf (SFdiv prec emax (Prim2SF x) (S754_finite false mk ek)) = true)
    as [Hc Fr].
  { destruct (Prim2SF x) as [sx| | |sx mx ex]; try done.
    - destruct (val_bounded _ _ _ Vx) as [Hex Hmax].
      destruct (SFdiv_close sx mx ex false mk ek Hex Hek) as (Fr & _ & Hc).
      { rewrite Ek. rewrite (pow2_split 1024 1074) in Hmax by lia.
        assert (0 < 2 ^ 1074) by done.
        assert (2 ^ 1024 = 2 * 2 ^ 1023) as E24 by (rewrite <- Z.pow_succ_r by lia; done).
        rewrite E24 in Hmax.
        assert (0 < 2 ^ 1023) by (apply pow2_pos; lia). nia. }
      split; [|done]. cbn zeta in Hc. rewrite Ek, xorb_false_r in Hc.
      cbn [Zval]. set (R := Zval _) in *. set (X := val (Zpos mx) ex) in *.
      set (K := 2 ^ 1074) in *.
      assert (0 <= X) by (subst X; unfold val; apply Z.mul_nonneg_nonneg;
                          [lia | apply Z.pow_nonneg; lia]).
      assert (R * (1000 * K) - cond_Zopp sx (X * K)
              = (R * 1000 - cond_Zopp sx X) * K) as E by (destruct sx; simpl; lia).
      rewrite E, Z.abs_mul, (Z.abs_eq K) in Hc by lia.
      assert (Z.abs (cond_Zopp sx X) = X) as -> by (destruct sx; simpl; lia).
      set (D := Z.abs (R * 1000 - cond_Zopp sx X)) in *.
      assert (D * 2 ^ 52 * K <= (X + 1000 * 2 ^ 52) * K) as Hc' by lia.
      apply Z.mul_le_mono_pos_r in Hc'; [done|lia]. }
  split; [done|].
  set (R := Zval (SFdiv _ _ _ _)) in *. set (A := Zval (Prim2SF x)) in *.
  set (K := 2 ^ 1074) in *.
  assert (inject_Z R / inject_Z K * inject_Z 1000 - inject_Z A / inject_Z K
          == inject_Z (R * 1000 - A) / inject_Z K)%Q as E1.
  { unfold Z.sub. rewrite inject_Z_plus, inject_Z_opp, inject_Z_mult. field. lra. }
  rewrite E1.
  pose proof (scale_to_Q K HK (R * 1000 - A) (2 ^ 52) A (1000 * 2 ^ 52) Hc) as H.
  assert (inject_Z (1000 * 2 ^ 52) * eta == inject_Z (1000 * 2 ^ 52) / inject_Z K)%Q
    as E2 by (unfold eta; fold K; field; lra).
  by rewrite E2.
Qed.

(** The float nearest to a decimal number [p / 10^nf]. *)
Lemma float_of_decimal_close (neg : bool) (m nf : Z) :
  0 <= m -> 0 <= nf -> m <= 10 ^ nf * 2 ^ 1023 ->
  finite (float_of_decimal neg m (- nf)) = true /\
  (Qabs (Qval (float_of_decimal neg m (- nf)) * inject_Z (10 ^ nf)
         - inject_Z (cond_Zopp neg m)) * inject_Z (2 ^ 52)
   <= inject_Z m + inject_Z (10 ^ nf * 2 ^ 52) * eta)%Q.
Proof.
  intros Hm Hnf Hmax.
  pose proof K_pos as HK. pose proof (scale_pos _ HK) as HKq.
  assert (0 < 10 ^ nf) as P10 by (apply Z.pow_pos_nonneg; lia).
  destruct m as [|p|p]; [|clear Hm|lia].
  - assert (float_of_decimal neg 0 (- nf) = if neg then (-0)%float else 0%float) as ->
      by done.
    assert (Qval (if neg then (-0)%float else 0%float) == 0)%Q as E0.
    { by destruct neg. }
    split; [by destruct neg|]. rewrite E0.
    assert (cond_Zopp neg 0 = 0) as -> by (by destruct neg).
    assert (0 * inject_Z (10 ^ nf) - inject_Z 0 == 0)%Q as -> by ring.
    simpl Qabs. rewrite Qmult_0_l, Qplus_0_l.
    apply Qmult_le_0_compat.
    + change 0%Q with (inject_Z 0). rewrite <- Zle_Qle. nia.
    + unfold eta. apply Qlt_le_weak, Qlt_shift_div_l; [done|]. lra.
  - unfold float_of_decimal.
    replace (Z.max (- nf) 0) with 0 by lia.
    replace (Z.max (- - nf) 0) with nf by lia.
    change (Z.to_pos (10 ^ 0)) with 1%positive. rewrite Pos.mul_1_r.
    set (den := Z.to_pos (10 ^ nf)).
    assert (Zpos den = 10 ^ nf) as Eden by (subst den; rewrite Z2Pos.id; lia).
    destruct (SFdiv_close neg p 0 false den 0 ltac:(lia) ltac:(lia)) as (Fr & Vr & Hc).
    { unfold val. rewrite Eden. simpl (0 + 1074). nia. }
    cbn zeta in Hc. set (r := SFdiv prec emax _ _) in *.
    rewrite finite_finite_sf, Qval_eq, Prim2SF_SF2Prim by done.
    split; [done|].
    rewrite xorb_false_r in Hc. unfold val in Hc. rewrite Eden in Hc.
    change (0 + 1074) with 1074 in Hc.
    set (R := Zval r) in *. set (K := 2 ^ 1074) in *.
    assert (R * (10 ^ nf * K) - cond_Zopp neg (Zpos p * K * K)
            = (R * 10 ^ nf - cond_Zopp neg (Zpos p * K)) * K) as E
      by (destruct neg; simpl; lia).
    rewrite E, Z.abs_mul, (Z.abs_eq K) in Hc by lia.
    set (D := Z.abs (R * 10 ^ nf - cond_Zopp neg (Zpos p * K))) in *.
    assert (D * 2 ^ 52 * K <= (Zpos p * K + 10 ^ nf * 2 ^ 52) * K) as Hc' by lia.
    apply Z.mul_le_mono_pos_r in Hc'; [|lia].
    assert (inject_Z R / inject_Z K * inject_Z (10 ^ nf) - inject_Z (cond_Zopp neg (Zpos p))
            == inject_Z (R * 10 ^ nf - cond_Zopp neg (Zpos p * K)) / inject_Z K)%Q as E1.
    { assert (cond_Zopp neg (Zpos p * K) = cond_Zopp neg (Zpos p) * K) as ->
        by (destruct neg; simpl; lia).
      unfold Z.sub. rewrite inject_Z_plus, inject_Z_opp, !inject_Z_mult. field. lra. }
    rewrite E1.
    pose proof (scale_to_Q K HK (R * 10 ^ nf - cond_Zopp neg (Zpos p * K)) (2 ^ 52)
                  (Zpos p * K) (10 ^ nf * 2 ^ 52)) as H.
    fold D in H. rewrite (Z.abs_eq (Zpos p * K)) in H by lia.
    specialize (H Hc').
    assert (Qabs (inject_Z (Zpos p * K) / inject_Z K) == inject_Z (Zpos p))%Q as E2.
    { rewrite Qabs_div_pos, Qabs_inject_Z, Z.abs_eq, inject_Z_mult by (done || lia).
      field. lra. }
    assert (inject_Z (10 ^ nf * 2 ^ 52) * eta
            == inject_Z (10 ^ nf * 2 ^ 52) / inject_Z K)%Q
      as E3 by (unfold eta; fold K; field; lra).
    by rewrite E2 in H; rewrite E3.
Qed.

(** ** Plain decimal numerals *)

Lemma digit_facts (c : ascii) (r : string) :
  isdigit c = true ->
  isspace c = false /\ Ascii.eqb c "," = false /\ Ascii.eqb c "." = false /\
  Ascii.eqb c "_" = false /\ Ascii.eqb c "-" = false /\
  parse_sign (String c r) = (false, String c r) /\
  String.eqb (lower (String c r)) "inf" = false /\
  String.eqb (lower (String c r)) "infinity" = false /\
  String.eqb (lower (String c r)) "nan" = false.
Proof. by destruct c as [[] [] [] [] [] [] [] []]. Qed.

Lemma float_isspace_isspace (c : ascii) : isspace c = false -> float_isspace c = false.
Proof. by destruct c as [[] [] [] [] [] [] [] []]. Qed.

Lemma float_strip_no_space (s : string) : no_space s = true -> float_strip s = s.
Proof.
  intros Hs. unfold float_strip.
  assert (float_lstrip s = s) as ->.
  { destruct s as [|c s]; [done|]. simpl in *. apply andb_prop in Hs as [Hc _].
    apply negb_true_iff in Hc. by rewrite (float_isspace_isspace c Hc). }
  induction s as [|c s IH]; [done|]. simpl in *. apply andb_prop in Hs as [Hc Hs].
  rewrite IH by done. destruct s; [|done].
  apply negb_true_iff in Hc. by rewrite (float_isspace_isspace c Hc).
Qed.

Lemma no_space_app (a b : string) : no_space (a +:+ b) = no_space a && no_space b.
Proof.
  induction a as [|c a IH]; [done|]. rewrite append_cons. simpl.
  by rewrite IH, andb_assoc.
Qed.

Lemma no_space_digits (s : string) : all_digits s = true -> no_space s = true.
Proof.
  induction s as [|c s IH]; [done|]. simpl. intros [Hc Hs]%andb_prop.
  destruct (digit_facts c "" Hc) as (-> & _). by rewrite IH.
Qed.

Lemma replace_comma_digits (new : ascii) (s : string) :
  all_digits s = true -> replace "," new s = s.
Proof.
  induction s as [|c s IH]; simpl; [done|].
  intros [Hc Hs]%andb_prop. rewrite IH by done.
  destruct (digit_facts c "" Hc) as (_ & -> & _). done.
Qed.

Lemma digitpart_digits (ip rest : string) (prev : bool) (acc n : Z) :
  all_digits ip = true ->
  match rest with
  | String c _ => isdigit c = false /\ Ascii.eqb c "_" = false
  | EmptyString => True
  end ->
  digitpart prev acc n (ip +:+ rest)
  = (digits_value acc ip, n + Z.of_nat (String.length ip), rest).
Proof.
  intros Hip Hrest. revert prev acc n.
  induction ip as [|d ip IH]; intros prev acc n.
  - rewrite append_nil_l. simpl. rewrite Z.add_0_r.
    destruct rest as [|c r]; [done|]. destruct Hrest as [Hd Hu].
    simpl. by rewrite Hd, Hu.
  - simpl in Hip. apply andb_prop in Hip as [Hd Hip].
    rewrite append_cons. cbn [digitpart]. rewrite Hd, IH by done.
    cbn [digits_value String.length]. f_equal. f_equal. lia.
Qed.

Lemma cut_at_separator_spec (body : string) :
  match cut_at_separator body with
  | (ip, None) => body = ip
  | (ip, Some f) => exists c, (c = ","%char \/ c = "."%char) /\ body = ip +:+ String c f
  end.
Proof.
  induction body as [|c body IH]; [done|]. cbn [cut_at_separator].
  destruct (Ascii.eqb_spec c ",") as [->|Hc1]; cbn [orb].
  - exists ","%char. split; [by left|done].
  - destruct (Ascii.eqb_spec c ".") as [->|Hc2].
    + exists "."%char. split; [by right|done].
    + destruct (cut_at_separator body) as [a [f|]].
      * destruct IH as (x & Hx & ->). exists x. split; [done|]. by rewrite append_cons.
      * by rewrite IH.
Qed.

(** [float] on a numeral: the float nearest to the number it writes. *)
Lemma float_of_string_numeral (neg : bool) (ip fp : string) (dot : bool) :
  ip <> "" -> all_digits ip = true -> all_digits fp = true ->
  (dot = false -> fp = "") ->
  float_of_string ((if neg then "-" else "") +:+ ip
                   +:+ (if dot then String "." fp else ""))
  = Ok (float_of_decimal neg (digits_value (digits_value 0 ip) fp)
          (- Z.of_nat (String.length fp))).
Proof.
  intros Hne Hip Hfp Hdot. unfold float_of_string.
  set (tail := if dot then String "." fp else "").
  assert (no_space tail = true) as Htail.
  { subst tail. destruct dot; [|done]. simpl. by apply no_space_digits. }
  rewrite float_strip_no_space.
  2:{ rewrite !no_space_app, (no_space_digits ip Hip), Htail. by destruct neg. }
  destruct ip as [|d ip']; [done|]. clear Hne.
  pose proof Hip as Hip0. simpl in Hip0. apply andb_prop in Hip0 as [Hd _].
  assert (parse_sign ((if neg then "-" else "") +:+ String d ip' +:+ tail)
          = (neg, String d ip' +:+ tail)) as ->.
  { destruct neg; [done|].
    rewrite append_nil_l, append_cons.
    by destruct (digit_facts d (ip' +:+ tail) Hd) as (_ & _ & _ & _ & _ & -> & _). }
  rewrite append_cons.
  destruct (digit_facts d (ip' +:+ tail) Hd) as (_ & _ & _ & _ & _ & _ & -> & -> & ->).
  cbn [orb]. rewrite <- append_cons.
  unfold parse_decimal.
  rewrite (digitpart_digits (String d ip') tail false 0 0 Hip).
  2:{ subst tail. by destruct dot. }
  subst tail. destruct dot.
  - rewrite <- (append_nil_r fp) at 1.
    rewrite (digitpart_digits fp "" false _ 0 Hfp I).
    assert ((0 <? 0 + Z.of_nat (String.length (String d ip'))) = true) as ->.
    { apply Z.ltb_lt. simpl. lia. }
    cbn. repeat (f_equal; try lia).
  - rewrite (Hdot eq_refl).
    assert ((0 <? 0 + Z.of_nat (String.length (String d ip'))) = true) as ->.
    { apply Z.ltb_lt. simpl. lia. }
    done.
Qed.

(** ** The three roundings of the program *)

Lemma to_eps (D R : Q) : (D * inject_Z (2 ^ 52) <= R)%Q -> (D <= eps * R)%Q.
Proof.
  intros H. assert (D == D * inject_Z (2 ^ 52) * eps)%Q as ->.
  { assert (inject_Z (2 ^ 52) * eps == 1)%Q as E by reflexivity.
    rewrite <- Qmult_assoc, E. ring. }
  rewrite (Qmult_comm eps R). apply Qmult_le_compat_r; [done|]. by unfold eps.
Qed.

Lemma eta_pos : (0 < eta)%Q.
Proof. unfold eta. apply Qlt_shift_div_l; [apply scale_pos, K_pos | lra]. Qed.

Lemma float_add_eps (x y : float) :
  finite x = true -> finite y = true ->
  (Qabs (Qval x + Qval y) <= inject_Z (2 ^ 1023))%Q ->
  finite (x + y) = true /\
  (Qabs (Qval (x + y) - (Qval x + Qval y)) <= eps * Qabs (Qval x + Qval y))%Q.
Proof.
  intros Fx Fy H. destruct (float_add_close x y Fx Fy H) as [F Hc].
  split; [done|]. by apply to_eps.
Qed.

Lemma float_div1000_eps (x : float) :
  finite x = true ->
  finite (x / 1000) = true /\
  (Qabs (Qval (x / 1000) - Qval x / inject_Z 1000)
   <= eps * Qabs (Qval x) / inject_Z 1000 + eta)%Q.
Proof.
  intros Fx. destruct (float_div1000_close x Fx) as [F Hc]. split; [done|].
  apply to_eps in Hc.
  set (V := Qval (x / 1000)) in *. set (A := Qval x) in *.
  assert (V - A / inject_Z 1000 == (V * inject_Z 1000 - A) / inject_Z 1000)%Q as ->
    by (field; discriminate).
  rewrite Qabs_div_pos by reflexivity.
  set (D := Qabs (V * inject_Z 1000 - A)) in *. set (B := Qabs A) in *.
  assert (eps * (B + inject_Z (1000 * 2 ^ 52) * eta)
          == eps * B + inject_Z 1000 * eta)%Q as E.
  { assert (eps * inject_Z (1000 * 2 ^ 52) == inject_Z 1000)%Q as E' by reflexivity.
    rewrite Qmult_plus_distr_r, Qmult_assoc, E'. reflexivity. }
  rewrite E in Hc.
  apply Qle_shift_div_r; [reflexivity|].
  assert ((eps * B / inject_Z 1000 + eta) * inject_Z 1000
          == eps * B + inject_Z 1000 * eta)%Q as -> by (field; discriminate).
  done.
Qed.

Lemma digit_val_nonneg (c : ascii) : isdigit c = true -> 0 <= digit_val c.
Proof. by destruct c as [[] [] [] [] [] [] [] []]. Qed.

Lemma digits_value_nonneg (s : string) (acc : Z) :
  all_digits s = true -> 0 <= acc -> 0 <= digits_value acc s.
Proof.
  revert acc. induction s as [|c s IH]; intros acc Hs Hacc; [done|].
  simpl in *. apply andb_prop in Hs as [Hc Hs]. apply IH; [done|].
  pose proof (digit_val_nonneg c Hc). lia.
Qed.

Lemma split_minus_spec (s : string) :
  s = (if (split_minus s).1 then "-" else "") +:+ (split_minus s).2.
Proof.
  destruct s as [|c s]; [done|]. unfold split_minus.
  destruct (Ascii.eqb_spec c "-") as [->|]; done.
Qed.

(** A field that is a plain decimal numeral is read, and read as the float
    nearest to the number it writes. *)
Lemma to_float_decimal (s : string) (q : Q) :
  decimal_value s = Some q ->
  (Qabs q <= inject_Z (2 ^ 1023))%Q ->
  exists x,
    to_float float_of_string s = Ok x /\ finite x = true /\
    (Qabs (Qval x - q) <= eps * Qabs q + eta)%Q.
Proof.
  unfold decimal_value. pose proof (split_minus_spec s) as Es.
  destruct (split_minus s) as [neg body]. cbn [fst snd] in Es.
  pose proof (cut_at_separator_spec body) as Ec.
  destruct (cut_at_separator body) as [ip frac].
  destruct (negb (String.eqb ip "")) eqn:Hne; [|done].
  destruct (all_digits ip) eqn:Hip; [|done]. cbn [andb].
  set (fp := default "" frac).
  destruct (match frac with Some f => negb (String.eqb f "") | None => true end)
    eqn:Hf; [|done].
  destruct (all_digits fp) eqn:Hfp; [|done]. cbn [andb].
  intros [= <-] Hmax.
  apply negb_true_iff in Hne. apply String.eqb_neq in Hne.
  set (m := digits_value (digits_value 0 ip) fp) in *.
  set (nf := Z.of_nat (String.length fp)) in *.
  assert (0 <= m) as Hm.
  { subst m. apply digits_value_nonneg; [done|]. by apply digits_value_nonneg. }
  assert (0 <= nf) as Hnf by (subst nf; lia).
  assert (0 < 10 ^ nf) as P10 by (apply Z.pow_pos_nonneg; lia).
  pose proof (scale_pos _ P10) as P10q.
  (* the text that [float] is given *)
  assert (replace "," "." s
          = (if neg then "-" else "") +:+ ip
            +:+ (if bool_decide (frac = None) then "" else String "." fp)) as Et.
  { rewrite Es, !replace_app.
    assert (replace "," "." (if neg then "-" else "") = if neg then "-" else "") as ->
      by (by destruct neg).
    f_equal. destruct frac as [f|].
    - destruct Ec as (c & Hc & ->). rewrite replace_app.
      rewrite replace_comma_digits by done. f_equal.
      cbn [replace]. subst fp. cbn [default] in *.
      rewrite replace_comma_digits by done.
      by destruct Hc as [-> | ->].
    - rewrite Ec, replace_comma_digits by done. by rewrite append_nil_r. }
  unfold to_float. rewrite Et.
  pose proof (float_of_string_numeral neg ip fp (negb (bool_decide (frac = None)))
                Hne Hip Hfp) as Hfs.
  assert ((if negb (bool_decide (frac = None)) then String "." fp else "")
          = (if bool_decide (frac = None) then "" else String "." fp)) as Eb
    by (by destruct (bool_decide (frac = None))).
  rewrite Eb in Hfs. rewrite Hfs.
  2:{ intros Hd. apply negb_false_iff, bool_decide_eq_true in Hd. by subst frac. }
  fold m nf.
  assert (m <= 10 ^ nf * 2 ^ 1023) as Hmle.
  { apply scale_to_Z in Hmax; [|done].
    assert (Z.abs (cond_Zopp neg m) = m) as E by (destruct neg; simpl; lia).
    rewrite E in Hmax. lia. }
  destruct (float_of_decimal_close neg m nf Hm Hnf Hmle) as [F Hc].
  eexists. split; [done|]. split; [done|].
  apply to_eps in Hc.
  set (V := Qval (float_of_decimal neg m (- nf))) in *.
  set (T := inject_Z (10 ^ nf)) in *. set (Mq := inject_Z (cond_Zopp neg m)) in *.
  assert (Qabs (Mq / T) == inject_Z m / T)%Q as Eq.
  { rewrite Qabs_div_pos by done. subst Mq. rewrite Qabs_inject_Z.
    assert (Z.abs (cond_Zopp neg m) = m) as -> by (destruct neg; simpl; lia). done. }
  rewrite Eq.
  assert (V - Mq / T == (V * T - Mq) / T)%Q as -> by (field; lra).
  rewrite Qabs_div_pos by done.
  set (D := Qabs (V * T - Mq)) in *.
  assert (eps * (inject_Z m + inject_Z (10 ^ nf * 2 ^ 52) * eta)
          == eps * inject_Z m + T * eta)%Q as E.
  { rewrite inject_Z_mult. fold T.
    assert (eps * inject_Z (2 ^ 52) == 1)%Q as E' by reflexivity.
    rewrite Qmult_plus_distr_r.
    assert (eps * (T * inject_Z (2 ^ 52) * eta) == eps * inject_Z (2 ^ 52) * (T * eta))%Q
      as -> by ring.
    rewrite E'. ring. }
  rewrite E in Hc.
  apply Qle_shift_div_r; [done|].
  assert ((eps * (inject_Z m / T) + eta) * T == eps * inject_Z m + T * eta)%Q as ->
    by (field; lra).
  done.
Qed.

(** ** The float sum against the exact sum *)

Lemma Qabs_cases (e : Q) :
  ((0 <= e)%Q /\ (Qabs e == e)%Q) \/ ((e <= 0)%Q /\ (Qabs e == - e)%Q).
Proof.
  destruct (Qlt_le_dec e 0) as [H|H].
  - right. split; [lra|]. apply Qabs_neg. lra.
  - left. split; [done|]. by apply Qabs_pos.
Qed.

Ltac qabs :=
  repeat match goal with
    | |- context [Qabs ?e] =>
        let z := fresh "z" in
        let H := fresh "Hz" in
        pose proof (Qabs_cases e) as H; set (z := Qabs e) in *; clearbody z;
        destruct H as [[? ?]|[? ?]]
    | H0 : context [Qabs ?e] |- _ =>
        let z := fresh "z" in
        let H := fresh "Hz" in
        pose proof (Qabs_cases e) as H; set (z := Qabs e) in *; clearbody z;
        destruct H as [[? ?]|[? ?]]
    end.

Lemma eta_le_1 : (eta <= 1)%Q.
Proof.
  unfold eta. apply Qle_shift_div_r; [apply scale_pos, K_pos|].
  rewrite Qmult_1_l. change 1%Q with (inject_Z 1). rewrite <- Zle_Qle.
  pose proof K_pos. lia.
Qed.

Lemma Qsum_abs_nonneg (qs : list Q) : (0 <= Qsum_abs qs)%Q.
Proof.
  induction qs as [|q qs IH]; simpl; [lra|]. pose proof (Qabs_nonneg q). lra.
Qed.

Section FoldAdd.
Variables Mtot amax B : Q.
Hypothesis HM0 : (0 <= Mtot)%Q.
Hypothesis HM : (Mtot <= inject_Z (2 ^ 1000))%Q.
Hypothesis HB : (B == 3 * eps * Mtot + 2 * eta)%Q.
Hypothesis Hamax : (amax <= (3 # 4) * Mtot + inject_Z (2 ^ 51) * eta)%Q.

(** One turn of the summation. *)
Lemma add_step (acc x : float) (S q a : Q) :
  finite acc = true -> close x q ->
  (Qabs (Qval acc - S) <= a)%Q -> (0 <= a)%Q ->
  (Qabs S + Qabs q <= Mtot)%Q ->
  (a + B <= amax)%Q ->
  finite (acc + x) = true /\
  (Qabs (Qval (acc + x) - (S + q)) <= a + B)%Q.
Proof.
  intros Facc [Fx Hx] Hacc Ha HS Hmax.
  pose proof eta_pos as He0. pose proof eta_le_1 as He1.
  assert (Qabs (Qval acc + Qval x) <= inject_Z (2 ^ 1023))%Q as Hov.
  { let c := eval cbv in (inject_Z (2 ^ 1023)) in change (inject_Z (2 ^ 1023)) with c.
    let c := eval cbv in (inject_Z (2 ^ 1000)) in change (inject_Z (2 ^ 1000)) with c in HM.
    let c := eval cbv in (inject_Z (2 ^ 51)) in change (inject_Z (2 ^ 51)) with c in Hamax.
    unfold eps in *. set (e := eta) in *. clearbody e.
    set (Va := Qval acc) in *. set (Vx := Qval x) in *. clearbody Va Vx.
    qabs; lra. }
  destruct (float_add_eps acc x Facc Fx Hov) as [F Hadd].
  split; [done|].
  let c := eval cbv in (inject_Z (2 ^ 1000)) in change (inject_Z (2 ^ 1000)) with c in HM.
  let c := eval cbv in (inject_Z (2 ^ 51)) in change (inject_Z (2 ^ 51)) with c in Hamax.
  clear Hov. unfold eps in *. set (e := eta) in *. clearbody e.
  set (V := Qval (acc + x)) in *. set (Va := Qval acc) in *. set (Vx := Qval x) in *.
  clearbody V Va Vx.
  qabs; lra.
Qed.

Lemma fold_add_close (xs : list float) (qs : list Q) :
  Forall2 close xs qs ->
  forall (acc : float) (S a : Q),
    finite acc = true ->
    (Qabs (Qval acc - S) <= a)%Q -> (0 <= a)%Q ->
    (Qabs S + Qsum_abs qs <= Mtot)%Q ->
    (a + inject_Z (Z.of_nat (length xs)) * B <= amax)%Q ->
    finite (foldl PrimFloat.add acc xs) = true /\
    (Qabs (Qval (foldl PrimFloat.add acc xs) - (S + Qsum qs))
     <= a + inject_Z (Z.of_nat (length xs)) * B)%Q.
Proof.
  assert (0 <= B)%Q as HB0.
  { rewrite HB. pose proof eta_pos. unfold eps. lra. }
  induction 1 as [|x q xs qs Hxq _ IH]; intros acc S a Facc Hacc Ha HS Hmax.
  - cbn [foldl Qsum foldr length Z.of_nat]. split; [done|].
    assert (S + 0 == S)%Q as -> by ring.
    assert (a + inject_Z 0 * B == a)%Q as -> by ring. done.
  - cbn [foldl Qsum Qsum_abs foldr length] in *.
    fold (Qsum qs). fold (Qsum_abs qs) in HS.
    assert (inject_Z (Z.of_nat (Datatypes.S (length xs))) * B
            == B + inject_Z (Z.of_nat (length xs)) * B)%Q as En.
    { rewrite Nat2Z.inj_succ. unfold Z.succ. rewrite inject_Z_plus. ring. }
    rewrite En in *.
    pose proof (Qsum_abs_nonneg qs) as Hq0.
    set (t := (inject_Z (Z.of_nat (length xs)) * B)%Q) in *.
    assert (0 <= t)%Q as Ht.
    { subst t. apply Qmult_le_0_compat; [|done].
      change 0%Q with (inject_Z 0). rewrite <- Zle_Qle. lia. }
    destruct (add_step acc x S q a Facc Hxq Hacc Ha) as [F Hstep]; [lra|lra|].
    destruct (IH (acc + x)%float (S + q)%Q (a + B)%Q F Hstep) as [F' H'].
    + lra.
    + pose proof (Qabs_triangle S q). lra.
    + lra.
    + split; [done|].
      assert (S + (q + Qsum qs) == S + q + Qsum qs)%Q as -> by ring.
      lra.
Qed.
End FoldAdd.

(** ** The totals of one day against the exact sums *)

Lemma Qsum_abs_ge (qs : list Q) : (Qabs (Qsum qs) <= Qsum_abs qs)%Q.
Proof.
  induction qs as [|q qs IH]; [apply Qle_refl|].
  change (Qsum (q :: qs)) with (q + Qsum qs)%Q.
  change (Qsum_abs (q :: qs)) with (Qabs q + Qsum_abs qs)%Q.
  pose proof (Qabs_triangle q (Qsum qs)). lra.
Qed.

Lemma Qsum_abs_elem (qs : list Q) (q : Q) : q ∈ qs -> (Qabs q <= Qsum_abs qs)%Q.
Proof.
  induction 1 as [q qs|q q' qs _ IH].
  - change (Qsum_abs (q :: qs)) with (Qabs q + Qsum_abs qs)%Q.
    pose proof (Qsum_abs_nonneg qs). lra.
  - change (Qsum_abs (q' :: qs)) with (Qabs q' + Qsum_abs qs)%Q.
    pose proof (Qabs_nonneg q'). lra.
Qed.

Lemma plain_field_close (row : list string) (i : nat) :
  plain_row row -> (1 <= i <= 6)%nat ->
  (Qabs (field_value row i) <= inject_Z (2 ^ 1023))%Q ->
  exists x, getitem row i ≫= to_float float_of_string = Ok x /\
            close x (field_value row i).
Proof.
  intros Hrow Hi Hmax.
  assert (i ∈ channels) as Hin.
  { unfold channels.
    assert (i = 1 \/ i = 2 \/ i = 3 \/ i = 4 \/ i = 5 \/ i = 6)%nat as Hc by lia.
    destruct Hc as [->|[->|[->|[->|[->| ->]]]]]; set_solver. }
  unfold plain_row in Hrow. rewrite Forall_forall in Hrow.
  destruct (Hrow i Hin) as [q Hq0].
  destruct (row !! i) as [f|] eqn:Hf; [|done].
  assert (decimal_value f = Some q) as Hq by done.
  unfold field_value in *. rewrite Hf in *. cbn [mbind option_bind] in *.
  rewrite Hq in *. cbn [default] in *.
  destruct (to_float_decimal f q Hq Hmax) as (x & Hx & F & Hc).
  exists x. rewrite (getitem_Some _ _ _ Hf), bind_Ok. by split.
Qed.

Lemma plain_row_reads (d : date) (row : list string) :
  timestamp_on d row -> plain_row row ->
  (forall i, (1 <= i <= 6)%nat ->
     (Qabs (field_value row i) <= inject_Z (2 ^ 1023))%Q) ->
  reads_on float_of_string d row.
Proof.
  intros (ts & dt & Hts & Hdt & <-) Hrow Hmax. unfold reads_on, read_row.
  rewrite (getitem_Some _ _ _ Hts), bind_Ok, Hdt, bind_Ok.
  destruct (plain_field_close row 1 Hrow ltac:(lia) (Hmax 1%nat ltac:(lia))) as (x1 & -> & _).
  destruct (plain_field_close row 2 Hrow ltac:(lia) (Hmax 2%nat ltac:(lia))) as (x2 & -> & _).
  destruct (plain_field_close row 3 Hrow ltac:(lia) (Hmax 3%nat ltac:(lia))) as (x3 & -> & _).
  destruct (plain_field_close row 4 Hrow ltac:(lia) (Hmax 4%nat ltac:(lia))) as (x4 & -> & _).
  destruct (plain_field_close row 5 Hrow ltac:(lia) (Hmax 5%nat ltac:(lia))) as (x5 & -> & _).
  destruct (plain_field_close row 6 Hrow ltac:(lia) (Hmax 6%nat ltac:(lia))) as (x6 & -> & _).
  rewrite !bind_Ok. eauto.
Qed.

Lemma channel_values_close (i : nat) (rows : list (list string)) :
  (1 <= i <= 6)%nat ->
  Forall plain_row rows ->
  (abs_sum i rows <= inject_Z (2 ^ 1023))%Q ->
  Forall2 close (channel_values float_of_string i rows)
          ((fun row => field_value row i) <$> rows).
Proof.
  intros Hi Hrows Hmax. unfold abs_sum in Hmax.
  assert (forall row, row ∈ rows ->
            (Qabs (field_value row i) <= inject_Z (2 ^ 1023))%Q) as Hall.
  { intros row Hin. eapply Qle_trans; [|exact Hmax].
    apply Qsum_abs_elem. apply list_elem_of_fmap. by exists row. }
  clear Hmax. induction Hrows as [|row rows Hrow _ IH]; [constructor|].
  unfold channel_values in *. cbn [omap list_omap]. rewrite fmap_cons.
  destruct (plain_field_close row i Hrow Hi) as (x & -> & Hc).
  { apply Hall, list_elem_of_here. }
  constructor; [done|]. apply IH. intros r Hr. by apply Hall, list_elem_of_further.
Qed.

Lemma pow2_Q_le (a b : Z) : 0 <= a <= b -> (inject_Z (2 ^ a) <= inject_Z (2 ^ b))%Q.
Proof. intros H. rewrite <- Zle_Qle. apply Z.pow_le_mono_r; lia. Qed.

(** The float sum of one channel, divided by 1000. *)
Lemma channel_total_close (xs : list float) (qs : list Q) :
  Forall2 close xs qs ->
  Z.of_nat (length xs) <= 2 ^ 50 ->
  (Qsum_abs qs <= inject_Z (2 ^ 1000))%Q ->
  finite (foldl PrimFloat.add 0%float xs / 1000) = true /\
  (Qabs (Qval (foldl PrimFloat.add 0%float xs / 1000) - Qsum qs / inject_Z 1000)
   <= tolerance (length xs) (Qsum_abs qs))%Q.
Proof.
  intros Hxq Hn HM.
  set (n := inject_Z (Z.of_nat (length xs))).
  set (M := Qsum_abs qs) in *.
  pose proof (Qsum_abs_nonneg qs) as HM0. fold M in HM0.
  pose proof eta_pos as He0.
  assert (0 <= n)%Q as Hn0.
  { subst n. change 0%Q with (inject_Z 0). rewrite <- Zle_Qle. lia. }
  assert (n <= inject_Z (2 ^ 50))%Q as Hn50 by (subst n; by rewrite <- Zle_Qle).
  assert (n * M <= inject_Z (2 ^ 50) * M)%Q as HP by (by apply Qmult_le_compat_r).
  assert (n * eta <= inject_Z (2 ^ 50) * eta)%Q as HPe
    by (apply Qmult_le_compat_r; [done | lra]).
  assert (0 <= n * M)%Q as HP0 by (by apply Qmult_le_0_compat).
  assert (0 <= n * eta)%Q as HPe0 by (apply Qmult_le_0_compat; [done | lra]).
  set (B := (3 * eps * M + 2 * eta)%Q).
  assert (n * B == 3 * eps * (n * M) + 2 * (n * eta))%Q as EnB by (subst B; ring).
  destruct (fold_add_close M (n * B)%Q B HM0 HM ltac:(reflexivity)) with
    (xs := xs) (qs := qs) (acc := 0%float) (S := 0%Q) (a := 0%Q) as [F Hsum];
    try done.
  - rewrite EnB.
    let c := eval cbv in (inject_Z (2 ^ 50)) in change (inject_Z (2 ^ 50)) with c in *.
    let c := eval cbv in (inject_Z (2 ^ 51)) in change (inject_Z (2 ^ 51)) with c.
    unfold eps. set (P := (n * M)%Q) in *. set (Pe := (n * eta)%Q) in *. lra.
  - change (Qabs 0) with 0%Q. fold M. lra.
  - fold n. lra.
  - fold n in Hsum.
    destruct (float_div1000_eps _ F) as [F' Hdiv]. split; [done|].
    pose proof (Qsum_abs_ge qs) as HS. fold M in HS.
    unfold tolerance. fold M.
    assert (inject_Z (3 * Z.of_nat (length xs) + 2) == 3 * n + 2)%Q as E1.
    { rewrite inject_Z_plus, inject_Z_mult. reflexivity. }
    assert (inject_Z (Z.of_nat (length xs) + 1) == n + 1)%Q as E2.
    { rewrite inject_Z_plus. reflexivity. }
    rewrite E1, E2.
    assert (0 + n * B == n * B)%Q as E3 by ring. rewrite E3, EnB in Hsum.
    assert (0 + Qsum qs == Qsum qs)%Q as E4 by ring. rewrite E4 in Hsum.
    set (V := Qval (foldl PrimFloat.add 0%float xs / 1000)) in *.
    set (Vs := Qval (foldl PrimFloat.add 0%float xs)) in *.
    set (S := Qsum qs) in *. clearbody V Vs S.
    assert ((3 * n + 2) * eps * M / inject_Z 1000 + (n + 1) * eta
            == (3 * eps * (n * M) + 2 * eps * M) * (1 # 1000) + n * eta + eta)%Q as ->
      by (field; discriminate).
    assert (S / inject_Z 1000 == S * (1 # 1000))%Q as E5 by (field; discriminate).
    assert (Vs / inject_Z 1000 == Vs * (1 # 1000))%Q as E6 by (field; discriminate).
    rewrite E5. rewrite E6 in Hdiv.
    assert (forall z, eps * z / inject_Z 1000 == eps * z * (1 # 1000))%Q as E7
      by (intros; field; discriminate).
    rewrite E7 in Hdiv.
    let c := eval cbv in (inject_Z (2 ^ 50)) in change (inject_Z (2 ^ 50)) with c in *.
    unfold eps in *. set (P := (n * M)%Q) in *. set (Pe := (n * eta)%Q) in *.
    clearbody P Pe. clear -Hsum Hdiv HS HM0 He0 HP HPe HP0 HPe0.
    set (e := eta) in *. clearbody e.
    qabs; lra.
Qed.

(** C2, amended.  When every row is a record of one day - a timestamp that
    parses and falls on that day, six values written as plain decimal
    numerals - the totals hold that day alone, and for each channel 1..6 the
    kilowatt-hours reported are a number that differs from the exact sum of
    the channel's watt-hours divided by 1000 by at most
    (3n + 2) * 2^-52 * M / 1000 + (n + 1) * 2^-1074, for [n] rows (at most
    2^50) whose absolute values add up to [M] watt-hours (at most 2^1000). *)
Theorem single_day_totals (rows : list (list string)) (d : date) :
  rows <> [] ->
  Forall (fun row => timestamp_on d row /\ plain_row row) rows ->
  Z.of_nat (length rows) <= 2 ^ 50 ->
  Forall (fun i => (abs_sum i rows <= inject_Z (2 ^ 1000))%Q) channels ->
  exists t,
    compute_daily_totals rows = Ok {[ d := t ]} /\
    forall i, (1 <= i <= 6)%nat ->
      finite (tuple_get t (i - 1)) = true /\
      (Qabs (Qval (tuple_get t (i - 1)) - exact_sum i rows / inject_Z 1000)
       <= tolerance (length rows) (abs_sum i rows))%Q.
Proof.
  intros Hne Hrows Hn Hsums.
  assert (forall i, (1 <= i <= 6)%nat -> (abs_sum i rows <= inject_Z (2 ^ 1000))%Q)
    as HM.
  { intros i Hi. rewrite Forall_forall in Hsums. apply Hsums. unfold channels.
    assert (i = 1 \/ i = 2 \/ i = 3 \/ i = 4 \/ i = 5 \/ i = 6)%nat as Hc by lia.
    destruct Hc as [->|[->|[->|[->|[->| ->]]]]]; set_solver. }
  assert (forall i, (1 <= i <= 6)%nat -> (abs_sum i rows <= inject_Z (2 ^ 1023))%Q)
    as HM'.
  { intros i Hi. eapply Qle_trans; [by apply HM|]. apply pow2_Q_le. lia. }
  assert (Forall plain_row rows) as Hplain.
  { eapply Forall_impl; [exact Hrows|]. by intros row [_ H]. }
  assert (Forall (reads_on float_of_string d) rows) as Hreads.
  { apply Forall_forall. intros row Hin.
    rewrite Forall_forall in Hrows. destruct (Hrows row Hin) as [Hts Hpl].
    apply plain_row_reads; [done..|]. intros i Hi.
    eapply Qle_trans; [|by apply (HM' i)].
    apply Qsum_abs_elem, list_elem_of_fmap. by exists row. }
  destruct (single_day_totals_with 0%float PrimFloat.add (fun v => (v / 1000)%float)
              float_of_string d rows Hne Hreads) as (t & Ht & Hti).
  exists t. split; [exact Ht|]. intros i Hi.
  rewrite (Hti i Hi). unfold wh_sum.
  pose proof (channel_values_close i rows Hi Hplain (HM' i Hi)) as Hclose.
  pose proof (Forall2_length _ _ _ Hclose) as Hlen. rewrite length_fmap in Hlen.
  destruct (channel_total_close _ _ Hclose) as [F Hc].
  - by rewrite Hlen.
  - by apply HM.
  - split; [done|]. rewrite Hlen in Hc. exact Hc.
Qed.

Lemma single_day_totals_witness :
  exists t,
    compute_daily_totals
      [["2025-10-13 00:00:00"; "100"; "200"; "300"; "50"; "60"; "70"];
       ["2025-10-13T00:15"; "0,5"; "200.25"; "300"; "-50"; "60"; "1000"; "extra"]]
    = Ok {[ Date 2025 10 13 := t ]} /\
    forall i, (1 <= i <= 6)%nat ->
      finite (tuple_get t (i - 1)) = true /\
      (Qabs (Qval (tuple_get t (i - 1))
             - exact_sum i
                 [["2025-10-13 00:00:00"; "100"; "200"; "300"; "50"; "60"; "70"];
                  ["2025-10-13T00:15"; "0,5"; "200.25"; "300"; "-50"; "60"; "1000";
                   "extra"]]
               / inject_Z 1000)
       <= tolerance 2
            (abs_sum i
               [["2025-10-13 00:00:00"; "100"; "200"; "300"; "50"; "60"; "70"];
                ["2025-10-13T00:15"; "0,5"; "200.25"; "300"; "-50"; "60"; "1000";
                 "extra"]]))%Q.
Proof.
  apply (single_day_totals
           [["2025-10-13 00:00:00"; "100"; "200"; "300"; "50"; "60"; "70"];
            ["2025-10-13T00:15"; "0,5"; "200.25"; "300"; "-50"; "60"; "1000"; "extra"]]
           (Date 2025 10 13)).
  - done.
  - repeat constructor; try (eexists _, _; repeat split; vm_compute; reflexivity);
      eexists; vm_compute; reflexivity.
  - by vm_compute.
  - repeat constructor; by vm_compute.
Defined.

(** The float sum is not near the exact sum when values cancel or when the
    sum leaves the range: 1e16 + 1 - 1e16 watt-hours are reported as 0.0
    kilowatt-hours, the exact total being 0.001; and twice 1e308 watt-hours
    are reported as infinitely many. *)
Lemma float_sum_off_exact_sum :
  compute_daily_totals
    [["2025-10-13 00:00"; "10000000000000000"; "0"; "0"; "0"; "0"; "0"];
     ["2025-10-13 00:15"; "1"; "0"; "0"; "0"; "0"; "0"];
     ["2025-10-13 00:30"; "-10000000000000000"; "0"; "0"; "0"; "0"; "0"]]
  = Ok {[ Date 2025 10 13 := (0, 0, 0, 0, 0, 0)%float ]} /\
  (exact_sum 1
     [["2025-10-13 00:00"; "10000000000000000"; "0"; "0"; "0"; "0"; "0"];
      ["2025-10-13 00:15"; "1"; "0"; "0"; "0"; "0"; "0"];
      ["2025-10-13 00:30"; "-10000000000000000"; "0"; "0"; "0"; "0"; "0"]]
   / inject_Z 1000 == 1 # 1000)%Q /\
  compute_daily_totals
    [["2025-10-13 00:00"; "1e308"; "0"; "0"; "0"; "0"; "0"];
     ["2025-10-13 00:15"; "1e308"; "0"; "0"; "0"; "0"; "0"]]
  = Ok {[ Date 2025 10 13 := (infinity, 0, 0, 0, 0, 0)%float ]}.
Proof. repeat split; vm_compute; reflexivity. Qed.
